(** * ReelComp: the TikTok video collector

    A shallow embedding of [src/video_collection/collector.py] and the
    properties of its contract: ID extraction from URLs, the metadata
    mapping, the downloader's error boundary and the batch operation
    [download_videos] with its client life cycle. *)

From Stdlib Require Import String Ascii ZArith.
From Stdlib Require Import Floats.PrimFloat.
From stdpp Require Import base option list strings.

Open Scope string_scope.

(** ** Characters and strings

    A Python [str] is modelled as a [string] whose characters are the
    code points 0..255.  The classes below are the ones Python uses on
    that range: [\d] is the decimal digits, [\w] is [str.isalnum] or
    underscore, and [str.strip()] removes the characters for which
    [str.isspace] holds. *)

Module Chars.

Definition code (c : ascii) : nat := nat_of_ascii c.

Definition between (lo hi : nat) (c : ascii) : bool :=
  (lo <=? code c)%nat && (code c <=? hi)%nat.

Definition is_digit (c : ascii) : bool := between 48 57 c.

Definition is_ascii_alpha (c : ascii) : bool :=
  between 65 90 c || between 97 122 c.

(** Letters and numeric characters of the range 128..255: feminine and
    masculine ordinal, micro sign, superscript digits, vulgar fractions
    and the accented letters (multiplication and division signs are
    symbols). *)
Definition is_latin1_alnum (c : ascii) : bool :=
  (code c =? 170)%nat || between 178 179 c || (code c =? 181)%nat
  || between 185 186 c || between 188 190 c
  || between 192 214 c || between 216 246 c || between 248 255 c.

Definition is_word (c : ascii) : bool :=
  is_ascii_alpha c || is_digit c || (code c =? 95)%nat || is_latin1_alnum c.

Definition is_space (c : ascii) : bool :=
  between 9 13 c || between 28 32 c || (code c =? 133)%nat || (code c =? 160)%nat.

End Chars.

(** [str.strip()] with no argument. *)
Fixpoint lstrip (s : string) : string :=
  match s with
  | String c s' => if Chars.is_space c then lstrip s' else s
  | EmptyString => EmptyString
  end.

Fixpoint rstrip (s : string) : string :=
  match s with
  | String c s' =>
      match rstrip s' with
      | EmptyString => if Chars.is_space c then EmptyString else String c EmptyString
      | r => String c r
      end
  | EmptyString => EmptyString
  end.

Definition strip (s : string) : string := rstrip (lstrip s).

(** Truth value of a [str]: the empty string is falsy. *)
Definition str_truthy (s : string) : bool :=
  match s with EmptyString => false | _ => true end.

(** ** Regular expressions

    The fragment of Python's [re] syntax that [video_id_patterns] uses:
    literals, escapes, [\d], [\w], bracket sets, groups (capturing and
    [(?:...)]), alternation and the greedy quantifiers [?] and [+]. *)

Module Re.

Inductive item : Type :=
| IChar (c : ascii)
| IDigit
| IWord.

Definition in_item (c : ascii) (i : item) : bool :=
  match i with
  | IChar d => Ascii.eqb c d
  | IDigit => Chars.is_digit c
  | IWord => Chars.is_word c
  end.

Definition in_class (cl : list item) (c : ascii) : bool :=
  existsb (in_item c) cl.

Inductive regex : Type :=
| Eps
| Class (cl : list item)          (* one character of the class *)
| Cat (r1 r2 : regex)
| Alt (r1 r2 : regex)             (* r1|r2, r1 preferred *)
| Opt (r : regex)                 (* r?, greedy *)
| Plus (cl : list item)           (* c+, greedy, on a one-character class *)
| Group (r : regex).              (* the capturing group (each pattern has one) *)

Definition Lit (c : ascii) : regex := Class [IChar c].

(** *** Parsing a pattern *)

Definition parsed (A : Type) : Type := option (A * string).

(** The items of a bracket set up to the closing bracket.  A hyphen is a
    literal only as the last item; ranges are outside the fragment. *)
Fixpoint parse_set (p : string) (acc : list item) : parsed (list item) :=
  match p with
  | String "]" rest => match acc with [] => None | _ => Some (acc, rest) end
  | String "\" (String "d" rest) => parse_set rest (acc ++ [IDigit])%list
  | String "\" (String "w" rest) => parse_set rest (acc ++ [IWord])%list
  | String "\" (String c rest) =>
      if Chars.is_ascii_alpha c || Chars.is_digit c then None
      else parse_set rest (acc ++ [IChar c])%list
  | String "-" (String "]" rest) => Some ((acc ++ [IChar "-"])%list, rest)
  | String "-" _ => None
  | String "[" _ => None
  | String c rest => parse_set rest (acc ++ [IChar c])%list
  | EmptyString => None
  end.

Definition is_special (c : ascii) : bool :=
  existsb (Ascii.eqb c)
    ["."; "^"; "$"; "*"; "+"; "?"; "{"; "}"; "["; "]"; "\"; "|"; "("; ")"]%char.

(** A quantifier after an atom. *)
Definition quantified (a : regex) (p : string) : parsed regex :=
  match p with
  | String "?" rest =>
      match rest with
      | String "?" _ | String "+" _ | String "*" _ | String "{" _ => None
      | _ => Some (Opt a, rest)
      end
  | String "+" rest =>
      match a, rest with
      | _, String "?" _ | _, String "+" _ | _, String "*" _ | _, String "{" _ => None
      | Class cl, _ => Some (Plus cl, rest)
      | _, _ => None
      end
  | String "*" _ | String "{" _ => None
  | _ => Some (a, p)
  end.

Section Parser.
(** [parse_alt] of one level less of nesting. *)
Variable parse_inner : string -> parsed regex.

Definition parse_atom (p : string) : parsed regex :=
  match p with
  | String "(" (String "?" (String ":" rest)) =>
      match parse_inner rest with
      | Some (r, String ")" rest') => Some (r, rest')
      | _ => None
      end
  | String "(" (String "?" _) => None
  | String "(" rest =>
      match parse_inner rest with
      | Some (r, String ")" rest') => Some (Group r, rest')
      | _ => None
      end
  | String "[" (String "^" _) => None
  | String "[" rest =>
      match parse_set rest [] with
      | Some (cl, rest') => Some (Class cl, rest')
      | None => None
      end
  | String "\" (String "d" rest) => Some (Class [IDigit], rest)
  | String "\" (String "w" rest) => Some (Class [IWord], rest)
  | String "\" (String c rest) =>
      if Chars.is_ascii_alpha c || Chars.is_digit c then None
      else Some (Lit c, rest)
  | String c rest => if is_special c then None else Some (Lit c, rest)
  | EmptyString => None
  end.

(** A sequence of quantified atoms, up to [|], [)] or the end. *)
Fixpoint parse_seq (n : nat) (p : string) : parsed regex :=
  match p with
  | EmptyString | String "|" _ | String ")" _ => Some (Eps, p)
  | _ =>
      match n with
      | O => None
      | S n' =>
          match parse_atom p with
          | Some (a, rest) =>
              match quantified a rest with
              | Some (q, rest') =>
                  match parse_seq n' rest' with
                  | Some (Eps, rest'') => Some (q, rest'')
                  | Some (r, rest'') => Some (Cat q r, rest'')
                  | None => None
                  end
              | None => None
              end
          | None => None
          end
      end
  end.

Fixpoint parse_branches (n : nat) (p : string) : parsed regex :=
  match parse_seq (String.length p) p with
  | Some (r, String "|" rest) =>
      match n with
      | O => None
      | S n' =>
          match parse_branches n' rest with
          | Some (r', rest') => Some (Alt r r', rest')
          | None => None
          end
      end
  | other => other
  end.
End Parser.

Fixpoint parse_alt (depth : nat) (p : string) : parsed regex :=
  match depth with
  | O => None
  | S d => parse_branches (parse_alt d) (String.length p) p
  end.

(** [re.compile]: [None] stands for a pattern outside the fragment. *)
Definition compile (p : string) : option regex :=
  match parse_alt (S (String.length p)) p with
  | Some (r, EmptyString) => Some r
  | _ => None
  end.

(** *** Matching

    A matching state is the rest of the subject and the text of group 1
    (if it took part so far).  [run r st] lists the states in which a
    match of [r] from [st] can end, in the order in which Python's
    backtracking matcher tries them; the match it reports is the first
    one that lets the whole pattern succeed. *)

Definition mstate : Type := string * option string.

(** The first [n] characters. *)
Fixpoint take (n : nat) (s : string) : string :=
  match n, s with
  | S n', String c s' => String c (take n' s')
  | _, _ => EmptyString
  end.

(** What was consumed between the subject [s] and its suffix [s']. *)
Definition consumed (s s' : string) : string :=
  take (String.length s - String.length s') s.

(** Zero or more characters of the class, the longest run first. *)
Fixpoint star (cl : list item) (s : string) : list string :=
  match s with
  | String c s' => if in_class cl c then (star cl s' ++ [s])%list else [s]
  | EmptyString => [s]
  end.

Fixpoint run (r : regex) (st : mstate) : list mstate :=
  match r with
  | Eps => [st]
  | Class cl =>
      match st.1 with
      | String c s' => if in_class cl c then [(s', st.2)] else []
      | EmptyString => []
      end
  | Cat r1 r2 => flat_map (run r2) (run r1 st)
  | Alt r1 r2 => (run r1 st ++ run r2 st)%list
  | Opt r1 => (run r1 st ++ [st])%list
  | Plus cl =>
      match st.1 with
      | String c s' => if in_class cl c then map (fun t => (t, st.2)) (star cl s') else []
      | EmptyString => []
      end
  | Group r1 => map (fun e : mstate => (e.1, Some (consumed st.1 e.1))) (run r1 st)
  end.

(** A match object: the text of group 1, [None] when the group did not
    take part in the match. *)
Record Match : Type := { group1 : option string }.

(** [re.match] at the start of [s]. *)
Definition match_here (r : regex) (s : string) : option Match :=
  match head (run r (s, None)) with
  | Some e => Some {| group1 := e.2 |}
  | None => None
  end.

(** The leftmost position at which the pattern matches. *)
Fixpoint scan (r : regex) (s : string) : option Match :=
  match match_here r s with
  | Some m => Some m
  | None =>
      match s with
      | String _ s' => scan r s'
      | EmptyString => None
      end
  end.

(** [re.search(pattern, s)]; a pattern outside the fragment matches
    nothing here (none of the collector's patterns is). *)
Definition search (pattern s : string) : option Match :=
  match compile pattern with
  | Some r => scan r s
  | None => None
  end.

(** Every character of the string is in the class. *)
Fixpoint all_in (cl : list item) (s : string) : bool :=
  match s with
  | String c s' => in_class cl c && all_in cl s'
  | EmptyString => true
  end.

(** The string does not go on with a character of the class. *)
Definition stops (cl : list item) (s : string) : bool :=
  match s with
  | String c _ => negb (in_class cl c)
  | EmptyString => true
  end.

(** The pattern cannot match without setting group 1. *)
Fixpoint binds (r : regex) : bool :=
  match r with
  | Group _ => true
  | Cat r1 r2 => binds r1 || binds r2
  | Alt r1 r2 => binds r1 && binds r2
  | _ => false
  end.

End Re.

(** ** The collector's pure part *)

(** [self.video_id_patterns], as set in [__init__]. *)
Definition video_id_patterns : list string :=
  [ "https?://(?:www\.)?tiktok\.com/@[\w.-]+/video/(\d+)";
    "https?://(?:m\.)?tiktok\.com/v/(\d+)";
    "https?://(?:vm|vt)\.tiktok\.com/(\w+)" ].

(** The loop of [_extract_video_id]: the first pattern that matches
    decides, and its group 1 is returned. *)
Fixpoint extract_with (patterns : list string) (url : string) : option string :=
  match patterns with
  | pattern :: rest =>
      match Re.search pattern url with
      | Some m => Re.group1 m
      | None => extract_with rest url
      end
  | [] => None
  end.

(** The warning the method logs when no pattern matches has no part in
    what it returns: extraction is a function of the URL. *)
Definition _extract_video_id (url : string) : option string :=
  extract_with video_id_patterns url.

Definition _construct_video_url (video_id : string) : string :=
  "https://www.tiktok.com/@placeholder/video/" ++ video_id.

(** ** Python values

    The objects a response of the scraping client is made of.  A dict
    keeps its items in insertion order, so it is an association list. *)

#[warnings="-register-all"]
Inductive pyval : Type :=
| PNone
| PBool (b : bool)
| PInt (n : Z)
| PFloat (f : float)
| PStr (s : string)
| PList (l : list pyval)
| PDict (d : list (string * pyval)).

(** [bool(v)]. *)
Definition truthy (v : pyval) : bool :=
  match v with
  | PNone => false
  | PBool b => b
  | PInt n => negb (n =? 0)%Z
  | PFloat f => negb (PrimFloat.eqb f 0%float)
  | PStr s => str_truthy s
  | PList l => match l with [] => false | _ => true end
  | PDict d => match d with [] => false | _ => true end
  end.

Definition type_name (v : pyval) : string :=
  match v with
  | PNone => "NoneType" | PBool _ => "bool" | PInt _ => "int" | PFloat _ => "float"
  | PStr _ => "str" | PList _ => "list" | PDict _ => "dict"
  end.

Fixpoint dict_lookup {A : Type} (k : string) (d : list (string * A)) : option A :=
  match d with
  | (k', v) :: d' => if String.eqb k k' then Some v else dict_lookup k d'
  | [] => None
  end.

(** [d[k] = v]: an existing key keeps its place, a new one goes last. *)
Fixpoint dict_set {A : Type} (k : string) (v : A) (d : list (string * A)) : list (string * A) :=
  match d with
  | (k', v') :: d' =>
      if String.eqb k k' then (k', v) :: d' else (k', v') :: dict_set k v d'
  | [] => [(k, v)]
  end.

(** ** Exceptions and results

    Every exception of the model is an instance of [Exception], the
    class the collector's handlers catch. *)

Inductive exn : Type :=
| Exception (msg : string)          (* raised by the collector itself *)
| AttributeError (msg : string)     (* an attribute the object lacks *)
| Foreign (msg : string).           (* raised inside a collaborator *)

Definition str_exn (e : exn) : string :=
  match e with Exception m | AttributeError m | Foreign m => m end.

Inductive outcome (A : Type) : Type :=
| Returns (a : A)
| Raises (e : exn).
Arguments Returns {A} a.
Arguments Raises {A} e.

(** [v.get(key, default)]: only a dict has the method. *)
Definition py_get (v : pyval) (key : string) (default : pyval) : outcome pyval :=
  match v with
  | PDict d => Returns (match dict_lookup key d with Some x => x | None => default end)
  | _ => Raises (AttributeError ("'" ++ type_name v ++ "' object has no attribute 'get'"))
  end.

(** ** The data model *)

Module VideoMetadata.
Record t : Type := {
  id : string;
  author : pyval;
  desc : pyval;
  create_time : pyval;
  duration : pyval;
  height : pyval;
  width : pyval;
  cover : pyval;
  download_url : pyval;
  play_url : pyval;
  music_author : pyval;
  music_title : pyval;
  likes : pyval;
  shares : pyval;
  comments : pyval;
  views : pyval;
  local_path : option string;
  url : option string
}.

(** [m.local_path = p]. *)
Definition set_local_path (p : string) (m : t) : t :=
  {| id := id m; author := author m; desc := desc m; create_time := create_time m;
     duration := duration m; height := height m; width := width m; cover := cover m;
     download_url := download_url m; play_url := play_url m;
     music_author := music_author m; music_title := music_title m;
     likes := likes m; shares := shares m; comments := comments m; views := views m;
     local_path := Some p; url := url m |}.
End VideoMetadata.

(** [config.tiktok]; [None] is an attribute the object does not have. *)
Record TikTokConfig : Type := {
  ms_token : option pyval;
  session_id : option pyval
}.

(** ** The collaborators

    The scraping client, the download tool, the file manager and the
    file system are outside the module.  Each use of one is a [call];
    what it answers, and whether it raises, is up to the environment. *)

Abbreviation handle := nat (only parsing).     (* a TikTokApi object *)
Abbreviation ref := nat (only parsing).        (* a VideoMetadata object on the heap *)

Record SessionArgs : Type := {
  num_sessions : Z;
  headless : bool;
  ms_tokens : pyval;
  cookies : pyval;
  browser : string;
  sleep_after : Z
}.

Record YdlOpts : Type := {
  format : string;
  outtmpl : string;
  quiet : bool;
  no_warnings : bool;
  ignoreerrors : bool;
  noplaylist : bool;
  cookiesfrombrowser : list string;
  noprogress : bool
}.

Inductive call : Type :=
| Mkdir (path : string)                       (* Path(path).mkdir(parents=True, exist_ok=True) *)
| NewTikTokApi                                (* TikTokApi() *)
| CreateSessions (h : handle) (args : SessionArgs)
| CloseSessions (h : handle)
| VideoInfo (h : handle) (url : string)       (* api.video(url=url).info() *)
| GetDownloadPath (video_id : string)         (* file_manager.get_download_path *)
| Mkdtemp                                     (* tempfile.mkdtemp() *)
| YdlDownload (opts : YdlOpts) (urls : list (option string))
| PathExists (path : string)                  (* os.path.exists *)
| Copy2 (src dst : string)                    (* shutil.copy2 *)
| Rmtree (path : string).                     (* shutil.rmtree *)

(** The type of what a call returns.  The download tool runs with
    [ignoreerrors] off, so a failed download is an exception; the code
    does not read the return code. *)
Definition answer (c : call) : Type :=
  match c with
  | NewTikTokApi => handle
  | VideoInfo _ _ => pyval
  | GetDownloadPath _ => string
  | Mkdtemp => string
  | PathExists _ => bool
  | _ => unit
  end.

(** The record of an answer in the trace. *)
Inductive reply : Type :=
| Raised (e : exn)
| Done
| Handle (h : handle)
| Value (v : pyval)
| Text (s : string)
| Flag (b : bool).

Definition reply_of (c : call) : outcome (answer c) -> reply :=
  match c as c0 return outcome (answer c0) -> reply with
  | NewTikTokApi => fun o => match o with Returns h => Handle h | Raises e => Raised e end
  | VideoInfo _ _ => fun o => match o with Returns v => Value v | Raises e => Raised e end
  | GetDownloadPath _ => fun o => match o with Returns p => Text p | Raises e => Raised e end
  | Mkdtemp => fun o => match o with Returns p => Text p | Raises e => Raised e end
  | PathExists _ => fun o => match o with Returns b => Flag b | Raises e => Raised e end
  | _ => fun o => match o with Returns _ => Done | Raises e => Raised e end
  end.

Definition event : Type := call * reply.

Inductive level : Type := Debug | Info | Success | Warning | Error.

(** A formatted log message, kept as the pieces of its f-string. *)
Inductive piece : Type :=
| S_ (s : string)
| V_ (v : pyval)
| N_ (n : nat)
| E_ (e : exn).

(** [os.path.join(a, b)] for a relative [b] (POSIX). *)
Fixpoint ends_with_slash (a : string) : bool :=
  match a with
  | String c EmptyString => Ascii.eqb c "/"
  | String _ a' => ends_with_slash a'
  | EmptyString => false
  end.

Definition path_join (a b : string) : string :=
  match a with
  | EmptyString => b
  | _ => if ends_with_slash a then a ++ b else a ++ "/" ++ b
  end.

(** ** The collector

    A run threads a state: the collector's own fields [api] and
    [initialized], the heap of metadata objects (a record is created
    once, mutated by the downloader and read through the same reference
    afterwards), the outside world, the trace of calls made to the
    collaborators and the log lines written. *)

Section Collector.

Context {W : Type}.
(** How the outside world answers a call. *)
Variable respond : forall c : call, W -> outcome (answer c) * W.
(** [self.tiktok_config]. *)
Variable tiktok_config : TikTokConfig.

Record state : Type := {
  api : option handle;
  initialized : bool;
  heap : list VideoMetadata.t;
  world : W;
  trace : list event;
  logged : list (level * list piece)
}.

Definition M (A : Type) : Type := state -> outcome A * state.

Definition ret {A : Type} (a : A) : M A := fun s => (Returns a, s).

Definition raise {A : Type} (e : exn) : M A := fun s => (Raises e, s).

Definition bind {A B : Type} (m : M A) (k : A -> M B) : M B :=
  fun s =>
    match m s with
    | (Returns a, s') => k a s'
    | (Raises e, s') => (Raises e, s')
    end.

Definition lift {A : Type} (o : outcome A) : M A := fun s => (o, s).

(** [try: body except Exception as e: handler e]. *)
Definition try_except {A : Type} (body : M A) (handler : exn -> M A) : M A :=
  fun s =>
    match body s with
    | (Returns a, s') => (Returns a, s')
    | (Raises e, s') => handler e s'
    end.

(** [try: body finally: final]. *)
Definition try_finally {A : Type} (body : M A) (final : M unit) : M A :=
  fun s =>
    match body s with
    | (r, s') =>
        match final s' with
        | (Returns _, s'') => (r, s'')
        | (Raises e, s'') => (Raises e, s'')
        end
    end.

Definition get_api : M (option handle) := fun s => (Returns (api s), s).

Definition get_initialized : M bool := fun s => (Returns (initialized s), s).

Definition set_api (a : option handle) : M unit := fun s =>
  (Returns tt,
   {| api := a; initialized := initialized s; heap := heap s; world := world s;
      trace := trace s; logged := logged s |}).

Definition set_initialized (b : bool) : M unit := fun s =>
  (Returns tt,
   {| api := api s; initialized := b; heap := heap s; world := world s;
      trace := trace s; logged := logged s |}).

(** A logger call: it writes a line and nothing else. *)
Definition log (l : level) (msg : list piece) : M unit := fun s =>
  (Returns tt,
   {| api := api s; initialized := initialized s; heap := heap s; world := world s;
      trace := trace s; logged := (logged s ++ [(l, msg)])%list |}).

(** A call to a collaborator, recorded in the trace with its answer. *)
Definition ext (c : call) : M (answer c) := fun s =>
  match respond c (world s) with
  | (r, w) =>
      (r,
       {| api := api s; initialized := initialized s; heap := heap s; world := w;
          trace := (trace s ++ [(c, reply_of c r)])%list; logged := logged s |})
  end.

(** [VideoMetadata(...)]: a new object. *)
Definition alloc (m : VideoMetadata.t) : M ref := fun s =>
  (Returns (length (heap s)),
   {| api := api s; initialized := initialized s; heap := (heap s ++ [m])%list;
      world := world s; trace := trace s; logged := logged s |}).

(** Reading an object through a reference.  A reference the program
    holds is always live; the other case is there to make this total. *)
Definition deref (r : ref) : M VideoMetadata.t := fun s =>
  match heap s !! r with
  | Some m => (Returns m, s)
  | None => (Raises (Exception "dangling reference"), s)
  end.

(** [video_metadata.local_path = p], on the object itself. *)
Definition store_local_path (r : ref) (p : string) : M unit := fun s =>
  (Returns tt,
   {| api := api s; initialized := initialized s;
      heap := alter (VideoMetadata.set_local_path p) r (heap s);
      world := world s; trace := trace s; logged := logged s |}).

Declare Scope collector_scope.
Notation "x <- m ;; k" := (bind m (fun x => k))
  (at level 100, m at next level, k at level 200, right associativity) : collector_scope.
Notation "m ;; k" := (bind m (fun _ => k))
  (at level 100, k at level 200, right associativity) : collector_scope.
Local Open Scope collector_scope.

(** The state [__init__] leaves. *)
Definition __init__ (w : W) : state :=
  {| api := None; initialized := false; heap := []; world := w;
     trace := []; logged := [] |}.

Definition cleanup : M unit :=
  try_except
    (a <- get_api ;;
     match a with
     | Some h =>
         ext (CloseSessions h) ;;
         set_api None ;;
         set_initialized false ;;
         log Debug [S_ "TikTok API cleaned up successfully"]
     | None => ret tt
     end)
    (fun e => log Error [S_ "Error during TikTok API cleanup: "; E_ e]).

Definition session_args : SessionArgs :=
  {| num_sessions := 1;
     headless := false;
     ms_tokens :=
       match ms_token tiktok_config with Some t => PList [t] | None => PNone end;
     cookies :=
       match session_id tiktok_config with
       | Some v => PList [PDict [("name", PStr "sessionid"); ("value", v)]]
       | None => PNone
       end;
     browser := "chromium";
     sleep_after := 3 |}.

Definition _initialize_api : M unit :=
  try_except
    (init <- get_initialized ;;
     if negb init then
       log Info [S_ "Initializing TikTokApi v7.1.0"] ;;
       ext (Mkdir "./data/tiktok_api") ;;
       h <- ext NewTikTokApi ;;
       set_api (Some h) ;;
       ext (CreateSessions h session_args) ;;
       set_initialized true ;;
       log Debug [S_ "TikTok API initialized successfully"]
     else ret tt)
    (fun e =>
       log Error [S_ "Error initializing TikTok API: "; E_ e] ;;
       a <- get_api ;;
       match a with Some _ => cleanup | None => ret tt end ;;
       raise e).

(** [d.get(k1, {}).get(k2, default)]. *)
Definition get_nested (d : pyval) (k1 k2 : string) (default : pyval) : outcome pyval :=
  match py_get d k1 (PDict []) with
  | Returns sub => py_get sub k2 default
  | Raises e => Raises e
  end.

(** [if not original_url: original_url = f"https://www.tiktok.com/video/{video_id}"]. *)
Definition url_or_generic (video_id : string) (original_url : option string) : string :=
  match original_url with
  | Some u => if str_truthy u then u else "https://www.tiktok.com/video/" ++ video_id
  | None => "https://www.tiktok.com/video/" ++ video_id
  end.

Definition _get_video_info (video_id : string) (original_url : option string) : M ref :=
  a <- get_api ;;
  match a with
  | None => raise (Exception "TikTok API not initialized")
  | Some h =>
      try_except
        (let original_url := url_or_generic video_id original_url in
         video_data <- ext (VideoInfo h original_url) ;;
         if negb (truthy video_data) then
           raise (Exception ("Failed to get video data for ID: " ++ video_id))
         else
           author <- lift (get_nested video_data "author" "uniqueId" (PStr "")) ;;
           desc <- lift (py_get video_data "desc" (PStr "")) ;;
           create_time <- lift (py_get video_data "createTime" (PInt 0)) ;;
           duration <- lift (get_nested video_data "video" "duration" (PInt 0)) ;;
           height <- lift (get_nested video_data "video" "height" (PInt 0)) ;;
           width <- lift (get_nested video_data "video" "width" (PInt 0)) ;;
           cover <- lift (get_nested video_data "video" "cover" (PStr "")) ;;
           download_url <- lift (get_nested video_data "video" "downloadAddr" (PStr "")) ;;
           play_url <- lift (get_nested video_data "video" "playAddr" (PStr "")) ;;
           music_author <- lift (get_nested video_data "music" "authorName" (PStr "")) ;;
           music_title <- lift (get_nested video_data "music" "title" (PStr "")) ;;
           stats <- lift (py_get video_data "stats" (PDict [])) ;;
           likes <- lift (py_get stats "diggCount" (PInt 0)) ;;
           shares <- lift (py_get stats "shareCount" (PInt 0)) ;;
           comments <- lift (py_get stats "commentCount" (PInt 0)) ;;
           views <- lift (py_get stats "playCount" (PInt 0)) ;;
           alloc {| VideoMetadata.id := video_id;
                    VideoMetadata.author := author;
                    VideoMetadata.desc := desc;
                    VideoMetadata.create_time := create_time;
                    VideoMetadata.duration := duration;
                    VideoMetadata.height := height;
                    VideoMetadata.width := width;
                    VideoMetadata.cover := cover;
                    VideoMetadata.download_url := download_url;
                    VideoMetadata.play_url := play_url;
                    VideoMetadata.music_author := music_author;
                    VideoMetadata.music_title := music_title;
                    VideoMetadata.likes := likes;
                    VideoMetadata.shares := shares;
                    VideoMetadata.comments := comments;
                    VideoMetadata.views := views;
                    VideoMetadata.local_path := None;
                    VideoMetadata.url := Some original_url |})
        (fun e =>
           log Error [S_ "Failed to get video info for "; S_ video_id; S_ ": "; E_ e] ;;
           raise e)
  end.

Definition ydl_opts (temp_output : string) : YdlOpts :=
  {| format := "best";
     outtmpl := temp_output;
     quiet := true;
     no_warnings := true;
     ignoreerrors := false;
     noplaylist := true;
     cookiesfrombrowser := ["chrome"];
     noprogress := true |}.

Definition _download_with_ytdlp (url : option string) (output_path : string) : M bool :=
  temp_dir <- ext Mkdtemp ;;
  let temp_output := path_join temp_dir "video.mp4" in
  try_finally
    (try_except
       (ext (YdlDownload (ydl_opts temp_output) [url]) ;;
        found <- ext (PathExists temp_output) ;;
        if found then
          ext (Copy2 temp_output output_path) ;;
          ret true
        else ret false)
       (fun e =>
          log Error [S_ "yt-dlp download error: "; E_ e] ;;
          ret false))
    (try_except
       (ext (Rmtree temp_dir))
       (fun e => log Warning [S_ "Error removing temporary directory: "; E_ e])).

(** The blocking download runs in an executor and the coroutine awaits
    its result: here it is a call. *)
Definition _download_video (video_metadata : ref) : M (option string) :=
  m <- deref video_metadata ;;
  try_except (A := option string)
    (let video_id := VideoMetadata.id m in
     log Info [S_ "Downloading video "; S_ video_id; S_ " by @"; V_ (VideoMetadata.author m)] ;;
     output_path <- ext (GetDownloadPath video_id) ;;
     let video_url := VideoMetadata.url m in
     success <- _download_with_ytdlp video_url output_path ;;
     if negb success then
       log Error [S_ "Failed to download video "; S_ video_id; S_ " with yt-dlp"] ;;
       ret None
     else
       store_local_path video_metadata output_path ;;
       log Success [S_ "Video "; S_ video_id; S_ " downloaded to "; S_ output_path] ;;
       ret (Some output_path))
    (fun e =>
       log Error [S_ "Error downloading video "; S_ (VideoMetadata.id m); S_ ": "; E_ e] ;;
       ret None).

(** The first loop of [download_videos]: the dict [url_to_id]. *)
Fixpoint map_urls (urls : list string) (url_to_id : list (string * string))
  : list (string * string) :=
  match urls with
  | url :: rest =>
      let url := strip url in
      match _extract_video_id url with
      | Some video_id =>
          if str_truthy video_id then map_urls rest (dict_set url video_id url_to_id)
          else map_urls rest url_to_id
      | None => map_urls rest url_to_id
      end
  | [] => url_to_id
  end.

(** A [VideoMetadata] object is truthy: the class defines neither
    [__bool__] nor [__len__]. *)
Definition object_truthy (_ : ref) : bool := true.

Definition opt_truthy (p : option string) : bool :=
  match p with Some s => str_truthy s | None => false end.

(** The second loop, over [url_to_id.items()]. *)
Fixpoint process (items : list (string * string)) (results : list ref) : M (list ref) :=
  match items with
  | (url, video_id) :: rest =>
      metadata <- _get_video_info video_id (Some url) ;;
      results' <-
        (if object_truthy metadata then
           download_path <- _download_video metadata ;;
           if opt_truthy download_path then ret (results ++ [metadata])%list
           else ret results
         else ret results) ;;
      process rest results'
  | [] => ret results
  end.

(** The [try] block of [download_videos] with its [except] clause. *)
Definition download_videos_guarded (urls : list string) : M (list ref) :=
  try_except
    (_initialize_api ;;
     let url_to_id := map_urls urls [] in
     match url_to_id with
     | [] =>
         log Error [S_ "No valid TikTok URLs provided"] ;;
         ret []
     | _ =>
         log Info [S_ "Extracted "; N_ (length url_to_id); S_ " video IDs from URLs"] ;;
         results <- process url_to_id [] ;;
         log Info [S_ "Successfully downloaded "; N_ (length results); S_ " videos"] ;;
         ret results
     end)
    (fun e =>
       log Error [S_ "Error downloading videos: "; E_ e] ;;
       ret []).

Definition download_videos (urls : list string) : M (list ref) :=
  try_finally (download_videos_guarded urls) cleanup.

(** The records a returned list of references stands for. *)
Definition records (s : state) (results : list ref) : list VideoMetadata.t :=
  omap (fun r => heap s !! r) results.

End Collector.

Arguments state W : clear implicits.
Arguments M W A : clear implicits.

(** ** Scripted environments

    A concrete outside world for running the collector: a counter that
    numbers the client objects and temporary directories, and a script
    that says which calls fail. *)

Module Script.

Record t : Type := {
  sessions_fail : bool;                    (* create_sessions raises *)
  close_fails : bool;                      (* close_sessions raises *)
  info : string -> outcome pyval;          (* the metadata response for a URL *)
  tool_ok : option string -> bool;         (* the download tool succeeds for a URL *)
  file_written : bool                      (* the tool leaves an output file *)
}.

Definition respond (sc : t) (c : call) : nat -> outcome (answer c) * nat :=
  match c as c0 return nat -> outcome (answer c0) * nat with
  | Mkdir _ => fun n => (Returns tt, n)
  | NewTikTokApi => fun n => (Returns n, S n)
  | CreateSessions _ _ => fun n =>
      (if sessions_fail sc then Raises (Foreign "browser did not start") else Returns tt, n)
  | CloseSessions _ => fun n =>
      (if close_fails sc then Raises (Foreign "browser already closed") else Returns tt, n)
  | VideoInfo _ url => fun n => (info sc url, n)
  | GetDownloadPath video_id => fun n => (Returns ("downloads/" ++ video_id ++ ".mp4"), n)
  | Mkdtemp => fun n => (Returns "/tmp/tmpdir", S n)
  | YdlDownload _ urls => fun n =>
      (if forallb (tool_ok sc) urls then Returns tt else Raises (Foreign "DownloadError"), n)
  | PathExists _ => fun n => (Returns (file_written sc), n)
  | Copy2 _ _ => fun n => (Returns tt, n)
  | Rmtree _ => fun n => (Returns tt, n)
  end.

Definition no_config : TikTokConfig := {| ms_token := None; session_id := None |}.

(** A response with an author and nothing else. *)
Definition by_author (name : string) : pyval :=
  PDict [("author", PDict [("uniqueId", PStr name)])].

(** Everything works. *)
Definition fine : t :=
  {| sessions_fail := false; close_fails := false;
     info := fun _ => Returns (by_author "user");
     tool_ok := fun _ => true; file_written := true |}.

(** The browser session cannot be created. *)
Definition no_browser : t :=
  {| sessions_fail := true; close_fails := false;
     info := fun _ => Returns (by_author "user");
     tool_ok := fun _ => true; file_written := true |}.

(** Closing the sessions raises. *)
Definition stuck_browser : t :=
  {| sessions_fail := false; close_fails := true;
     info := fun _ => Returns (by_author "user");
     tool_ok := fun _ => true; file_written := true |}.

(** The metadata request for [u] raises. *)
Definition fetch_fails_for (u : string) : t :=
  {| sessions_fail := false; close_fails := false;
     info := fun url =>
               if String.eqb url u then Raises (Foreign "video unavailable")
               else Returns (by_author "user");
     tool_ok := fun _ => true; file_written := true |}.

(** The download tool fails on [u]. *)
Definition tool_fails_for (u : string) : t :=
  {| sessions_fail := false; close_fails := false;
     info := fun _ => Returns (by_author "user");
     tool_ok := fun url =>
                  match url with Some x => negb (String.eqb x u) | None => false end;
     file_written := true |}.

(** The client answers with an empty dict. *)
Definition empty_response : t :=
  {| sessions_fail := false; close_fails := false;
     info := fun _ => Returns (PDict []);
     tool_ok := fun _ => true; file_written := true |}.

Definition run {A : Type} (sc : t) (m : M nat A) : outcome A * state nat :=
  m (__init__ 0).

(** [download_videos] on a fresh collector, without tokens or cookies. *)
Definition batch (sc : t) (urls : list string) : outcome (list nat) * state nat :=
  run sc (download_videos (respond sc) no_config urls).

Definition url1 : string := "https://www.tiktok.com/@user/video/1".
Definition url2 : string := "https://www.tiktok.com/@user/video/2".
Definition url3 : string := "https://www.tiktok.com/@user/video/3".

(** A record as [_get_video_info] makes it, before any download. *)
Definition fetched_record : VideoMetadata.t :=
  {| VideoMetadata.id := "1";
     VideoMetadata.author := PStr "user";
     VideoMetadata.desc := PStr "";
     VideoMetadata.create_time := PInt 0;
     VideoMetadata.duration := PInt 0;
     VideoMetadata.height := PInt 0;
     VideoMetadata.width := PInt 0;
     VideoMetadata.cover := PStr "";
     VideoMetadata.download_url := PStr "";
     VideoMetadata.play_url := PStr "";
     VideoMetadata.music_author := PStr "";
     VideoMetadata.music_title := PStr "";
     VideoMetadata.likes := PInt 0;
     VideoMetadata.shares := PInt 0;
     VideoMetadata.comments := PInt 0;
     VideoMetadata.views := PInt 0;
     VideoMetadata.local_path := None;
     VideoMetadata.url := Some url1 |}.

(** A collector with a live client and that record on the heap. *)
Definition with_record : state nat :=
  {| api := Some 0; initialized := true; heap := [fetched_record]; world := 1;
     trace := []; logged := [] |}.

End Script.

(** A string of decimal digits. *)
Fixpoint all_digits (s : string) : bool :=
  match s with
  | String c s' => Chars.is_digit c && all_digits s'
  | EmptyString => true
  end.

(** ** Notions the properties are stated with *)

(** The collector holds a client whenever it counts as initialized. *)
Definition consistent {W : Type} (s : state W) : Prop :=
  initialized s = true -> api s <> None.

(** A step of a download that makes it fail: a call that raises, or an
    output file that is not there.  Removing the temporary directory is
    not one: its failure is logged and nothing more. *)
Definition step_failed (ev : event) : bool :=
  match ev with
  | (Rmtree _, _) => false
  | (_, Raised _) => true
  | (PathExists _, Flag false) => true
  | _ => false
  end.

(** A metadata request that failed: the client raised, or what it
    answered is falsy. *)
Definition fetch_failed (ev : event) : bool :=
  match ev with
  | (VideoInfo _ _, Raised _) => true
  | (VideoInfo _ _, Value v) => negb (truthy v)
  | _ => false
  end.

(** The URLs metadata was requested for, in the order of the requests. *)
Definition fetched (t : list event) : list string :=
  omap (fun ev : event => match ev.1 with VideoInfo _ u => Some u | _ => None end) t.

(** The value under a path of keys of a response. *)
Fixpoint at_path (path : list string) (v : pyval) : option pyval :=
  match path with
  | k :: rest =>
      match v with
      | PDict d =>
          match dict_lookup k d with
          | Some x => at_path rest x
          | None => None
          end
      | _ => None
      end
  | [] => Some v
  end.

Definition or_default (path : list string) (default : pyval) (v : pyval) : pyval :=
  match at_path path v with
  | Some x => x
  | None => default
  end.

(** The value under [k], when there is one, is a dict. *)
Definition sub_dict (k : string) (d : list (string * pyval)) : Prop :=
  match dict_lookup k d with
  | Some (PDict _) | None => True
  | Some _ => False
  end.

(** The object behind [r] is the record of [item] (a URL and its ID),
    fetched and downloaded. *)
Definition downloaded {W : Type} (s : state W) (r : ref) (item : string * string) : Prop :=
  exists m p, heap s !! r = Some m /\
    VideoMetadata.url m = Some item.1 /\ VideoMetadata.id m = item.2 /\
    VideoMetadata.local_path m = Some p /\ p <> "".

(** How [cleanup] leaves the collector: without a client, or with the
    client whose [close_sessions] has just raised. *)
Definition released {W : Type} (s : state W) : Prop :=
  (api s = None /\ initialized s = false) \/
  (exists h e, api s = Some h /\ last (trace s) = Some (CloseSessions h, Raised e)).

(** ** The record as a dict *)

(** An [Optional[str]] field as a value. *)
Definition opt_str (o : option string) : pyval :=
  match o with
  | Some s => PStr s
  | None => PNone
  end.

(** [VideoMetadata.to_dict]. *)
Definition to_dict (self : VideoMetadata.t) : list (string * pyval) :=
  [ ("id", PStr (VideoMetadata.id self));
    ("author", VideoMetadata.author self);
    ("desc", VideoMetadata.desc self);
    ("create_time", VideoMetadata.create_time self);
    ("duration", VideoMetadata.duration self);
    ("height", VideoMetadata.height self);
    ("width", VideoMetadata.width self);
    ("cover", VideoMetadata.cover self);
    ("download_url", VideoMetadata.download_url self);
    ("play_url", VideoMetadata.play_url self);
    ("music_author", VideoMetadata.music_author self);
    ("music_title", VideoMetadata.music_title self);
    ("likes", VideoMetadata.likes self);
    ("shares", VideoMetadata.shares self);
    ("comments", VideoMetadata.comments self);
    ("views", VideoMetadata.views self);
    ("local_path", opt_str (VideoMetadata.local_path self));
    ("url", opt_str (VideoMetadata.url self)) ].

(** ** More notions *)

(** Two records that agree on every field but [local_path]. *)
Definition same_metadata (m m' : VideoMetadata.t) : Prop :=
  VideoMetadata.id m' = VideoMetadata.id m /\
  VideoMetadata.author m' = VideoMetadata.author m /\
  VideoMetadata.desc m' = VideoMetadata.desc m /\
  VideoMetadata.create_time m' = VideoMetadata.create_time m /\
  VideoMetadata.duration m' = VideoMetadata.duration m /\
  VideoMetadata.height m' = VideoMetadata.height m /\
  VideoMetadata.width m' = VideoMetadata.width m /\
  VideoMetadata.cover m' = VideoMetadata.cover m /\
  VideoMetadata.download_url m' = VideoMetadata.download_url m /\
  VideoMetadata.play_url m' = VideoMetadata.play_url m /\
  VideoMetadata.music_author m' = VideoMetadata.music_author m /\
  VideoMetadata.music_title m' = VideoMetadata.music_title m /\
  VideoMetadata.likes m' = VideoMetadata.likes m /\
  VideoMetadata.shares m' = VideoMetadata.shares m /\
  VideoMetadata.comments m' = VideoMetadata.comments m /\
  VideoMetadata.views m' = VideoMetadata.views m /\
  VideoMetadata.url m' = VideoMetadata.url m.

(** A call to the scraping client or for its data directory, as opposed
    to the calls made for one item. *)
Definition client_call (ev : event) : bool :=
  match ev.1 with
  | Mkdir _ | NewTikTokApi | CreateSessions _ _ | CloseSessions _ => true
  | _ => false
  end.

(** The IDs a download was started for, in the order of the attempts. *)
Definition attempted (t : list event) : list string :=
  omap (fun ev : event =>
          match ev.1 with GetDownloadPath video_id => Some video_id | _ => None end) t.

(** One of the three calls of an initialization. *)
Definition init_call (config : TikTokConfig) (c : call) : Prop :=
  c = Mkdir "./data/tiktok_api" \/ c = NewTikTokApi \/
  exists h, c = CreateSessions h (session_args config).

(** The response has a dict wherever the mapping looks for one. *)
Definition well_shaped (d : list (string * pyval)) : Prop :=
  sub_dict "author" d /\ sub_dict "video" d /\ sub_dict "music" d /\ sub_dict "stats" d.

(** An outside world in which the client always starts. *)
Definition client_starts {W : Type} (respond : forall c : call, W -> outcome (answer c) * W)
    (config : TikTokConfig) : Prop :=
  (forall w, (respond (Mkdir "./data/tiktok_api") w).1 = Returns tt) /\
  (forall w, exists h, (respond NewTikTokApi w).1 = Returns h) /\
  (forall h w, (respond (CreateSessions h (session_args config)) w).1 = Returns tt).

(** An outside world in which every metadata request is answered with
    a non-empty, well-shaped dict. *)
Definition fetch_reliable {W : Type} (respond : forall c : call, W -> outcome (answer c) * W)
    : Prop :=
  forall h u w, exists d,
    (respond (VideoInfo h u) w).1 = Returns (PDict d) /\ d <> [] /\ well_shaped d.

(** A client that answers with the author as a plain string, where the
    collector expects a dict. *)
Definition flat_author : Script.t :=
  {| Script.sessions_fail := false; Script.close_fails := false;
     Script.info := fun _ => Returns (PDict [("author", PStr "user")]);
     Script.tool_ok := fun _ => true; Script.file_written := true |}.

(** ** Shapes of strings and of patterns *)

(** Every character of the string passes the test. *)
Fixpoint all_chars (ok : ascii -> bool) (s : string) : bool :=
  match s with
  | String c s' => ok c && all_chars ok s'
  | EmptyString => true
  end.

(** The string begins with a character that passes the test. *)
Definition starts_with (ok : ascii -> bool) (s : string) : bool :=
  match s with
  | String c _ => ok c
  | EmptyString => false
  end.

(** The character occurs in the string. *)
Fixpoint has_char (c : ascii) (s : string) : bool :=
  match s with
  | String d s' => Ascii.eqb d c || has_char c s'
  | EmptyString => false
  end.

(** A character of the user name of a profile URL: the set [[\w.-]]. *)
Definition name_char (c : ascii) : bool :=
  Chars.is_word c || Ascii.eqb c "." || Ascii.eqb c "-".

(** The class holds word characters only. *)
Definition word_item (i : Re.item) : bool :=
  match i with
  | Re.IChar c => Chars.is_word c
  | Re.IDigit | Re.IWord => true
  end.

(** Every capturing group of the pattern is one or more word characters. *)
Fixpoint word_groups (r : Re.regex) : bool :=
  match r with
  | Re.Group (Re.Plus cl) => forallb word_item cl
  | Re.Group _ => false
  | Re.Cat r1 r2 | Re.Alt r1 r2 => word_groups r1 && word_groups r2
  | Re.Opt r1 => word_groups r1
  | _ => true
  end.

(** What a group may hold when it is made of word characters. *)
Definition word_text (cap : option string) : Prop :=
  match cap with
  | Some g => g <> "" /\ all_chars Chars.is_word g = true
  | None => True
  end.

(** The class is the one character [c]. *)
Definition only_char (c : ascii) (cl : list Re.item) : bool :=
  match cl with
  | [Re.IChar d] => Ascii.eqb d c
  | _ => false
  end.

(** Every match of the pattern goes through the character [c]. *)
Fixpoint needs (c : ascii) (r : Re.regex) : bool :=
  match r with
  | Re.Class cl | Re.Plus cl => only_char c cl
  | Re.Cat r1 r2 => needs c r1 || needs c r2
  | Re.Alt r1 r2 => needs c r1 && needs c r2
  | Re.Group r1 => needs c r1
  | Re.Eps | Re.Opt _ => false
  end.

(** The URL shapes the three patterns are written for. *)
Definition scheme (secure : bool) : string :=
  if secure then "https://" else "http://".

Definition profile_url (secure www : bool) (user video_id : string) : string :=
  scheme secure ++ (if www then "www." else "") ++ "tiktok.com/@" ++ user
  ++ "/video/" ++ video_id.

Definition mobile_url (secure m : bool) (video_id : string) : string :=
  scheme secure ++ (if m then "m." else "") ++ "tiktok.com/v/" ++ video_id.

Definition short_url (secure vt : bool) (code : string) : string :=
  scheme secure ++ (if vt then "vt" else "vm") ++ ".tiktok.com/" ++ code.

(** The URL [_get_video_info] makes up when it is given none. *)
Definition generic_url (video_id : string) : string :=
  url_or_generic video_id None.

(** ** Failures and the log *)

Definition exn_eqb (e1 e2 : exn) : bool :=
  match e1, e2 with
  | Exception a, Exception b => String.eqb a b
  | AttributeError a, AttributeError b => String.eqb a b
  | Foreign a, Foreign b => String.eqb a b
  | _, _ => false
  end.

(** The line is a warning or an error whose message has the text of [e]. *)
Definition reports (e : exn) (line : level * list piece) : bool :=
  match line.1 with
  | Warning | Error =>
      existsb (fun p => match p with E_ e' => exn_eqb e' e | _ => false end) line.2
  | _ => false
  end.

Definition all_reported (t : list event) (lines : list (level * list piece)) : bool :=
  forallb (fun ev : event =>
             match ev.2 with
             | Raised e => existsb (reports e) lines
             | _ => true
             end) t.

(** Every call of [t] that raised is reported by a line of [lines]. *)
Definition reported (t : list event) (lines : list (level * list piece)) : Prop :=
  forall c e, (c, Raised e) ∈ t ->
    exists lvl msg, (lvl, msg) ∈ lines /\ (lvl = Warning \/ lvl = Error) /\ E_ e ∈ msg.

(** From [s] to [s'] calls were made and lines were logged, and the
    new lines report every new call that raised. *)
Definition told {W : Type} (s s' : state W) : Prop :=
  exists t lines,
    trace s' = (trace s ++ t)%list /\ logged s' = (logged s ++ lines)%list /\
    reported t lines.

(** ** The teardown of the client, seen from outside *)

(** The calls of an initialization up to the one that raised [e], and
    the client the collector holds at that moment: the one it had
    ([had]) when no client was made, the new one otherwise. *)
Definition failed_init (config : TikTokConfig) (had : option handle) (e : exn)
    (steps : list event) (held : option handle) : Prop :=
  (steps = [(Mkdir "./data/tiktok_api", Raised e)] /\ held = had) \/
  (steps = [(Mkdir "./data/tiktok_api", Done); (NewTikTokApi, Raised e)] /\ held = had) \/
  (exists h,
     steps = [ (Mkdir "./data/tiktok_api", Done); (NewTikTokApi, Handle h);
               (CreateSessions h (session_args config), Raised e) ] /\
     held = Some h).

(** A teardown of the client [held]: [close_sessions] is called on
    it, once, and the collector is left without a client unless that
    call raised; without a client there is nothing to call. *)
Definition torn_down (held : option handle) (closing : list event)
    (kept : option handle) : Prop :=
  match held with
  | Some h =>
      exists rep, closing = [(CloseSessions h, rep)] /\
        kept = match rep with Raised _ => Some h | _ => None end
  | None => closing = [] /\ kept = None
  end.

(** ** The first loop, in the words of the specification *)

(** The list without [x]. *)
Fixpoint without (x : string) (l : list string) : list string :=
  match l with
  | y :: l' => if String.eqb y x then without x l' else y :: without x l'
  | [] => []
  end.

(** Every element once, at its first occurrence. *)
Fixpoint first_occurrences (l : list string) : list string :=
  match l with
  | x :: l' => x :: without x (first_occurrences l')
  | [] => []
  end.

(** The URL has a shape the collector knows. *)
Definition has_id (url : string) : bool :=
  match _extract_video_id url with
  | Some _ => true
  | None => false
  end.

(** The input URLs, trimmed, that have an ID, each one once. *)
Definition resolved_urls (urls : list string) : list string :=
  first_occurrences (List.filter has_id (strip <$> urls)).

(** ** The videos a call has saved *)

(** The URLs whose video was copied to a non-empty output path, in the
    order of the copies: a copy belongs to the URL of the metadata
    request before it. *)
Fixpoint delivered_from (current : option string) (t : list event) : list string :=
  match t with
  | ev :: t' =>
      match ev with
      | (VideoInfo _ url, _) => delivered_from (Some url) t'
      | (Copy2 _ dst, Done) =>
          (match current with
           | Some url => if str_truthy dst then [url] else []
           | None => []
           end ++ delivered_from None t')%list
      | _ => delivered_from current t'
      end
  | [] => []
  end.

Definition delivered (t : list event) : list string := delivered_from None t.

(** * Properties *)

(** ** The matcher *)

Module ReFacts.
Import Re.

Lemma head_app_Some {A : Type} (l1 l2 : list A) (x : A) :
  head l1 = Some x -> head (l1 ++ l2)%list = Some x.
Proof. destruct l1 as [|a l1]; [discriminate|exact (fun H => H)]. Qed.

Lemma star_longest cl w rest :
  all_in cl w = true -> stops cl rest = true ->
  head (star cl (w ++ rest)) = Some rest.
Proof.
  intros Hw Hrest. induction w as [|c w IH]; simpl in *.
  - destruct rest as [|c rest]; simpl in *; [reflexivity|].
    destruct (in_class cl c); [discriminate|reflexivity].
  - apply andb_prop in Hw as [Hc Hw]. rewrite Hc.
    apply head_app_Some, IH, Hw.
Qed.

Lemma run_cat_assoc r1 r2 r3 st :
  run (Cat (Cat r1 r2) r3) st = run (Cat r1 (Cat r2 r3)) st.
Proof.
  simpl. induction (run r1 st) as [|e l IH]; simpl; [reflexivity|].
  rewrite flat_map_app, IH. reflexivity.
Qed.

Lemma first_cat_class cl r c s cap :
  in_class cl c = true ->
  head (run (Cat (Class cl) r) (String c s, cap)) = head (run r (s, cap)).
Proof. intros H. simpl. rewrite H. simpl. rewrite app_nil_r. reflexivity. Qed.

Lemma first_cat_opt_taken r1 r2 st e :
  head (run (Cat r1 r2) st) = Some e ->
  head (run (Cat (Opt r1) r2) st) = Some e.
Proof.
  simpl. intros H. rewrite flat_map_app. apply head_app_Some, H.
Qed.

Lemma first_plus_longest cl c w rest cap :
  in_class cl c = true -> all_in cl w = true -> stops cl rest = true ->
  head (run (Plus cl) (String c (w ++ rest), cap)) = Some (rest, cap).
Proof.
  intros Hc Hw Hrest. simpl. rewrite Hc.
  pose proof (star_longest cl w rest Hw Hrest) as H.
  destruct (star cl (w ++ rest)) as [|t l]; [discriminate H|].
  injection H as ->. reflexivity.
Qed.

Lemma first_cat_plus cl r c w rest cap e :
  in_class cl c = true -> all_in cl w = true -> stops cl rest = true ->
  head (run r (rest, cap)) = Some e ->
  head (run (Cat (Plus cl) r) (String c (w ++ rest), cap)) = Some e.
Proof.
  intros Hc Hw Hrest He.
  pose proof (first_plus_longest cl c w rest cap Hc Hw Hrest) as H.
  change (run (Cat (Plus cl) r) (String c (w ++ rest), cap))
    with (flat_map (run r) (run (Plus cl) (String c (w ++ rest), cap))).
  destruct (run (Plus cl) (String c (w ++ rest), cap)) as [|e0 l]; [discriminate|].
  simpl in H. injection H as ->. simpl. apply head_app_Some, He.
Qed.

Lemma take_all s : take (String.length s) s = s.
Proof. induction s; simpl; congruence. Qed.

Lemma consumed_all s : consumed s "" = s.
Proof. unfold consumed. simpl. rewrite Nat.sub_0_r. apply take_all. Qed.

Lemma scan_here r s m : match_here r s = Some m -> scan r s = Some m.
Proof. intros H. destruct s; simpl; rewrite H; reflexivity. Qed.

(** Group 1, once set, stays set. *)
Lemma run_keeps r : forall st e, e ∈ run r st -> is_Some st.2 -> is_Some e.2.
Proof.
  induction r as [|cl|r1 IH1 r2 IH2|r1 IH1 r2 IH2|r1 IH1|cl|r1 IH1];
    intros st e He Hst; simpl in He.
  - apply list_elem_of_singleton in He as ->. exact Hst.
  - destruct st as [[|c s] cap]; simpl in *; [by apply elem_of_nil in He|].
    destruct (in_class cl c); [|by apply elem_of_nil in He].
    apply list_elem_of_singleton in He as ->. exact Hst.
  - apply list_elem_of_In, in_flat_map in He as (e1 & H1 & H2).
    apply list_elem_of_In in H1, H2. eauto.
  - apply elem_of_app in He as [He|He]; eauto.
  - apply elem_of_app in He as [He|He]; [eauto|].
    apply list_elem_of_singleton in He as ->. exact Hst.
  - destruct st as [[|c s] cap]; simpl in *; [by apply elem_of_nil in He|].
    destruct (in_class cl c); [|by apply elem_of_nil in He].
    apply list_elem_of_fmap in He as (t & -> & _). exact Hst.
  - apply list_elem_of_fmap in He as (t & -> & _). simpl. eauto.
Qed.

Lemma run_binds r : forall st e, binds r = true -> e ∈ run r st -> is_Some e.2.
Proof.
  induction r as [|cl|r1 IH1 r2 IH2|r1 IH1 r2 IH2|r1 IH1|cl|r1 IH1];
    intros st e Hb He; simpl in Hb, He; try discriminate.
  - apply list_elem_of_In, in_flat_map in He as (e1 & H1 & H2).
    apply list_elem_of_In in H1, H2.
    apply orb_prop in Hb as [Hb|Hb].
    + eapply run_keeps; eauto.
    + eauto.
  - apply andb_prop in Hb as [Hb1 Hb2].
    apply elem_of_app in He as [He|He]; eauto.
  - apply list_elem_of_fmap in He as (t & -> & _). simpl. eauto.
Qed.

Lemma scan_binds r s m : binds r = true -> scan r s = Some m -> is_Some (group1 m).
Proof.
  intros Hb. induction s as [|c s IH]; simpl; unfold match_here.
  - destruct (run r ("", None)) as [|e l] eqn:E; simpl; [discriminate|].
    intros [= <-]. simpl. eapply (run_binds r _ e Hb). rewrite E. left.
  - destruct (run r (String c s, None)) as [|e l] eqn:E; simpl; [exact IH|].
    intros [= <-]. simpl. eapply (run_binds r _ e Hb). rewrite E. left.
Qed.

End ReFacts.

(** ** Extraction of the video ID *)

Section Extraction.
Import Re ReFacts.

Lemma append_empty_r (s : string) : s ++ "" = s.
Proof. induction s as [|c s IH]; [reflexivity|exact (f_equal (String c) IH)]. Qed.

Lemma first_group_plus cl c w cap :
  in_class cl c = true -> all_in cl w = true ->
  head (run (Group (Plus cl)) (String c w, cap)) = Some ("", Some (String c w)).
Proof.
  intros Hc Hw.
  pose proof (first_plus_longest cl c w "" cap Hc Hw eq_refl) as H.
  rewrite append_empty_r in H.
  change (run (Group (Plus cl)) (String c w, cap))
    with (map (fun e : mstate => (e.1, Some (consumed (String c w) e.1)))
            (run (Plus cl) (String c w, cap))).
  destruct (run (Plus cl) (String c w, cap)) as [|e l]; [discriminate H|].
  injection H as ->.
  change (Some ("", Some (consumed (String c w) "")) = Some ("", Some (String c w))).
  rewrite consumed_all. reflexivity.
Qed.

Lemma all_digits_in (s : string) : all_digits s = true -> all_in [IDigit] s = true.
Proof.
  induction s as [|c s IH]; simpl; [reflexivity|].
  intros H. apply andb_prop in H as [Hc Hs].
  rewrite Hc, (IH Hs). reflexivity.
Qed.

Ltac literals :=
  repeat first [ rewrite run_cat_assoc | rewrite first_cat_class by reflexivity ].

(** The first pattern finds the ID of a constructed URL. *)
Lemma search_constructed (c : ascii) (w : string) :
  Chars.is_digit c = true -> all_digits w = true ->
  search "https?://(?:www\.)?tiktok\.com/@[\w.-]+/video/(\d+)"
    (_construct_video_url (String c w))
  = Some {| group1 := Some (String c w) |}.
Proof.
  intros Hc Hw. unfold search.
  set (r := compile _). vm_compute in r. subst r. cbv beta iota.
  apply scan_here. unfold match_here, _construct_video_url.
  cbv [String.append].
  assert (head (run (Group (Plus [IDigit])) (String c w, None))
          = Some ("", Some (String c w))) as Hlast.
  { apply first_group_plus; [simpl; rewrite Hc; reflexivity | by apply all_digits_in]. }
  match goal with |- match ?h with _ => _ end = _ =>
    assert (h = Some ("", Some (String c w))) as ->; [|reflexivity] end.
  literals. apply first_cat_opt_taken. literals.
  apply first_cat_opt_taken. literals.
  apply (first_cat_plus _ _ "p" "laceholder" ("/video/" ++ String c w));
    [reflexivity..|].
  cbv [String.append]. literals. exact Hlast.
Qed.

Lemma patterns_bind (pattern : string) :
  pattern ∈ video_id_patterns ->
  exists r, compile pattern = Some r /\ binds r = true.
Proof.
  unfold video_id_patterns. intros H.
  repeat (apply elem_of_cons in H as [->|H]; [eexists; split; vm_compute; reflexivity|]).
  by apply elem_of_nil in H.
Qed.

Lemma search_sets_group (pattern url : string) (m : Match) :
  pattern ∈ video_id_patterns -> search pattern url = Some m -> is_Some (group1 m).
Proof.
  intros Hp. destruct (patterns_bind pattern Hp) as (r & Hr & Hb).
  unfold search. rewrite Hr. apply scan_binds, Hb.
Qed.

Lemma extract_with_first (patterns : list string) (url : string) :
  (forall pattern m, pattern ∈ patterns -> search pattern url = Some m ->
                     is_Some (group1 m)) ->
  match extract_with patterns url with
  | Some video_id =>
      exists (i : nat) (pattern : string) (m : Match),
        patterns !! i = Some pattern /\
        search pattern url = Some m /\
        group1 m = Some video_id /\
        forall (j : nat) (earlier : string),
          j < i -> patterns !! j = Some earlier -> search earlier url = None
  | None => forall pattern, pattern ∈ patterns -> search pattern url = None
  end.
Proof.
  induction patterns as [|p ps IH]; intros Hset; simpl.
  - intros pattern H. by apply elem_of_nil in H.
  - destruct (search p url) as [m|] eqn:Hm.
    + destruct (Hset p m) as [v Hv]; [left|exact Hm|].
      rewrite Hv. exists 0, p, m. repeat split; try assumption.
      intros j earlier Hj. lia.
    + assert (forall pattern m, pattern ∈ ps -> search pattern url = Some m ->
                                is_Some (group1 m)) as Hset'.
      { intros q m Hq. apply Hset. by right. }
      specialize (IH Hset').
      destruct (extract_with ps url) as [v|].
      * destruct IH as (i & q & m & Hi & Hs & Hg & Hearlier).
        exists (S i), q, m. repeat split; try assumption.
        intros [|j] earlier Hj Hl; simpl in Hl.
        -- congruence.
        -- apply (Hearlier j); [lia|exact Hl].
      * intros q Hq. apply elem_of_cons in Hq as [->|Hq]; [exact Hm|by apply IH].
Qed.

End Extraction.

(** C7.  [_extract_video_id] tries the three patterns in their order.
    When it returns an ID, that ID is group 1 of the match of some
    pattern of the list, and no pattern before that one matches the URL
    (the first pattern that matches decides, whatever a later one would
    capture); when it returns nothing, no pattern of the list matches. *)
Theorem extract_first_match_wins (url : string) :
  match _extract_video_id url with
  | Some video_id =>
      exists (i : nat) (pattern : string) (m : Re.Match),
        video_id_patterns !! i = Some pattern /\
        Re.search pattern url = Some m /\
        Re.group1 m = Some video_id /\
        forall (j : nat) (earlier : string),
          j < i -> video_id_patterns !! j = Some earlier -> Re.search earlier url = None
  | None => forall pattern, pattern ∈ video_id_patterns -> Re.search pattern url = None
  end.
Proof.
  apply extract_with_first. intros pattern m. apply search_sets_group.
Qed.

(** A URL on which the first and the third pattern both match: the first
    one decides, although the third would capture a longer text. *)
Example extract_not_longest :
  let url := "https://www.tiktok.com/@a/video/1 https://vm.tiktok.com/abcdefg" in
  _extract_video_id url = Some "1" /\
  (Re.group1 <$> Re.search "https?://(?:vm|vt)\.tiktok\.com/(\w+)" url) = Some (Some "abcdefg").
Proof. split; vm_compute; reflexivity. Qed.

(** C10.  For a non-empty string of decimal digits, the URL built by
    [_construct_video_url] gives the same string back under
    [_extract_video_id]. *)
Theorem extract_construct_roundtrip (video_id : string) :
  video_id <> "" -> all_digits video_id = true ->
  _extract_video_id (_construct_video_url video_id) = Some video_id.
Proof.
  intros Hne Hd. destruct video_id as [|c w]; [congruence|].
  simpl in Hd. apply andb_prop in Hd as [Hc Hw].
  unfold _extract_video_id, video_id_patterns, extract_with.
  rewrite (search_constructed c w Hc Hw). reflexivity.
Qed.

Lemma extract_construct_roundtrip_witness :
  _extract_video_id (_construct_video_url "1234567890123456789")
  = Some "1234567890123456789".
Proof.
  apply (extract_construct_roundtrip "1234567890123456789"); [discriminate|reflexivity].
Defined.

(** ** The client life cycle *)

Section LifeCycle.
Context {W : Type}.
Variable respond : forall c : call, W -> outcome (answer c) * W.
Variable tiktok_config : TikTokConfig.

(** One step of a symbolic run: the answer to the next call. *)
Ltac answer_next :=
  match goal with
  | |- context [respond ?c ?w] =>
      let r := fresh "r" in
      let w' := fresh "w" in
      let E := fresh "E" in
      destruct (respond c w) as [r w'] eqn:E; destruct r; simpl
  end.

Lemma cleanup_spec (s : state W) :
  exists s', cleanup respond s = (Returns tt, s') /\
    heap s' = heap s /\
    match api s with
    | None => s' = s
    | Some h =>
        exists rep, trace s' = (trace s ++ [(CloseSessions h, rep)])%list /\
          match rep with
          | Raised _ => api s' = Some h /\ initialized s' = initialized s
          | _ => api s' = None /\ initialized s' = false
          end
    end.
Proof.
  unfold cleanup, try_except, bind, get_api, ext, set_api, set_initialized, log, ret.
  destruct s as [a i hp w t lg]; simpl. destruct a as [h|]; simpl.
  - answer_next; eexists; (split; [reflexivity|]); simpl; (split; [reflexivity|]);
      eexists; (split; [reflexivity|]); simpl; auto.
  - eexists; eauto.
Qed.

Lemma initialize_spec (s : state W) :
  exists r s', _initialize_api respond tiktok_config s = (r, s') /\
    heap s' = heap s /\
    (exists t, trace s' = (trace s ++ t)%list /\ fetched t = [] /\
       existsb fetch_failed t = false /\
       (initialized s = false -> exists rep t', t = (Mkdir "./data/tiktok_api", rep) :: t')) /\
    match r with
    | Returns _ => initialized s' = true /\ (consistent s -> api s' <> None)
    | Raises _ =>
        initialized s' = false /\
        (api s' = None \/
         exists h e, api s' = Some h /\ last (trace s') = Some (CloseSessions h, Raised e))
    end.
Proof.
  unfold _initialize_api, cleanup, try_except, bind, get_api, get_initialized, ext,
    set_api, set_initialized, log, ret, raise, consistent.
  destruct s as [a i hp w t lg]; simpl. destruct i; simpl.
  - do 2 eexists. split; [reflexivity|]. simpl. split; [reflexivity|].
    split; [exists []; rewrite app_nil_r; repeat split; discriminate|].
    split; [reflexivity|]. auto.
  - repeat answer_next; try (destruct a as [h0|]; simpl; try answer_next);
      (do 2 eexists; split; [reflexivity|]; simpl; split; [reflexivity|]; split;
       [ eexists; split; [rewrite <- ?app_assoc; reflexivity|];
         split; [reflexivity|]; split; [reflexivity|intros _; do 2 eexists; reflexivity]
       | split; [reflexivity|];
         first [ intros _; discriminate
               | left; reflexivity
               | right; do 2 eexists; split; [reflexivity|apply last_snoc] ] ]).
Qed.
End LifeCycle.

(** ** One item: the metadata fetch and the download *)

Section Item.
Context {W : Type}.
Variable respond : forall c : call, W -> outcome (answer c) * W.

Local Arguments py_get : simpl never.
Local Arguments get_nested : simpl never.
Local Arguments path_join : simpl never.

Ltac answer_next :=
  match goal with
  | |- context [respond ?c ?w] =>
      let r := fresh "r" in
      let w' := fresh "w" in
      let E := fresh "E" in
      destruct (respond c w) as [r w'] eqn:E; destruct r; simpl
  end.

Ltac field_next :=
  match goal with
  | |- context [get_nested ?v ?k1 ?k2 ?d] => destruct (get_nested v k1 k2 d); simpl
  | |- context [py_get ?v ?k ?d] => destruct (py_get v k d); simpl
  end.

Lemma get_video_info_spec (video_id : string) (original_url : option string)
    (s : state W) :
  exists r s' t, _get_video_info respond video_id original_url s = (r, s') /\
    api s' = api s /\ initialized s' = initialized s /\
    trace s' = (trace s ++ t)%list /\
    match r with
    | Returns new =>
        fetched t = [url_or_generic video_id original_url] /\
        existsb fetch_failed t = false /\
        new = length (heap s) /\
        exists m, heap s' = (heap s ++ [m])%list /\
          VideoMetadata.id m = video_id /\
          VideoMetadata.url m = Some (url_or_generic video_id original_url) /\
          VideoMetadata.local_path m = None
    | Raises _ =>
        heap s' = heap s /\
        (fetched t = [] \/ fetched t = [url_or_generic video_id original_url])
    end.
Proof.
  unfold _get_video_info, try_except, bind, get_api, ext, log, ret, raise, lift, alloc.
  destruct s as [a i hp w t lg]; simpl. destruct a as [h|]; simpl.
  - answer_next.
    + destruct (truthy a) eqn:Htruthy; simpl.
      * repeat field_next;
          (do 3 eexists; split; [reflexivity|]; simpl; do 3 (split; [reflexivity|]);
           first [ split; [reflexivity|];
                   split; [simpl; rewrite Htruthy; reflexivity|];
                   split; [reflexivity|];
                   eexists; split; [reflexivity|]; simpl; auto
                 | split; [reflexivity|]; right; reflexivity ]).
      * do 3 eexists; split; [reflexivity|]; simpl; do 3 (split; [reflexivity|]).
        split; [reflexivity|]. right; reflexivity.
    + do 3 eexists; split; [reflexivity|]; simpl; do 3 (split; [reflexivity|]).
      split; [reflexivity|]. right; reflexivity.
  - exists (Raises (Exception "TikTok API not initialized")). eexists. exists [].
    split; [reflexivity|]. simpl. rewrite app_nil_r.
    repeat (split; [reflexivity|]). left; reflexivity.
Qed.

Lemma download_video_spec (r : ref) (m : VideoMetadata.t) (s : state W) :
  heap s !! r = Some m ->
  exists o s' t, _download_video respond r s = (Returns o, s') /\
    api s' = api s /\ initialized s' = initialized s /\
    trace s' = (trace s ++ t)%list /\ fetched t = [] /\
    existsb fetch_failed t = false /\
    match o with
    | Some p =>
        existsb step_failed t = false /\
        (GetDownloadPath (VideoMetadata.id m), Text p) ∈ t /\
        (exists opts, (YdlDownload opts [VideoMetadata.url m], Done) ∈ t) /\
        heap s' = alter (VideoMetadata.set_local_path p) r (heap s)
    | None => existsb step_failed t = true /\ heap s' = heap s
    end.
Proof.
  intros Hm.
  unfold _download_video, _download_with_ytdlp, try_finally, try_except, bind, deref,
    ext, log, ret, store_local_path.
  destruct s as [a i hp w t lg]; simpl in *. rewrite Hm. simpl.
  repeat first
    [ answer_next
    | match goal with
      | |- context [if ?b then _ else _] => is_var b; destruct b; simpl
      end ];
    (do 3 eexists; split; [reflexivity|]; simpl; do 2 (split; [reflexivity|]);
     split; [rewrite <- ?app_assoc; reflexivity|]; do 2 (split; [reflexivity|]);
     first [ split; reflexivity
           | split; [reflexivity|];
             split; [apply list_elem_of_In; simpl; auto 12|];
             split; [eexists; apply list_elem_of_In; simpl; auto 12|reflexivity] ]).
Qed.
End Item.

(** ** The batch *)

Section Resolve.

Lemma dict_set_keys {A : Type} (k : string) (v : A) (d : list (string * A)) :
  (k ∈ (d.*1) /\ (dict_set k v d).*1 = d.*1) \/
  ((k ∉ d.*1) /\ (dict_set k v d).*1 = (d.*1 ++ [k])%list).
Proof.
  induction d as [|[k' v'] d IH]; csimpl.
  - right. split; [apply not_elem_of_nil|reflexivity].
  - destruct (String.eqb_spec k k') as [->|Hne]; csimpl.
    + left. split; [left|reflexivity].
    + destruct IH as [[Hin ->]|[Hout ->]].
      * left. split; [by right|reflexivity].
      * right. split; [|reflexivity].
        intros Hk. apply elem_of_cons in Hk as [?|?]; congruence.
Qed.

Lemma dict_set_Forall {A : Type} (P : string * A -> Prop) (k : string) (v : A)
    (d : list (string * A)) :
  Forall P d -> P (k, v) -> Forall P (dict_set k v d).
Proof.
  intros Hd Hk. induction Hd as [|[k' v'] d Hx Hd IH]; simpl.
  - by repeat constructor.
  - destruct (String.eqb_spec k k') as [->|Hne]; by constructor.
Qed.

Lemma map_urls_keys (urls : list string) :
  forall acc, NoDup acc.*1 ->
    exists ks, (map_urls urls acc).*1 = (acc.*1 ++ ks)%list /\
      ks `sublist_of` (strip <$> urls) /\ NoDup (acc.*1 ++ ks).
Proof.
  induction urls as [|url rest IH]; intros acc Hnd; simpl.
  - exists []. rewrite app_nil_r. by repeat split.
  - destruct (_extract_video_id (strip url)) as [video_id|];
      [destruct (str_truthy video_id)|].
    + destruct (dict_set_keys (strip url) video_id acc) as [[Hin Hk]|[Hout Hk]].
      * destruct (IH (dict_set (strip url) video_id acc)) as (ks & E & Hs & Hn);
          [by rewrite Hk|].
        rewrite Hk in E, Hn. exists ks. repeat split; try assumption.
        by apply sublist_cons.
      * destruct (IH (dict_set (strip url) video_id acc)) as (ks & E & Hs & Hn).
        { rewrite Hk. apply NoDup_app. repeat split; try assumption.
          - intros x Hx Hx'. apply list_elem_of_singleton in Hx' as ->. contradiction.
          - apply NoDup_singleton. }
        rewrite Hk, <- app_assoc in E, Hn. exists (strip url :: ks).
        repeat split; try assumption. by apply sublist_skip.
    + destruct (IH acc Hnd) as (ks & E & Hs & Hn).
      exists ks. repeat split; try assumption. by apply sublist_cons.
    + destruct (IH acc Hnd) as (ks & E & Hs & Hn).
      exists ks. repeat split; try assumption. by apply sublist_cons.
Qed.

Lemma map_urls_ids (urls : list string) :
  forall acc,
    Forall (fun it : string * string => _extract_video_id it.1 = Some it.2) acc ->
    Forall (fun it : string * string => _extract_video_id it.1 = Some it.2)
      (map_urls urls acc).
Proof.
  induction urls as [|url rest IH]; intros acc Hacc; simpl; [exact Hacc|].
  destruct (_extract_video_id (strip url)) as [video_id|] eqn:E;
    [destruct (str_truthy video_id)|]; auto.
  apply IH, dict_set_Forall; assumption.
Qed.

Lemma extract_nonempty (url video_id : string) :
  _extract_video_id url = Some video_id -> str_truthy url = true.
Proof. destruct url; [vm_compute; discriminate|reflexivity]. Qed.

(** What the first loop of [download_videos] leaves in [url_to_id]. *)
Lemma map_urls_spec (urls : list string) :
  (map_urls urls []).*1 `sublist_of` (strip <$> urls) /\
  NoDup (map_urls urls []).*1 /\
  Forall (fun it : string * string =>
            _extract_video_id it.1 = Some it.2 /\ str_truthy it.1 = true)
    (map_urls urls []).
Proof.
  destruct (map_urls_keys urls [] (NoDup_nil_2)) as (ks & E & Hs & Hn).
  simpl in E, Hn. rewrite E. repeat split; try assumption.
  eapply Forall_impl; [apply (map_urls_ids urls []); constructor|].
  intros [u v] H. split; [exact H|]. by apply extract_nonempty in H.
Qed.

End Resolve.

Section Batch.
Context {W : Type}.
Variable respond : forall c : call, W -> outcome (answer c) * W.
Variable tiktok_config : TikTokConfig.

Lemma downloaded_later (s s' : state W) (r : ref) (item : string * string) :
  heap s `prefix_of` heap s' -> downloaded s r item -> downloaded s' r item.
Proof.
  intros Hp (m & p & Hm & H). exists m, p. split; [|exact H].
  eapply prefix_lookup_Some; eassumption.
Qed.

(** The second loop.  It changes neither the client nor the objects
    that were there before; it requests metadata for the items in
    their order, up to the one whose fetch raises if there is one;
    and what it adds to [results] are records of items, in the order
    of the items, each with its download done. *)
Lemma process_spec (items : list (string * string)) :
  forall (acc : list ref) (s : state W),
    Forall (fun it : string * string => str_truthy it.1 = true) items ->
    exists r s' t, process respond items acc s = (r, s') /\
      api s' = api s /\ initialized s' = initialized s /\
      heap s `prefix_of` heap s' /\
      trace s' = (trace s ++ t)%list /\ fetched t `prefix_of` items.*1 /\
      match r with
      | Returns out =>
          existsb fetch_failed t = false /\
          exists news picked, out = (acc ++ news)%list /\
            picked `sublist_of` items /\
            Forall2 (fun r it => length (heap s) <= r /\ downloaded s' r it) news picked
      | Raises _ => True
      end.
Proof.
  induction items as [|[url video_id] rest IH]; intros acc s Hkeys.
  - exists (Returns acc), s, []. simpl. rewrite !app_nil_r.
    do 5 (split; [reflexivity|]). split; [apply prefix_nil|]. split; [reflexivity|].
    exists [], []. rewrite app_nil_r. split; [reflexivity|]. split; constructor.
  - destruct (Forall_cons_1 _ _ _ Hkeys) as [Hurl Hrest]. simpl in Hurl.
    assert (url_or_generic video_id (Some url) = url) as Hgen
      by (unfold url_or_generic; rewrite Hurl; reflexivity).
    destruct (get_video_info_spec respond video_id (Some url) s)
      as (r1 & s1 & t1 & E1 & Ha1 & Hi1 & Ht1 & Hr1).
    rewrite Hgen in Hr1.
    simpl process. unfold bind at 1. rewrite E1.
    destruct r1 as [new|e].
    + destruct Hr1 as (Hf1 & Hok1 & -> & m & Hh1 & Hid & Hm_url & Hm_path).
      assert (heap s1 !! length (heap s) = Some m) as Hnew.
      { rewrite Hh1. apply list_lookup_middle. reflexivity. }
      destruct (download_video_spec respond _ m s1 Hnew)
        as (o & s2 & t2 & E2 & Ha2 & Hi2 & Ht2 & Hf2 & Hok2 & Ho).
      unfold object_truthy, bind. rewrite E2. unfold ret.
      assert (heap s `prefix_of` heap s2 /\ length (heap s) <= length (heap s2) /\
              (opt_truthy o = true -> downloaded s2 (length (heap s)) (url, video_id)))
        as (Hp2 & Hlen & Hdone).
      { destruct o as [p|].
        - destruct Ho as (_ & _ & _ & Hh2). rewrite Hh1 in Hh2.
          rewrite alter_app_r_alt, Nat.sub_diag in Hh2 by lia. simpl in Hh2.
          split; [rewrite Hh2; by eexists|].
          split; [rewrite Hh2, length_app; lia|].
          intros Hp. exists (VideoMetadata.set_local_path p m), p.
          split; [rewrite Hh2; apply list_lookup_middle; reflexivity|]. simpl.
          repeat split; try assumption. intros ->. discriminate.
        - destruct Ho as [_ Hh2]. rewrite Hh1 in Hh2.
          split; [rewrite Hh2; by eexists|].
          split; [rewrite Hh2, length_app; lia|]. discriminate. }
      destruct (IH (if opt_truthy o then (acc ++ [length (heap s)])%list else acc)
                  s2 Hrest)
        as (r3 & s3 & t3 & E3 & Ha3 & Hi3 & Hp3 & Ht3 & Hf3 & Hr3).
      exists r3, s3, (t1 ++ t2 ++ t3)%list.
      split; [destruct (opt_truthy o); exact E3|].
      split; [congruence|]. split; [congruence|].
      split; [by etrans|].
      split; [rewrite Ht3, Ht2, Ht1, <- !app_assoc; reflexivity|].
      split.
      { unfold fetched in *. rewrite !omap_app, Hf1, Hf2. simpl.
        apply prefix_cons, Hf3. }
      destruct r3 as [out|]; [|exact I].
      destruct Hr3 as (Hok3 & news & picked & -> & Hsub & Hall).
      split; [by rewrite !existsb_app, Hok1, Hok2, Hok3|].
      assert (Forall2 (fun r it => length (heap s) <= r /\ downloaded s3 r it)
                news picked) as Hall'.
      { eapply Forall2_impl; [exact Hall|]. intros r it [Hle Hd]. split; [lia|exact Hd]. }
      destruct (opt_truthy o).
      * exists (length (heap s) :: news), ((url, video_id) :: picked).
        split; [rewrite <- app_assoc; reflexivity|].
        split; [by apply sublist_skip|].
        constructor; [|exact Hall'].
        split; [lia|]. eapply downloaded_later; [exact Hp3|]. by apply Hdone.
      * exists news, picked. split; [reflexivity|].
        split; [by apply sublist_cons|exact Hall'].
    + destruct Hr1 as [Hh1 Hf1].
      exists (Raises e), s1, t1. do 3 (split; [assumption || reflexivity|]).
      split; [rewrite Hh1; reflexivity|]. split; [assumption|].
      split; [|exact I].
      destruct Hf1 as [->| ->]; [apply prefix_nil|].
      apply prefix_cons, prefix_nil.
Qed.

Local Arguments process : simpl never.

(** The [finally] clause, after the guarded block left [s1]. *)
Lemma finally_cleanup (s s1 : state W) (out : list ref) (t1 : list event)
    (items : list (string * string)) :
  heap s `prefix_of` heap s1 ->
  trace s1 = (trace s ++ t1)%list ->
  fetched t1 `prefix_of` items.*1 ->
  (initialized s = false -> exists rep t', t1 = (Mkdir "./data/tiktok_api", rep) :: t') ->
  (exists picked, picked `sublist_of` items /\
     Forall2 (fun r it => length (heap s) <= r /\ downloaded s1 r it) out picked) ->
  (out <> [] -> existsb fetch_failed t1 = false) ->
  (consistent s -> consistent s1) ->
  exists s' t,
    cleanup respond s1 = (Returns tt, s') /\
    heap s `prefix_of` heap s' /\
    trace s' = (trace s ++ t)%list /\
    fetched t `prefix_of` items.*1 /\
    (initialized s = false -> exists rep t', t = (Mkdir "./data/tiktok_api", rep) :: t') /\
    (exists picked, picked `sublist_of` items /\
       Forall2 (fun r it => length (heap s) <= r /\ downloaded s' r it) out picked) /\
    (out <> [] -> existsb fetch_failed t = false) /\
    (consistent s -> released s').
Proof.
  intros Hheap Htrace Hfetched Hmk (picked & Hsub & Hall) Hok Hcons.
  destruct (cleanup_spec respond s1) as (s' & E & Hh & Hs).
  assert (exists t2, trace s' = (trace s1 ++ t2)%list /\ fetched t2 = [] /\
                     existsb fetch_failed t2 = false /\
                     (consistent s1 -> released s')) as (t2 & Ht2 & Hf2 & Hok2 & Hrel).
  { destruct (api s1) as [h|] eqn:Ha.
    - destruct Hs as (rep & Ht & Hrep). exists [(CloseSessions h, rep)].
      do 3 (split; [assumption || reflexivity|]). intros _.
      destruct rep; try (left; exact Hrep).
      right. exists h, e. split; [apply Hrep|]. rewrite Ht. apply last_snoc.
    - subst s'. exists []. rewrite app_nil_r.
      do 3 (split; [reflexivity|]). intros Hc.
      left. split; [exact Ha|]. destruct (initialized s1) eqn:Hi; [|reflexivity].
      exfalso. by apply Hc. }
  exists s', (t1 ++ t2)%list.
  split; [exact E|]. split; [by rewrite Hh|].
  split; [rewrite Ht2, Htrace, app_assoc; reflexivity|].
  split; [unfold fetched in *; by rewrite omap_app, Hf2, app_nil_r|].
  split.
  { intros Hi. destruct (Hmk Hi) as (rep & t' & ->). by exists rep, (t' ++ t2)%list. }
  split; [|split; [|by auto]].
  - exists picked. split; [exact Hsub|].
    eapply Forall2_impl; [exact Hall|]. intros r it [Hle (m & p & Hm & Hrest)].
    split; [exact Hle|]. exists m, p. by rewrite Hh.
  - intros Hout. by rewrite existsb_app, (Hok Hout), Hok2.
Qed.

(** The batch operation as a whole. *)
Lemma download_videos_spec (urls : list string) (s : state W) :
  exists out s' t,
    download_videos respond tiktok_config urls s = (Returns out, s') /\
    heap s `prefix_of` heap s' /\
    trace s' = (trace s ++ t)%list /\
    fetched t `prefix_of` (map_urls urls []).*1 /\
    (initialized s = false -> exists rep t', t = (Mkdir "./data/tiktok_api", rep) :: t') /\
    (exists picked, picked `sublist_of` map_urls urls [] /\
       Forall2 (fun r it => length (heap s) <= r /\ downloaded s' r it) out picked) /\
    (out <> [] -> existsb fetch_failed t = false) /\
    (consistent s -> released s').
Proof.
  assert (forall (s1 : state W) (out : list ref) (t1 : list event),
    download_videos_guarded respond tiktok_config urls s = (Returns out, s1) ->
    heap s `prefix_of` heap s1 ->
    trace s1 = (trace s ++ t1)%list ->
    fetched t1 `prefix_of` (map_urls urls []).*1 ->
    (initialized s = false -> exists rep t', t1 = (Mkdir "./data/tiktok_api", rep) :: t') ->
    (exists picked, picked `sublist_of` map_urls urls [] /\
       Forall2 (fun r it => length (heap s) <= r /\ downloaded s1 r it) out picked) ->
    (out <> [] -> existsb fetch_failed t1 = false) ->
    (consistent s -> consistent s1) ->
    exists out s' t,
      download_videos respond tiktok_config urls s = (Returns out, s') /\
      heap s `prefix_of` heap s' /\
      trace s' = (trace s ++ t)%list /\
      fetched t `prefix_of` (map_urls urls []).*1 /\
      (initialized s = false -> exists rep t', t = (Mkdir "./data/tiktok_api", rep) :: t') /\
      (exists picked, picked `sublist_of` map_urls urls [] /\
         Forall2 (fun r it => length (heap s) <= r /\ downloaded s' r it) out picked) /\
      (out <> [] -> existsb fetch_failed t = false) /\
      (consistent s -> released s')) as Hfinish.
  { intros s1 out t1 E H1 H2 H3 H4 H5 H6 H7.
    destruct (finally_cleanup s s1 out t1 _ H1 H2 H3 H4 H5 H6 H7) as (s' & t & Ec & H).
    exists out, s', t. split; [|exact H].
    unfold download_videos, try_finally. rewrite E, Ec. reflexivity. }
  assert (exists picked : list (string * string),
            picked `sublist_of` map_urls urls [] /\
            forall s1 : state W,
              Forall2 (fun r it => length (heap s) <= r /\ downloaded s1 r it) [] picked)
    as Hnone.
  { exists []. split; [apply sublist_nil_l|]. intros s1. constructor. }
  destruct Hnone as (nothing & Hnothing & Hnone).
  destruct (initialize_spec respond tiktok_config s)
    as (r0 & s0 & E0 & Hh0 & (t0 & Ht0 & Hf0 & Hok0 & Hmk) & Hr0).
  destruct r0 as [[]|e0].
  - destruct Hr0 as [Hi0 Ha0].
    destruct (map_urls_spec urls) as (_ & _ & Hitems).
    destruct (map_urls urls []) as [|it items] eqn:Em.
    + eapply (Hfinish _ [] t0).
      * unfold download_videos_guarded, try_except, bind. rewrite E0, Em. reflexivity.
      * simpl. by rewrite Hh0.
      * exact Ht0.
      * rewrite Hf0. apply prefix_nil.
      * exact Hmk.
      * eauto.
      * congruence.
      * intros Hc _. simpl. by apply Ha0.
    + assert (Forall (fun it : string * string => str_truthy it.1 = true) (it :: items))
        as Hkeys.
      { eapply Forall_impl; [exact Hitems|]. by intros ? [_ ?]. }
      destruct (process_spec (it :: items) []
                  (log Info [S_ "Extracted "; N_ (length (it :: items));
                             S_ " video IDs from URLs"] s0).2 Hkeys)
        as (r3 & s3 & t3 & E3 & Ha3 & Hi3 & Hp3 & Ht3 & Hf3 & Hr3).
      simpl in E3, Ha3, Hi3, Hp3, Ht3, Hr3.
      destruct r3 as [out|e].
      * destruct Hr3 as (Hok3 & news & picked & -> & Hsub & Hall). simpl in Hall.
        eapply (Hfinish
                  (log Info [S_ "Successfully downloaded "; N_ (length news);
                             S_ " videos"] s3).2 news (t0 ++ t3)%list).
        -- unfold download_videos_guarded, try_except, bind.
           rewrite E0, Em. simpl. rewrite E3. reflexivity.
        -- simpl. by rewrite <- Hh0.
        -- simpl. rewrite Ht3, Ht0, app_assoc. reflexivity.
        -- unfold fetched in *. by rewrite omap_app, Hf0.
        -- intros Hi. destruct (Hmk Hi) as (rep & t' & ->). by exists rep, (t' ++ t3)%list.
        -- exists picked. split; [exact Hsub|].
           eapply Forall2_impl; [exact Hall|]. intros r x [Hle Hd].
           split; [by rewrite <- Hh0|exact Hd].
        -- intros _. by rewrite existsb_app, Hok0, Hok3.
        -- intros Hc _. simpl. rewrite Ha3. by apply Ha0.
      * eapply (Hfinish
                  (log Error [S_ "Error downloading videos: "; E_ e] s3).2 []
                  (t0 ++ t3)%list).
        -- unfold download_videos_guarded, try_except, bind.
           rewrite E0, Em. simpl. rewrite E3. reflexivity.
        -- simpl. by rewrite <- Hh0.
        -- simpl. rewrite Ht3, Ht0, app_assoc. reflexivity.
        -- unfold fetched in *. by rewrite omap_app, Hf0.
        -- intros Hi. destruct (Hmk Hi) as (rep & t' & ->). by exists rep, (t' ++ t3)%list.
        -- eauto.
        -- congruence.
        -- intros Hc _. simpl. rewrite Ha3. by apply Ha0.
  - destruct Hr0 as [Hi0 Ha0].
    eapply (Hfinish (log Error [S_ "Error downloading videos: "; E_ e0] s0).2 [] t0).
    + unfold download_videos_guarded, try_except, bind. rewrite E0. reflexivity.
    + simpl. by rewrite Hh0.
    + exact Ht0.
    + rewrite Hf0. apply prefix_nil.
    + exact Hmk.
    + eauto.
    + congruence.
    + intros _ Hi. simpl in Hi. congruence.
Qed.
End Batch.

(** ** The contract of [download_videos] *)

Section Contract.
Context {W : Type}.
Variable respond : forall c : call, W -> outcome (answer c) * W.
Variable tiktok_config : TikTokConfig.

(** The records behind references that are all downloaded items. *)
Lemma records_downloaded (s : state W) (out : list ref) (picked : list (string * string))
    (n : nat) :
  Forall2 (fun r it => n <= r /\ downloaded s r it) out picked ->
  length (records s out) = length out /\
  VideoMetadata.url <$> records s out = Some <$> picked.*1 /\
  VideoMetadata.id <$> records s out = picked.*2 /\
  Forall (fun m => exists p, VideoMetadata.local_path m = Some p /\ p <> "")
    (records s out).
Proof.
  unfold records.
  induction 1 as [|r it out picked [_ (m & p & Hm & Hu & Hi & Hp & Hne)] _ IH]; csimpl.
  - repeat split; constructor.
  - destruct IH as (IH1 & IH2 & IH3 & IH4). rewrite Hm. csimpl.
    rewrite IH1, IH2, IH3, Hu, Hi. repeat split; try reflexivity.
    constructor; [by exists p|exact IH4].
Qed.

Lemma map_urls_length (urls : list string) :
  length (map_urls urls []) <= length urls.
Proof.
  destruct (map_urls_spec urls) as (Hsub & _ & _).
  apply sublist_length in Hsub. by rewrite !length_fmap in Hsub.
Qed.

(** C3.  [download_videos] returns a list no longer than the list of
    input URLs, and every record of it has [local_path] set to a
    non-empty path.  The download step sets [local_path] exactly
    when it succeeds: on a record without [local_path], what
    [_download_video] returns is what [local_path] holds afterwards. *)
Theorem result_records_have_local_path (urls : list string) (s : state W) :
  (exists out s',
     download_videos respond tiktok_config urls s = (Returns out, s') /\
     length (records s' out) = length out /\
     length out <= length urls /\
     Forall (fun m => exists p, VideoMetadata.local_path m = Some p /\ p <> "")
       (records s' out)) /\
  (forall (r : ref) (m : VideoMetadata.t),
     heap s !! r = Some m -> VideoMetadata.local_path m = None ->
     exists o s',
       _download_video respond r s = (Returns o, s') /\
       VideoMetadata.local_path <$> (heap s' !! r) = Some o).
Proof.
  split.
  - destruct (download_videos_spec respond tiktok_config urls s)
      as (out & s' & t & E & _ & _ & _ & _ & (picked & Hsub & Hall) & _ & _).
    exists out, s'. split; [exact E|].
    destruct (records_downloaded s' out picked _ Hall) as (Hlen & _ & _ & Hpaths).
    split; [exact Hlen|]. split; [|exact Hpaths].
    assert (length out = length picked) as -> by (eapply Forall2_length; exact Hall).
    etrans; [apply sublist_length, Hsub|apply map_urls_length].
  - intros r m Hm Hnone.
    destruct (download_video_spec respond r m s Hm)
      as (o & s' & t & E & _ & _ & _ & _ & _ & Ho).
    exists o, s'. split; [exact E|].
    destruct o as [p|].
    + destruct Ho as (_ & _ & _ & Hh). rewrite Hh, list_lookup_alter_eq, Hm.
      reflexivity.
    + destruct Ho as [_ Hh]. rewrite Hh, Hm. simpl. by rewrite Hnone.
Qed.

(** What a failed metadata request does to a batch, whatever the
    batch: once a request has raised or was answered with a falsy
    response, the call returns the empty list. *)
Lemma fetch_failure_empties_result (urls : list string) (s : state W) :
  exists out s' t,
    download_videos respond tiktok_config urls s = (Returns out, s') /\
    trace s' = (trace s ++ t)%list /\
    (existsb fetch_failed t = true -> out = []).
Proof.
  destruct (download_videos_spec respond tiktok_config urls s)
    as (out & s' & t & E & _ & Ht & _ & _ & _ & Hok & _).
  exists out, s', t. do 2 (split; [assumption|]).
  intros Hfailed. destruct out as [|r out]; [reflexivity|].
  rewrite Hok in Hfailed; discriminate.
Qed.

(** The invariant of the collector's fields holds after [__init__] and
    after every call of [download_videos]. *)
Lemma init_consistent (w : W) : consistent (__init__ w).
Proof. intros H. discriminate H. Qed.

Lemma cleanup_consistent (s : state W) :
  consistent s -> consistent (cleanup respond s).2.
Proof.
  intros Hc. destruct (cleanup_spec respond s) as (s' & E & _ & Hs).
  rewrite E. simpl. destruct (api s) as [h|] eqn:Ha; [|by subst s'].
  destruct Hs as (rep & _ & Hrep). intros Hi.
  destruct rep; destruct Hrep; congruence.
Qed.

Lemma download_videos_consistent (urls : list string) (s : state W) :
  consistent s -> consistent (download_videos respond tiktok_config urls s).2.
Proof.
  intros Hc.
  destruct (download_videos_spec respond tiktok_config urls s)
    as (out & s' & t & E & _ & _ & _ & _ & _ & _ & Hrel).
  rewrite E. simpl. destruct (Hrel Hc) as [[_ Hi]|(h & e & Ha & _)]; intros H; congruence.
Qed.

Lemma py_get_dict (d : list (string * pyval)) (k : string) (default : pyval) :
  py_get (PDict d) k default = Returns (or_default [k] default (PDict d)).
Proof.
  unfold py_get, or_default. simpl. by destruct (dict_lookup k d).
Qed.

Lemma get_nested_dict (d : list (string * pyval)) (k1 k2 : string) (default : pyval) :
  sub_dict k1 d ->
  get_nested (PDict d) k1 k2 default = Returns (or_default [k1; k2] default (PDict d)).
Proof.
  unfold get_nested, py_get, or_default, sub_dict. simpl.
  destruct (dict_lookup k1 d) as [[]|]; try contradiction; intros _; simpl.
  - by destruct (dict_lookup k2 d0).
  - reflexivity.
Qed.

Lemma py_get_sub (d : list (string * pyval)) (k1 k2 : string) (default : pyval) :
  sub_dict k1 d ->
  py_get (or_default [k1] (PDict []) (PDict d)) k2 default
  = Returns (or_default [k1; k2] default (PDict d)).
Proof.
  unfold py_get, or_default, sub_dict. simpl.
  destruct (dict_lookup k1 d) as [[]|]; try contradiction; intros _; simpl.
  - by destruct (dict_lookup k2 d0).
  - reflexivity.
Qed.

Local Arguments py_get : simpl never.
Local Arguments get_nested : simpl never.
Local Arguments or_default : simpl never.

(** C6.  [_get_video_info] raises when the collector holds no client
    and when the client answers with a falsy response.  On a
    non-empty dict whose [author], [video], [music] and [stats]
    entries, where present, are dicts, it does not raise: it creates
    the record whose fields are the values under the response's key
    paths, with the empty string or zero wherever a key of the path
    is missing. *)
Theorem get_video_info_contract (video_id : string) (original_url : option string)
    (s : state W) :
  (api s = None ->
   _get_video_info respond video_id original_url s
   = (Raises (Exception "TikTok API not initialized"), s)) /\
  (forall (h : handle) (v : pyval) (w : W),
     api s = Some h ->
     respond (VideoInfo h (url_or_generic video_id original_url)) (world s)
     = (Returns v, w) ->
     truthy v = false ->
     exists s',
       _get_video_info respond video_id original_url s
       = (Raises (Exception ("Failed to get video data for ID: " ++ video_id)), s') /\
       heap s' = heap s) /\
  (forall (h : handle) (d : list (string * pyval)) (w : W),
     api s = Some h ->
     respond (VideoInfo h (url_or_generic video_id original_url)) (world s)
     = (Returns (PDict d), w) ->
     d <> [] ->
     sub_dict "author" d -> sub_dict "video" d ->
     sub_dict "music" d -> sub_dict "stats" d ->
     exists s',
       _get_video_info respond video_id original_url s
       = (Returns (length (heap s)), s') /\
       heap s' =
       (heap s ++
        [ {| VideoMetadata.id := video_id;
             VideoMetadata.author := or_default ["author"; "uniqueId"] (PStr "") (PDict d);
             VideoMetadata.desc := or_default ["desc"] (PStr "") (PDict d);
             VideoMetadata.create_time := or_default ["createTime"] (PInt 0) (PDict d);
             VideoMetadata.duration := or_default ["video"; "duration"] (PInt 0) (PDict d);
             VideoMetadata.height := or_default ["video"; "height"] (PInt 0) (PDict d);
             VideoMetadata.width := or_default ["video"; "width"] (PInt 0) (PDict d);
             VideoMetadata.cover := or_default ["video"; "cover"] (PStr "") (PDict d);
             VideoMetadata.download_url :=
               or_default ["video"; "downloadAddr"] (PStr "") (PDict d);
             VideoMetadata.play_url := or_default ["video"; "playAddr"] (PStr "") (PDict d);
             VideoMetadata.music_author :=
               or_default ["music"; "authorName"] (PStr "") (PDict d);
             VideoMetadata.music_title := or_default ["music"; "title"] (PStr "") (PDict d);
             VideoMetadata.likes := or_default ["stats"; "diggCount"] (PInt 0) (PDict d);
             VideoMetadata.shares := or_default ["stats"; "shareCount"] (PInt 0) (PDict d);
             VideoMetadata.comments :=
               or_default ["stats"; "commentCount"] (PInt 0) (PDict d);
             VideoMetadata.views := or_default ["stats"; "playCount"] (PInt 0) (PDict d);
             VideoMetadata.local_path := None;
             VideoMetadata.url := Some (url_or_generic video_id original_url) |} ])%list).
Proof.
  unfold _get_video_info, try_except, bind, get_api, ext, log, ret, raise, lift, alloc.
  repeat split.
  - intros Ha. rewrite Ha. reflexivity.
  - intros h v w Ha Hv Hfalsy. rewrite Ha. simpl. rewrite Hv. simpl. rewrite Hfalsy.
    simpl. eexists. split; reflexivity.
  - intros h d w Ha Hv Hd Hauthor Hvideo Hmusic Hstats.
    rewrite Ha. simpl. rewrite Hv.
    assert (negb (truthy (PDict d)) = false) as ->
      by (destruct d; [contradiction|reflexivity]).
    rewrite !get_nested_dict by assumption. rewrite !py_get_dict. cbv beta iota.
    rewrite !py_get_sub by assumption. cbv beta iota.
    eexists. split; reflexivity.
Qed.

End Contract.

(** ** The contract on scripted runs *)

Section Runs.
Import Script.

(** The example of the specification: one URL of a known shape and one
    string that is no URL give one record, for the ID of the first. *)
Example one_of_two_is_a_url :
  let '(r, s') := batch fine ["https://www.tiktok.com/@user/video/123"; "not a url"] in
  r = Returns [0] /\
  VideoMetadata.id <$> records s' [0] = ["123"] /\
  VideoMetadata.local_path <$> records s' [0] = [Some "downloads/123.mp4"].
Proof. vm_compute. repeat split. Qed.

(** An empty response for the only URL: no record, nothing raised. *)
Example empty_response_gives_nothing :
  (batch empty_response [url1]).1 = Returns [].
Proof. vm_compute. reflexivity. Qed.

(** A download that fails skips its item and no other. *)
Example download_failure_skips_one_item :
  let '(r, s') := batch (tool_fails_for url2) [url1; url2; url3] in
  r = Returns [0; 2] /\
  VideoMetadata.url <$> records s' [0; 2] = [Some url1; Some url3].
Proof. vm_compute. repeat split. Qed.

(** C1, at the failing input.  The batch is three URLs and the
    metadata request for the second one raises.  The first record
    was fetched and downloaded (it is on the heap with its
    [local_path]), yet [download_videos] returns the empty list, and
    the third URL is never requested. *)
Theorem fetch_failure_discards_batch :
  let '(r, s') := batch (fetch_fails_for url2) [url1; url2; url3] in
  r = Returns [] /\
  VideoMetadata.url <$> heap s' = [Some url1] /\
  VideoMetadata.local_path <$> heap s' = [Some "downloads/1.mp4"] /\
  fetched (trace s') = [url1; url2].
Proof. vm_compute. repeat split. Qed.

(** C2 as stated fails: creating the session raises, so
    [_initialize_api] raises, but [download_videos] returns the empty
    list to its caller. *)
Lemma init_failure_is_not_raised :
  (run no_browser (_initialize_api (respond no_browser) no_config)).1
  = Raises (Foreign "browser did not start") /\
  (batch no_browser [url1]).1 = Returns [].
Proof. vm_compute. split; reflexivity. Qed.

(** C4 as stated fails: when [close_sessions] raises, [cleanup] logs
    the error and the collector keeps its client. *)
Lemma client_kept_when_close_raises :
  let s' := (batch stuck_browser [url1]).2 in
  api s' = Some 0 /\ initialized s' = true.
Proof. vm_compute. split; reflexivity. Qed.

Lemma result_records_have_local_path_witness :
  exists o s',
    _download_video (respond fine) 0 with_record = (Returns o, s') /\
    VideoMetadata.local_path <$> (heap s' !! 0) = Some o.
Proof.
  apply (proj2 (result_records_have_local_path (respond fine) no_config [] with_record)
           0 fetched_record); reflexivity.
Defined.

Lemma get_video_info_contract_witness :
  exists s',
    _get_video_info (respond fine) "1" (Some url1) with_record = (Returns 1, s') /\
    heap s' = [fetched_record; fetched_record].
Proof.
  apply (proj2 (proj2 (get_video_info_contract (respond fine) "1" (Some url1) with_record))
           0 [("author", PDict [("uniqueId", PStr "user")])] 1);
    try reflexivity; try exact I.
  discriminate.
Defined.

End Runs.

(** * Further properties of the collector *)

(** ** Initialization and cleanup on their own *)

Section ClientSteps.
Context {W : Type}.
Variable respond : forall c : call, W -> outcome (answer c) * W.
Variable tiktok_config : TikTokConfig.

Ltac answer_next :=
  match goal with
  | |- context [respond ?c ?w] =>
      let r := fresh "r" in
      let w' := fresh "w" in
      let E := fresh "E" in
      destruct (respond c w) as [r w'] eqn:E; destruct r; simpl
  end.

Ltac in_list := apply list_elem_of_In; simpl; auto 12.

(** X1.  What [_initialize_api] raises is what the failing step raised, also
    when closing the half-built client raises in turn; the collector
    is then not initialized, and nothing but the three steps of an
    initialization and at most one [close_sessions] was called. *)
Theorem initialize_raises_the_cause (s s' : state W) (e : exn) :
  _initialize_api respond tiktok_config s = (Raises e, s') ->
  initialized s = false /\ initialized s' = false /\ heap s' = heap s /\
  exists t c,
    trace s' = (trace s ++ t)%list /\
    (c, Raised e) ∈ t /\ init_call tiktok_config c /\
    forallb client_call t = true.
Proof.
  unfold _initialize_api, cleanup, try_except, bind, get_api, get_initialized, ext,
    set_api, set_initialized, log, ret, raise, init_call.
  destruct s as [a i hp w t lg]; simpl. destruct i; simpl; [discriminate|].
  repeat answer_next; try (destruct a as [h0|]; simpl; try answer_next);
    intros H; try discriminate H; injection H as <- <-; simpl;
    (do 3 (split; [reflexivity|]); do 2 eexists;
     split; [rewrite <- ?app_assoc; reflexivity|];
     split; [in_list|]; split; [eauto|reflexivity]).
Qed.

(** X2.  A successful [_initialize_api] on a collector that was not
    initialized makes exactly three calls, in this order: the data
    directory, a new client, one session for it.  The collector then
    holds that client, and initializing again makes no call at all. *)
Theorem initialize_once (s s1 : state W) :
  _initialize_api respond tiktok_config s = (Returns tt, s1) ->
  initialized s1 = true /\
  _initialize_api respond tiktok_config s1 = (Returns tt, s1) /\
  (initialized s = false ->
   exists h,
     api s1 = Some h /\
     trace s1 = (trace s ++ [ (Mkdir "./data/tiktok_api", Done);
                              (NewTikTokApi, Handle h);
                              (CreateSessions h (session_args tiktok_config), Done) ])%list).
Proof.
  unfold _initialize_api, cleanup, try_except, bind, get_api, get_initialized, ext,
    set_api, set_initialized, log, ret, raise.
  destruct s as [a i hp w t lg]; simpl. destruct i; simpl.
  - intros [= <-]. simpl. repeat split. discriminate.
  - repeat answer_next; try (destruct a as [h0|]; simpl; try answer_next);
      intros H; try discriminate H; injection H as <-; simpl.
    all: split; [reflexivity|]; split; [reflexivity|].
    all: intros _; eexists; split; [reflexivity|].
    all: rewrite <- !app_assoc; reflexivity.
Qed.

(** X3.  [cleanup] never raises and touches no record.  It calls
    [close_sessions] when the collector holds a client, once, and makes
    no other call; once it has released the client, a further
    [cleanup] changes nothing. *)
Theorem cleanup_settles (s : state W) :
  exists s1 t,
    cleanup respond s = (Returns tt, s1) /\
    heap s1 = heap s /\
    trace s1 = (trace s ++ t)%list /\
    match api s with
    | Some h => exists rep, t = [(CloseSessions h, rep)]
    | None => t = []
    end /\
    (api s1 = None -> cleanup respond s1 = (Returns tt, s1)).
Proof.
  unfold cleanup, try_except, bind, get_api, ext, set_api, set_initialized, log, ret.
  destruct s as [a i hp w t lg]; simpl. destruct a as [h|]; simpl.
  - answer_next; do 2 eexists; (split; [reflexivity|]); simpl;
      (split; [reflexivity|]); (split; [reflexivity|]);
      (split; [eexists; reflexivity|]); intros H; try discriminate H; reflexivity.
  - exists {| api := None; initialized := i; heap := hp; world := w; trace := t;
              logged := lg |}, [].
    simpl. rewrite app_nil_r. auto.
Qed.

End ClientSteps.

(** ** The steps for one item on their own *)

Section ItemSteps.
Context {W : Type}.
Variable respond : forall c : call, W -> outcome (answer c) * W.

Local Arguments py_get : simpl never.
Local Arguments get_nested : simpl never.
Local Arguments path_join : simpl never.
Local Arguments url_or_generic : simpl never.

Ltac answer_next :=
  match goal with
  | |- context [respond ?c ?w] =>
      let r := fresh "r" in
      let w' := fresh "w" in
      let E := fresh "E" in
      destruct (respond c w) as [r w'] eqn:E; destruct r; simpl
  end.

Ltac field_next :=
  match goal with
  | |- context [get_nested ?v ?k1 ?k2 ?d] => destruct (get_nested v k1 k2 d); simpl
  | |- context [py_get ?v ?k ?d] => destruct (py_get v k d); simpl
  end.

(** X4.  [_download_with_ytdlp] raises only when the temporary directory
    cannot be made, and then nothing else was called.  Otherwise it
    returns, and whatever happened in between, its last call removes
    that directory (an error of the removal is logged only).  It
    returns [True] exactly when the tool ran, the output file was there
    and the copy to [output_path] was made. *)
Theorem ytdlp_always_removes_temp_dir (url : option string) (output_path : string)
    (s : state W) :
  match (respond Mkdtemp (world s)).1 with
  | Raises e =>
      exists s',
        _download_with_ytdlp respond url output_path s = (Raises e, s') /\
        trace s' = (trace s ++ [(Mkdtemp, Raised e)])%list
  | Returns temp_dir =>
      exists ok s' t rep,
        _download_with_ytdlp respond url output_path s = (Returns ok, s') /\
        trace s' = (trace s ++ (Mkdtemp, Text temp_dir) :: t)%list /\
        last t = Some (Rmtree temp_dir, rep) /\
        (ok = true <->
         t = [ (YdlDownload (ydl_opts (path_join temp_dir "video.mp4")) [url], Done);
               (PathExists (path_join temp_dir "video.mp4"), Flag true);
               (Copy2 (path_join temp_dir "video.mp4") output_path, Done);
               (Rmtree temp_dir, rep) ])
  end.
Proof.
  unfold _download_with_ytdlp, try_finally, try_except, bind, ext, log, ret.
  destruct s as [a i hp w t lg]; simpl.
  answer_next; [|eexists; split; reflexivity].
  repeat first
    [ answer_next
    | match goal with
      | |- context [if ?b then _ else _] => is_var b; destruct b; simpl
      end ];
    (do 4 eexists; split; [reflexivity|]; simpl;
     split; [rewrite <- !app_assoc; reflexivity|];
     split; [reflexivity|];
     split; intros H; first [reflexivity | discriminate H]).
Qed.

(** X5.  [_download_video] changes one field of one object: every other
    record is as it was, the record itself keeps all its other fields,
    no record is created, and the client is not touched. *)
Theorem download_touches_local_path_only (r : ref) (m : VideoMetadata.t) (s : state W) :
  heap s !! r = Some m ->
  exists o s',
    _download_video respond r s = (Returns o, s') /\
    api s' = api s /\ initialized s' = initialized s /\
    length (heap s') = length (heap s) /\
    (forall r', r' <> r -> heap s' !! r' = heap s !! r') /\
    exists m', heap s' !! r = Some m' /\ same_metadata m m'.
Proof.
  intros Hm.
  destruct (download_video_spec respond r m s Hm)
    as (o & s' & t & E & Ha & Hi & _ & _ & _ & Ho).
  exists o, s'. do 3 (split; [assumption|]).
  destruct o as [p|].
  - destruct Ho as (_ & _ & _ & ->). split; [apply length_alter|].
    split; [intros r' Hr'; by apply list_lookup_alter_ne|].
    exists (VideoMetadata.set_local_path p m).
    split; [by rewrite list_lookup_alter_eq, Hm|].
    unfold same_metadata. simpl. repeat split.
  - destruct Ho as [_ ->]. split; [reflexivity|]. split; [reflexivity|].
    exists m. split; [exact Hm|]. unfold same_metadata. repeat split.
Qed.

(** X6.  The effects of [_get_video_info]: at most one request to the
    client and no other call; the client and the records that were
    there are untouched.  When it returns, it has created one record,
    the newest one, with the ID and the URL of the request and without
    [local_path]; when it raises, it has created none. *)
Theorem fetch_creates_at_most_one_record (video_id : string)
    (original_url : option string) (s : state W) :
  exists r s' t,
    _get_video_info respond video_id original_url s = (r, s') /\
    api s' = api s /\ initialized s' = initialized s /\
    trace s' = (trace s ++ t)%list /\
    (t = [] \/ exists h rep, t = [(VideoInfo h (url_or_generic video_id original_url), rep)]) /\
    match r with
    | Returns new =>
        new = length (heap s) /\
        exists m, heap s' = (heap s ++ [m])%list /\
          VideoMetadata.id m = video_id /\
          VideoMetadata.url m = Some (url_or_generic video_id original_url) /\
          VideoMetadata.local_path m = None
    | Raises _ => heap s' = heap s
    end.
Proof.
  unfold _get_video_info, try_except, bind, get_api, ext, log, ret, raise, lift, alloc.
  destruct s as [a i hp w t lg]; simpl. destruct a as [h|]; simpl.
  - answer_next; [destruct (truthy a); simpl; repeat field_next|];
      (do 3 eexists; split; [reflexivity|]; simpl; do 3 (split; [reflexivity|]);
       split; [right; do 2 eexists; reflexivity|];
       first [ reflexivity
             | split; [reflexivity|]; eexists; split; [reflexivity|]; simpl; auto ]).
  - exists (Raises (Exception "TikTok API not initialized")). eexists. exists [].
    split; [reflexivity|]. simpl. rewrite app_nil_r. auto 6.
Qed.

End ItemSteps.

(** ** The batch, step by step *)

Section BatchSteps.
Context {W : Type}.
Variable respond : forall c : call, W -> outcome (answer c) * W.
Variable tiktok_config : TikTokConfig.

Local Arguments py_get : simpl never.
Local Arguments get_nested : simpl never.
Local Arguments path_join : simpl never.
Local Arguments url_or_generic : simpl never.
Local Arguments or_default : simpl never.

Ltac answer_next :=
  match goal with
  | |- context [respond ?c ?w] =>
      let r := fresh "r" in
      let w' := fresh "w" in
      let E := fresh "E" in
      destruct (respond c w) as [r w'] eqn:E; destruct r; simpl
  end.

Lemma client_calls_only (t : list event) :
  forallb client_call t = true -> fetched t = [] /\ attempted t = [].
Proof.
  unfold fetched, attempted.
  induction t as [|[c rep] t IH]; csimpl; [auto|].
  intros H. apply andb_prop in H as [Hc Ht]. destruct (IH Ht) as [-> ->].
  unfold client_call in Hc. simpl in Hc. destruct c; try discriminate; auto.
Qed.

Lemma initialize_calls (s : state W) :
  exists r s' t, _initialize_api respond tiktok_config s = (r, s') /\
    heap s' = heap s /\ trace s' = (trace s ++ t)%list /\
    forallb client_call t = true /\
    (initialized s = false -> exists rep t', t = (Mkdir "./data/tiktok_api", rep) :: t').
Proof.
  unfold _initialize_api, cleanup, try_except, bind, get_api, get_initialized, ext,
    set_api, set_initialized, log, ret, raise.
  destruct s as [a i hp w t lg]; simpl. destruct i; simpl.
  - do 2 eexists. exists []. rewrite app_nil_r. repeat split. discriminate.
  - repeat answer_next; try (destruct a as [h0|]; simpl; try answer_next);
      (do 3 eexists; split; [reflexivity|]; simpl; split; [reflexivity|];
       split; [rewrite <- ?app_assoc; reflexivity|];
       split; [reflexivity|intros _; do 2 eexists; reflexivity]).
Qed.

Lemma initialize_starts (s : state W) :
  client_starts respond tiktok_config -> consistent s ->
  exists s' t, _initialize_api respond tiktok_config s = (Returns tt, s') /\
    is_Some (api s') /\ heap s' = heap s /\
    trace s' = (trace s ++ t)%list /\ forallb client_call t = true.
Proof.
  intros (Hmk & Hnew & Hcs) Hc.
  unfold _initialize_api, cleanup, try_except, bind, get_api, get_initialized, ext,
    set_api, set_initialized, log, ret, raise.
  unfold consistent in Hc.
  destruct s as [a i hp w t lg]; simpl in *. destruct i; simpl.
  - eexists. exists []. rewrite app_nil_r. split; [reflexivity|]. simpl.
    split; [|auto]. destruct a; [by eexists|]. exfalso. by apply Hc.
  - specialize (Hmk w).
    destruct (respond (Mkdir "./data/tiktok_api") w) as [r1 w1]. simpl in Hmk. subst r1.
    simpl. destruct (Hnew w1) as [h Hh].
    destruct (respond NewTikTokApi w1) as [r2 w2]. simpl in Hh. subst r2. simpl.
    specialize (Hcs h w2).
    destruct (respond (CreateSessions h (session_args tiktok_config)) w2) as [r3 w3].
    simpl in Hcs. subst r3. simpl.
    do 2 eexists. split; [reflexivity|]. simpl. split; [by eexists|].
    split; [reflexivity|]. split; [rewrite <- !app_assoc; reflexivity|reflexivity].
Qed.

Lemma cleanup_calls (s : state W) :
  exists s' t, cleanup respond s = (Returns tt, s') /\ heap s' = heap s /\
    trace s' = (trace s ++ t)%list /\ forallb client_call t = true.
Proof.
  unfold cleanup, try_except, bind, get_api, ext, set_api, set_initialized, log, ret.
  destruct s as [a i hp w t lg]; simpl. destruct a as [h|]; simpl.
  - answer_next; do 2 eexists; (split; [reflexivity|]); simpl;
      (split; [reflexivity|]); split; reflexivity.
  - eexists. exists []. rewrite app_nil_r. auto.
Qed.

Lemma get_video_info_reliable (video_id : string) (original_url : option string)
    (s : state W) (h : handle) :
  fetch_reliable respond -> api s = Some h ->
  exists s' m v,
    _get_video_info respond video_id original_url s = (Returns (length (heap s)), s') /\
    api s' = api s /\ heap s' = (heap s ++ [m])%list /\
    trace s' = (trace s ++ [(VideoInfo h (url_or_generic video_id original_url), Value v)])%list.
Proof.
  intros Hrel Ha.
  unfold _get_video_info, try_except, bind, get_api, ext, log, ret, raise, lift, alloc.
  rewrite Ha.
  destruct (Hrel h (url_or_generic video_id original_url) (world s))
    as (d & Hd & Hne & Hauthor & Hvideo & Hmusic & Hstats).
  destruct (respond (VideoInfo h (url_or_generic video_id original_url)) (world s))
    as [r w]. simpl in Hd. subst r.
  assert (negb (truthy (PDict d)) = false) as ->
    by (destruct d; [contradiction|reflexivity]).
  rewrite !get_nested_dict by assumption. rewrite !py_get_dict. cbv beta iota.
  rewrite !py_get_sub by assumption. cbv beta iota.
  do 3 eexists. split; [reflexivity|]. simpl. rewrite Ha. repeat split.
Qed.

Lemma download_video_calls (r : ref) (m : VideoMetadata.t) (s : state W) :
  heap s !! r = Some m ->
  exists o s' t, _download_video respond r s = (Returns o, s') /\
    api s' = api s /\
    trace s' = (trace s ++ t)%list /\ fetched t = [] /\
    attempted t = [VideoMetadata.id m].
Proof.
  intros Hm.
  unfold _download_video, _download_with_ytdlp, try_finally, try_except, bind, deref,
    ext, log, ret, store_local_path.
  destruct s as [a i hp w t lg]; simpl in *. rewrite Hm. simpl.
  repeat first
    [ answer_next
    | match goal with
      | |- context [if ?b then _ else _] => is_var b; destruct b; simpl
      end ];
    (do 3 eexists; split; [reflexivity|]; simpl; split; [reflexivity|];
     split; [rewrite <- ?app_assoc; reflexivity|]; split; reflexivity).
Qed.

Lemma map_urls_none (urls : list string) (acc : list (string * string)) :
  Forall (fun u => _extract_video_id (strip u) = None) urls -> map_urls urls acc = acc.
Proof.
  induction 1 as [|u urls Hu _ IH]; simpl; [reflexivity|]. by rewrite Hu.
Qed.

Lemma process_cons (url video_id : string) (rest : list (string * string))
    (acc : list ref) (s : state W) :
  process respond ((url, video_id) :: rest) acc s =
  match _get_video_info respond video_id (Some url) s with
  | (Returns metadata, s1) =>
      match _download_video respond metadata s1 with
      | (Returns download_path, s2) =>
          process respond rest
            (if opt_truthy download_path then (acc ++ [metadata])%list else acc) s2
      | (Raises e, s2) => (Raises e, s2)
      end
  | (Raises e, s1) => (Raises e, s1)
  end.
Proof.
  simpl process. unfold bind at 1.
  destruct (_get_video_info respond video_id (Some url) s) as [[metadata|e] s1];
    [|reflexivity].
  unfold object_truthy, bind.
  destruct (_download_video respond metadata s1) as [[download_path|e] s2];
    [|reflexivity].
  unfold ret. by destruct (opt_truthy download_path).
Qed.

Local Arguments process : simpl never.

(** When the second loop runs to its end, it has requested metadata for
    every item. *)
Lemma process_complete (items : list (string * string)) :
  forall (acc : list ref) (s : state W) (out : list ref) (s' : state W),
    Forall (fun it : string * string => str_truthy it.1 = true) items ->
    process respond items acc s = (Returns out, s') ->
    exists t, trace s' = (trace s ++ t)%list /\ fetched t = items.*1.
Proof.
  induction items as [|[url video_id] rest IH]; intros acc s out s' Hkeys E.
  - injection E as <- <-. exists []. by rewrite app_nil_r.
  - destruct (Forall_cons_1 _ _ _ Hkeys) as [Hurl Hrest]. simpl in Hurl.
    assert (url_or_generic video_id (Some url) = url) as Hgen
      by (unfold url_or_generic; rewrite Hurl; reflexivity).
    rewrite process_cons in E.
    destruct (get_video_info_spec respond video_id (Some url) s)
      as (r1 & s1 & t1 & E1 & _ & _ & Ht1 & Hr1).
    rewrite Hgen in Hr1. rewrite E1 in E.
    destruct r1 as [new|e]; [|discriminate E].
    destruct Hr1 as (Hf1 & _ & -> & m & Hh1 & _).
    assert (heap s1 !! length (heap s) = Some m) as Hnew.
    { rewrite Hh1. apply list_lookup_middle. reflexivity. }
    destruct (download_video_spec respond _ m s1 Hnew)
      as (o & s2 & t2 & E2 & _ & _ & Ht2 & Hf2 & _).
    rewrite E2 in E.
    destruct (IH _ _ _ _ Hrest E) as (t3 & Ht3 & Hf3).
    exists (t1 ++ t2 ++ t3)%list.
    split; [rewrite Ht3, Ht2, Ht1, <- !app_assoc; reflexivity|].
    unfold fetched in *. by rewrite !omap_app, Hf1, Hf2, Hf3.
Qed.

(** With a client that answers every request, the second loop runs to
    its end whatever the downloads do: every item is fetched, and a
    download is started for every item. *)
Lemma process_reliable (items : list (string * string)) :
  forall (acc : list ref) (s : state W) (h : handle),
    fetch_reliable respond -> api s = Some h ->
    Forall (fun it : string * string => str_truthy it.1 = true) items ->
    exists out s' t, process respond items acc s = (Returns out, s') /\
      api s' = api s /\ trace s' = (trace s ++ t)%list /\
      fetched t = items.*1 /\ attempted t = items.*2.
Proof.
  induction items as [|[url video_id] rest IH]; intros acc s h Hrel Ha Hkeys.
  - exists acc, s, []. by rewrite app_nil_r.
  - destruct (Forall_cons_1 _ _ _ Hkeys) as [Hurl Hrest]. simpl in Hurl.
    assert (url_or_generic video_id (Some url) = url) as Hgen
      by (unfold url_or_generic; rewrite Hurl; reflexivity).
    rewrite process_cons.
    destruct (get_video_info_reliable video_id (Some url) s h Hrel Ha)
      as (s1 & m & v & E1 & Ha1 & Hh1 & Ht1).
    rewrite Hgen in Ht1. rewrite E1.
    assert (heap s1 !! length (heap s) = Some m) as Hnew.
    { rewrite Hh1. apply list_lookup_middle. reflexivity. }
    assert (VideoMetadata.id m = video_id) as Hid.
    { destruct (get_video_info_spec respond video_id (Some url) s)
        as (r1' & s1' & t1' & E1' & _ & _ & _ & Hr1').
      rewrite E1 in E1'. injection E1' as <- <-.
      destruct Hr1' as (_ & _ & _ & m' & Hh1' & Hid' & _).
      rewrite Hh1 in Hh1'. apply app_inv_head in Hh1'. congruence. }
    destruct (download_video_calls _ m s1 Hnew) as (o & s2 & t2 & E2 & Ha2 & Ht2 & Hf2 & Hd2).
    rewrite E2.
    destruct (IH (if opt_truthy o then (acc ++ [length (heap s)])%list else acc) s2 h Hrel)
      as (out & s3 & t3 & E3 & Ha3 & Ht3 & Hf3 & Hd3); [congruence|exact Hrest|].
    exists out, s3, ((VideoInfo h url, Value v) :: t2 ++ t3)%list.
    split; [exact E3|]. split; [congruence|].
    split; [rewrite Ht3, Ht2, Ht1, <- !app_assoc; reflexivity|].
    unfold fetched, attempted in *. csimpl. rewrite !omap_app, Hf2, Hf3, Hd2, Hd3, Hid.
    split; reflexivity.
Qed.

Lemma cleanup_returns (s : state W) :
  cleanup respond s = (Returns tt, (cleanup respond s).2).
Proof. destruct (cleanup_spec respond s) as (s' & -> & _). reflexivity. Qed.

(** [download_videos] by cases: which branch of the guarded block was
    taken decides the result, and [cleanup] runs on what it left. *)
Lemma download_videos_unfold (urls : list string) (s : state W) :
  download_videos respond tiktok_config urls s =
  match _initialize_api respond tiktok_config s with
  | (Raises e, s0) =>
      (Returns [],
       (cleanup respond (log Error [S_ "Error downloading videos: "; E_ e] s0).2).2)
  | (Returns _, s0) =>
      match map_urls urls [] with
      | [] =>
          (Returns [],
           (cleanup respond (log Error [S_ "No valid TikTok URLs provided"] s0).2).2)
      | items =>
          match process respond items []
                  (log Info [S_ "Extracted "; N_ (length items);
                             S_ " video IDs from URLs"] s0).2 with
          | (Returns out, s3) =>
              (Returns out,
               (cleanup respond
                  (log Info [S_ "Successfully downloaded "; N_ (length out);
                             S_ " videos"] s3).2).2)
          | (Raises e, s3) =>
              (Returns [],
               (cleanup respond
                  (log Error [S_ "Error downloading videos: "; E_ e] s3).2).2)
          end
      end
  end.
Proof.
  unfold download_videos, try_finally, download_videos_guarded, try_except, bind.
  destruct (_initialize_api respond tiktok_config s) as [[[]|e0] s0].
  - destruct (map_urls urls []) as [|it items].
    + simpl. rewrite cleanup_returns. reflexivity.
    + simpl.
      match goal with |- context [process respond ?i ?a ?x] =>
        destruct (process respond i a x) as [[out|e] s3] end.
      * simpl. rewrite cleanup_returns. reflexivity.
      * simpl. rewrite cleanup_returns. reflexivity.
  - simpl. rewrite cleanup_returns. reflexivity.
Qed.

End BatchSteps.

(** ** The batch as its caller sees it *)

Section BatchFacts.
Context {W : Type}.
Variable respond : forall c : call, W -> outcome (answer c) * W.
Variable tiktok_config : TikTokConfig.

Lemma downloaded_refs_distinct (s : state W) (out : list ref)
    (picked : list (string * string)) (n : nat) :
  Forall2 (fun r it => n <= r /\ downloaded s r it) out picked ->
  NoDup picked.*1 -> NoDup out.
Proof.
  induction 1 as [|r it out picked [_ Hd] Hall IH]; intros Hnd; [constructor|].
  csimpl in Hnd. apply NoDup_cons in Hnd as [Hnotin Hnd].
  constructor; [|auto].
  intros Hr. apply list_elem_of_lookup in Hr as [i Hi].
  destruct (Forall2_lookup_l _ _ _ _ _ Hall Hi) as (it' & Hit' & _ & Hd').
  apply Hnotin.
  destruct Hd as (m & p & Hm & Hu & _), Hd' as (m' & p' & Hm' & Hu' & _).
  rewrite Hm in Hm'. injection Hm' as <-. rewrite Hu in Hu'. injection Hu' as ->.
  apply list_elem_of_fmap. exists it'. split; [reflexivity|].
  eapply list_elem_of_lookup_2; eassumption.
Qed.

(** X8.  When no input URL has a shape the collector knows (an empty input
    included), [download_videos] returns the empty list without a
    metadata request or a download, and leaves the records alone; yet
    a collector that was not initialized starts its client first: the
    URLs are only looked at after the initialization. *)
Theorem no_valid_url_only_touches_client (urls : list string) (s : state W) :
  Forall (fun u => _extract_video_id (strip u) = None) urls ->
  exists s' t,
    download_videos respond tiktok_config urls s = (Returns [], s') /\
    heap s' = heap s /\
    trace s' = (trace s ++ t)%list /\
    forallb client_call t = true /\
    (initialized s = false -> exists rep t', t = (Mkdir "./data/tiktok_api", rep) :: t').
Proof.
  intros Hnone. rewrite download_videos_unfold, (map_urls_none urls [] Hnone).
  destruct (initialize_calls respond tiktok_config s)
    as (r0 & s0 & t0 & E0 & Hh0 & Ht0 & Hc0 & Hmk).
  rewrite E0.
  assert (forall s1 : state W,
            heap s1 = heap s0 -> trace s1 = trace s0 ->
            exists s' t,
              (Returns (@nil ref), (cleanup respond s1).2) = (Returns [], s') /\
              heap s' = heap s /\
              trace s' = (trace s ++ t)%list /\
              forallb client_call t = true /\
              (initialized s = false ->
               exists rep t', t = (Mkdir "./data/tiktok_api", rep) :: t')) as Hend.
  { intros s1 Hh1 Ht1.
    destruct (cleanup_calls respond s1) as (s' & tc & Ec & Hhc & Htc & Hcc).
    rewrite Ec. exists s', (t0 ++ tc)%list. split; [reflexivity|].
    split; [congruence|].
    split; [rewrite Htc, Ht1, Ht0, app_assoc; reflexivity|].
    split; [by rewrite forallb_app, Hc0, Hcc|].
    intros Hi. destruct (Hmk Hi) as (rep & t' & ->). by exists rep, (t' ++ tc)%list. }
  destruct r0 as [[]|e]; apply Hend; reflexivity.
Qed.

(** X9.  Metadata is requested for URLs of the input only, trimmed, in the
    order of the input and without a gap: the requests of a call are
    an initial segment of the keys of [url_to_id], which are input
    URLs in input order.  When the call returns a record at all, every
    key was requested. *)
Theorem requests_follow_input_order (urls : list string) (s : state W) :
  exists out s' t,
    download_videos respond tiktok_config urls s = (Returns out, s') /\
    trace s' = (trace s ++ t)%list /\
    fetched t `prefix_of` (map_urls urls []).*1 /\
    (map_urls urls []).*1 `sublist_of` (strip <$> urls) /\
    (out <> [] -> fetched t = (map_urls urls []).*1).
Proof.
  destruct (download_videos_spec respond tiktok_config urls s)
    as (out & s' & t & E & _ & Ht & Hf & _ & _ & _ & _).
  destruct (map_urls_spec urls) as (Hsub & _ & Hitems).
  exists out, s', t. do 4 (split; [assumption|]).
  intros Hout. rewrite download_videos_unfold in E.
  destruct (initialize_calls respond tiktok_config s)
    as (r0 & s0 & t0 & E0 & _ & Ht0 & Hc0 & _).
  rewrite E0 in E.
  destruct r0 as [[]|e0]; [|injection E as <- _; congruence].
  destruct (map_urls urls []) as [|it items] eqn:Em; [injection E as <- _; congruence|].
  cbv beta iota zeta in E.
  match type of E with context [process respond ?i ?a ?x] =>
    destruct (process respond i a x) as [[out3|e3] s3] eqn:E3 end;
    [|injection E as <- _; congruence].
  apply process_complete in E3 as (t3 & Ht3 & Hf3).
  2:{ eapply Forall_impl; [exact Hitems|]. by intros ? [_ ?]. }
  injection E as _ <-.
  match type of Ht with context [cleanup respond ?x] =>
    destruct (cleanup_calls respond x) as (sc & tc & Ec & _ & Htc & Hcc) end.
  rewrite Ec in Ht. simpl in Ht, Htc, Ht3.
  rewrite Htc, Ht3, Ht0, <- !app_assoc in Ht. apply app_inv_head in Ht. subst t.
  destruct (client_calls_only t0 Hc0) as [Hf0 _], (client_calls_only tc Hcc) as [Hfc _].
  unfold fetched in *. by rewrite !omap_app, Hf0, Hfc, Hf3, app_nil_r.
Qed.

(** X10.  A failing download stops nothing.  With a client that starts and
    answers every request with a well-shaped response, whatever the
    download tool, the file manager and the file system do, the call
    requests metadata for every key of [url_to_id] and starts a
    download for every one of the IDs, in their order. *)
Theorem download_failures_do_not_stop_the_batch (urls : list string) (s : state W) :
  consistent s -> client_starts respond tiktok_config -> fetch_reliable respond ->
  exists out s' t,
    download_videos respond tiktok_config urls s = (Returns out, s') /\
    trace s' = (trace s ++ t)%list /\
    fetched t = (map_urls urls []).*1 /\
    attempted t = (map_urls urls []).*2.
Proof.
  intros Hc Hstarts Hrel. rewrite download_videos_unfold.
  destruct (initialize_starts respond tiktok_config s Hstarts Hc)
    as (s0 & t0 & E0 & [h Ha0] & _ & Ht0 & Hc0).
  rewrite E0.
  destruct (client_calls_only t0 Hc0) as [Hf0 Hd0].
  destruct (map_urls_spec urls) as (_ & _ & Hitems).
  destruct (map_urls urls []) as [|it items] eqn:Em.
  - match goal with |- context [cleanup respond ?x] =>
      destruct (cleanup_calls respond x) as (sc & tc & Ec & _ & Htc & Hcc) end.
    rewrite Ec. exists [], sc, (t0 ++ tc)%list. split; [reflexivity|].
    simpl in Htc. split; [rewrite Htc, Ht0, app_assoc; reflexivity|].
    destruct (client_calls_only tc Hcc) as [Hfc Hdc].
    unfold fetched, attempted in *. by rewrite !omap_app, Hf0, Hfc, Hd0, Hdc.
  - cbv beta iota zeta.
    match goal with |- context [process respond ?i ?a ?x] =>
      destruct (process_reliable respond i a x h Hrel)
        as (out & s3 & t3 & E3 & _ & Ht3 & Hf3 & Hd3) end.
    { exact Ha0. }
    { eapply Forall_impl; [exact Hitems|]. by intros ? [_ ?]. }
    rewrite E3.
    match goal with |- context [cleanup respond ?x] =>
      destruct (cleanup_calls respond x) as (sc & tc & Ec & _ & Htc & Hcc) end.
    rewrite Ec. exists out, sc, (t0 ++ t3 ++ tc)%list. split; [reflexivity|].
    simpl in Htc, Ht3. split; [rewrite Htc, Ht3, Ht0, <- !app_assoc; reflexivity|].
    destruct (client_calls_only tc Hcc) as [Hfc Hdc].
    unfold fetched, attempted in *.
    by rewrite !omap_app, Hf0, Hfc, Hd0, Hdc, Hf3, Hd3, !app_nil_r.
Qed.

(** X11.  [download_videos] does not touch the records that were there
    before the call, and what it returns are references to objects it
    has created itself, each one once. *)
Theorem results_are_new_records (urls : list string) (s : state W) :
  exists out s',
    download_videos respond tiktok_config urls s = (Returns out, s') /\
    heap s `prefix_of` heap s' /\
    Forall (fun r => length (heap s) <= r < length (heap s')) out /\
    NoDup out.
Proof.
  destruct (download_videos_spec respond tiktok_config urls s)
    as (out & s' & t & E & Hp & _ & _ & _ & (picked & Hsub & Hall) & _ & _).
  exists out, s'. do 2 (split; [assumption|]). split.
  - clear Hsub E. induction Hall as [|r it out picked [Hle (m & p & Hm & _)] _ IH];
      [constructor|]. constructor; [|exact IH].
    split; [exact Hle|]. eapply lookup_lt_Some, Hm.
  - eapply downloaded_refs_distinct; [exact Hall|].
    destruct (map_urls_spec urls) as (_ & Hnd & _).
    apply (sublist_NoDup _ ((map_urls urls []).*1)); [exact Hnd|].
    apply fmap_sublist, Hsub.
Qed.

End BatchFacts.

(** ** Responses of another shape, and the record as a dict *)

Section Responses.
Context {W : Type}.
Variable respond : forall c : call, W -> outcome (answer c) * W.
Variable tiktok_config : TikTokConfig.

(** X7.  A truthy response that is not a dict, or one whose [author],
    [video], [music] or [stats] entry is there and is not a dict,
    makes [_get_video_info] raise an [AttributeError]: the mapping
    calls [get] on it.  No record is created. *)
Theorem malformed_response_raises (video_id : string) (original_url : option string)
    (s : state W) (h : handle) (v : pyval) (w : W) :
  api s = Some h ->
  respond (VideoInfo h (url_or_generic video_id original_url)) (world s) = (Returns v, w) ->
  truthy v = true ->
  match v with PDict d => ~ well_shaped d | _ => True end ->
  exists msg s',
    _get_video_info respond video_id original_url s = (Raises (AttributeError msg), s') /\
    api s' = api s /\ heap s' = heap s.
Proof.
  intros Ha Hv Ht Hbad.
  unfold _get_video_info, try_except, bind, get_api, ext, log, ret, raise, lift, alloc.
  rewrite Ha. simpl. rewrite Hv. simpl. rewrite Ht. simpl.
  destruct v; try discriminate Ht;
    try (do 2 eexists; split; [reflexivity|split; [exact Ha|reflexivity]]).
  revert Hbad. unfold well_shaped, sub_dict, get_nested, py_get.
  destruct (dict_lookup "author" d) as [[]|]; simpl;
    try (intros _; do 2 eexists; split; [reflexivity|split; [exact Ha|reflexivity]]).
  all: destruct (dict_lookup "video" d) as [[]|]; simpl;
    try (intros _; do 2 eexists; split; [reflexivity|split; [exact Ha|reflexivity]]).
  all: destruct (dict_lookup "music" d) as [[]|]; simpl;
    try (intros _; do 2 eexists; split; [reflexivity|split; [exact Ha|reflexivity]]).
  all: destruct (dict_lookup "stats" d) as [[]|]; simpl;
    try (intros _; do 2 eexists; split; [reflexivity|split; [exact Ha|reflexivity]]).
  all: intros Hbad; exfalso; apply Hbad; repeat split.
Qed.

(** X12.  [to_dict] loses nothing: two records with the same dict are the
    same record. *)
Theorem to_dict_injective (m1 m2 : VideoMetadata.t) :
  to_dict m1 = to_dict m2 -> m1 = m2.
Proof.
  destruct m1 as [i1 a1 d1 c1 du1 h1 w1 co1 dl1 p1 ma1 mt1 l1 sh1 cm1 v1 lp1 u1].
  destruct m2 as [i2 a2 d2 c2 du2 h2 w2 co2 dl2 p2 ma2 mt2 l2 sh2 cm2 v2 lp2 u2].
  unfold to_dict. simpl. intros H. simplify_eq.
  destruct lp1, lp2, u1, u2; simplify_eq/=; reflexivity.
Qed.

Lemma records_of_downloaded (s : state W) (out : list ref)
    (picked : list (string * string)) (n : nat) :
  Forall2 (fun r it => n <= r /\ downloaded s r it) out picked ->
  Forall (fun m => exists it p, it ∈ picked /\
            VideoMetadata.url m = Some it.1 /\ VideoMetadata.id m = it.2 /\
            VideoMetadata.local_path m = Some p /\ p <> "")
    (records s out).
Proof.
  unfold records.
  induction 1 as [|r it out picked [_ (m & p & Hm & Hu & Hi & Hp & Hne)] _ IH]; csimpl;
    [constructor|].
  rewrite Hm. csimpl. constructor.
  - exists it, p. split; [left|auto].
  - eapply Forall_impl; [exact IH|]. intros m' (it' & p' & Hin & H).
    exists it', p'. split; [by right|exact H].
Qed.

(** X13.  The dict of every record [download_videos] returns is filled in
    where the dataclass allows [None]: under [local_path] it has a
    non-empty string, under [url] a string, one of the trimmed input
    URLs, and under [id] the ID extracted from that URL. *)
Theorem result_dicts_are_filled (urls : list string) (s : state W) :
  exists out s',
    download_videos respond tiktok_config urls s = (Returns out, s') /\
    Forall (fun m => exists p u video_id,
              dict_lookup "local_path" (to_dict m) = Some (PStr p) /\ p <> "" /\
              dict_lookup "url" (to_dict m) = Some (PStr u) /\
              u ∈ strip <$> urls /\
              _extract_video_id u = Some video_id /\
              dict_lookup "id" (to_dict m) = Some (PStr video_id))
      (records s' out).
Proof.
  destruct (download_videos_spec respond tiktok_config urls s)
    as (out & s' & t & E & _ & _ & _ & _ & (picked & Hsub & Hall) & _ & _).
  exists out, s'. split; [exact E|].
  destruct (map_urls_spec urls) as (Hkeys & _ & Hitems).
  eapply Forall_impl; [exact (records_of_downloaded s' out picked _ Hall)|].
  intros m ([u video_id] & p & Hin & Hu & Hi & Hp & Hne). simpl in Hu, Hi.
  apply (elem_of_sublist _ _ _ Hin) in Hsub.
  pose proof (proj1 (Forall_forall _ _) Hitems _ Hsub) as [Hex _]. simpl in Hex.
  exists p, u, video_id.
  unfold to_dict. simpl. rewrite Hp, Hu, Hi. simpl.
  repeat split; try assumption.
  eapply elem_of_sublist; [|exact Hkeys].
  apply (list_elem_of_fmap_2 fst _ _ Hsub).
Qed.

End Responses.

(** ** The further properties on scripted runs *)

Section MoreRuns.
Import Script.

Lemma initialize_raises_the_cause_witness :
  exists s' : state nat,
    _initialize_api (respond no_browser) no_config (__init__ 0)
    = (Raises (Foreign "browser did not start"), s') /\
    initialized (__init__ 0) = false /\ initialized s' = false /\
    heap s' = heap (__init__ 0) /\
    exists t c,
      trace s' = (trace (__init__ 0) ++ t)%list /\
      (c, Raised (Foreign "browser did not start")) ∈ t /\ init_call no_config c /\
      forallb client_call t = true.
Proof.
  exists (run no_browser (_initialize_api (respond no_browser) no_config)).2.
  split; [vm_compute; reflexivity|].
  apply (initialize_raises_the_cause (respond no_browser) no_config (__init__ 0)).
  vm_compute. reflexivity.
Defined.

Lemma initialize_once_witness :
  exists s1 : state nat,
    _initialize_api (respond fine) no_config (__init__ 0) = (Returns tt, s1) /\
    initialized s1 = true /\
    _initialize_api (respond fine) no_config s1 = (Returns tt, s1) /\
    (initialized (__init__ 0) = false ->
     exists h,
       api s1 = Some h /\
       trace s1 = (trace (__init__ 0) ++
                   [ (Mkdir "./data/tiktok_api", Done);
                     (NewTikTokApi, Handle h);
                     (CreateSessions h (session_args no_config), Done) ])%list).
Proof.
  exists (run fine (_initialize_api (respond fine) no_config)).2.
  split; [vm_compute; reflexivity|].
  apply (initialize_once (respond fine) no_config (__init__ 0)).
  vm_compute. reflexivity.
Defined.

Lemma download_touches_local_path_only_witness :
  exists o s',
    _download_video (respond fine) 0 with_record = (Returns o, s') /\
    api s' = api with_record /\ initialized s' = initialized with_record /\
    length (heap s') = length (heap with_record) /\
    (forall r', r' <> 0 -> heap s' !! r' = heap with_record !! r') /\
    exists m', heap s' !! 0 = Some m' /\ same_metadata fetched_record m'.
Proof.
  apply (download_touches_local_path_only (respond fine) 0 fetched_record with_record).
  reflexivity.
Defined.

Lemma no_valid_url_only_touches_client_witness :
  exists s' t,
    download_videos (respond fine) no_config ["not a url"; "  "] (__init__ 0)
    = (Returns [], s') /\
    heap s' = heap (__init__ 0) /\
    trace s' = (trace (__init__ 0) ++ t)%list /\
    forallb client_call t = true /\
    (initialized (__init__ 0) = false ->
     exists rep t', t = (Mkdir "./data/tiktok_api", rep) :: t').
Proof.
  apply (no_valid_url_only_touches_client (respond fine) no_config ["not a url"; "  "]
           (__init__ 0)).
  repeat constructor.
Defined.

Lemma download_failures_do_not_stop_the_batch_witness :
  exists out s' t,
    download_videos (respond (tool_fails_for url2)) no_config [url1; url2; url3]
      (__init__ 0) = (Returns out, s') /\
    trace s' = (trace (__init__ 0) ++ t)%list /\
    fetched t = (map_urls [url1; url2; url3] []).*1 /\
    attempted t = (map_urls [url1; url2; url3] []).*2.
Proof.
  apply (download_failures_do_not_stop_the_batch (respond (tool_fails_for url2)) no_config
           [url1; url2; url3] (__init__ 0)).
  - intros H. discriminate H.
  - repeat split. intros w. exists w. reflexivity.
  - intros h u w. exists [("author", PDict [("uniqueId", PStr "user")])].
    split; [reflexivity|]. split; [discriminate|]. repeat split.
Defined.

Lemma malformed_response_raises_witness :
  exists msg s',
    _get_video_info (respond flat_author) "1" (Some url1) with_record
    = (Raises (AttributeError msg), s') /\
    api s' = api with_record /\ heap s' = heap with_record.
Proof.
  apply (malformed_response_raises (respond flat_author) "1" (Some url1) with_record 0
           (PDict [("author", PStr "user")]) 1); try reflexivity.
  intros (H & _). exact H.
Defined.

Lemma to_dict_injective_witness :
  VideoMetadata.set_local_path "a.mp4" (VideoMetadata.set_local_path "b.mp4" fetched_record)
  = VideoMetadata.set_local_path "a.mp4" fetched_record.
Proof.
  apply (to_dict_injective
           (VideoMetadata.set_local_path "a.mp4"
              (VideoMetadata.set_local_path "b.mp4" fetched_record))
           (VideoMetadata.set_local_path "a.mp4" fetched_record)).
  reflexivity.
Defined.

End MoreRuns.

(** ** More on the matcher *)

Module ReMore.
Import Re ReFacts.

Lemma string_app_assoc (s t u : string) : (s ++ t) ++ u = s ++ (t ++ u).
Proof. induction s as [|c s IH]; [reflexivity|]. exact (f_equal (String c) IH). Qed.

Lemma string_app_length (s t : string) :
  String.length (s ++ t) = String.length s + String.length t.
Proof. induction s as [|c s IH]; [reflexivity|]. exact (f_equal S IH). Qed.

Lemma take_app (w t : string) : take (String.length w) (w ++ t) = w.
Proof. induction w as [|c w IH]; [by destruct t|]. exact (f_equal (String c) IH). Qed.

Lemma consumed_app (w t : string) : consumed (w ++ t) t = w.
Proof.
  unfold consumed. rewrite string_app_length.
  replace (String.length w + String.length t - String.length t) with (String.length w)
    by lia.
  apply take_app.
Qed.

Lemma has_char_app (c : ascii) (s t : string) :
  has_char c (s ++ t) = has_char c s || has_char c t.
Proof.
  induction s as [|d s IH]; [reflexivity|].
  change (has_char c (String d s ++ t)) with (Ascii.eqb d c || has_char c (s ++ t)).
  rewrite IH. simpl. by rewrite orb_assoc.
Qed.

(** What [star] leaves is a suffix, after characters of the class. *)
Lemma star_suffix cl s t :
  t ∈ star cl s -> exists w, s = w ++ t /\ all_in cl w = true.
Proof.
  induction s as [|c s IH]; simpl.
  - intros H. apply list_elem_of_singleton in H as ->. by exists "".
  - destruct (in_class cl c) eqn:Hc.
    + intros H. apply elem_of_app in H as [H|H].
      * destruct (IH H) as (w & E & Hw). exists (String c w).
        split; [exact (f_equal (String c) E)|]. simpl. by rewrite Hc, Hw.
      * apply list_elem_of_singleton in H as ->. by exists "".
    + intros H. apply list_elem_of_singleton in H as ->. by exists "".
Qed.

(** A match ends in a suffix of where it began. *)
Lemma run_suffix r : forall st e, e ∈ run r st -> exists w, st.1 = w ++ e.1.
Proof.
  induction r as [|cl|r1 IH1 r2 IH2|r1 IH1 r2 IH2|r1 IH1|cl|r1 IH1];
    intros st e He; simpl in He.
  - apply list_elem_of_singleton in He as ->. by exists "".
  - destruct st as [[|c s] cap]; simpl in *; [by apply elem_of_nil in He|].
    destruct (in_class cl c); [|by apply elem_of_nil in He].
    apply list_elem_of_singleton in He as ->. by exists (String c "").
  - apply list_elem_of_In, in_flat_map in He as (e1 & H1 & H2).
    apply list_elem_of_In in H1, H2.
    destruct (IH1 _ _ H1) as [w1 E1], (IH2 _ _ H2) as [w2 E2].
    exists (w1 ++ w2). rewrite E1, E2. symmetry. apply string_app_assoc.
  - apply elem_of_app in He as [He|He]; eauto.
  - apply elem_of_app in He as [He|He]; [eauto|].
    apply list_elem_of_singleton in He as ->. by exists "".
  - destruct st as [[|c s] cap]; simpl in *; [by apply elem_of_nil in He|].
    destruct (in_class cl c); [|by apply elem_of_nil in He].
    apply list_elem_of_fmap in He as (t & -> & Ht).
    destruct (star_suffix _ _ _ Ht) as (w & E & _). exists (String c w).
    exact (f_equal (String c) E).
  - apply list_elem_of_fmap in He as (t & -> & Ht). simpl. eauto.
Qed.

(** *** Groups of word characters *)

Lemma digit_is_word (c : ascii) : Chars.is_digit c = true -> Chars.is_word c = true.
Proof.
  unfold Chars.is_word. intros ->. by rewrite orb_true_r.
Qed.

Lemma class_word cl c :
  forallb word_item cl = true -> in_class cl c = true -> Chars.is_word c = true.
Proof.
  unfold in_class. induction cl as [|i cl IH]; simpl; [discriminate|].
  intros H1 H2. apply andb_prop in H1 as [Hi Hcl].
  apply orb_prop in H2 as [H2|H2]; [|by apply IH].
  destruct i as [d| |]; simpl in *.
  - apply Ascii.eqb_eq in H2 as ->. exact Hi.
  - by apply digit_is_word.
  - exact H2.
Qed.

Lemma all_in_word cl w :
  forallb word_item cl = true -> all_in cl w = true -> all_chars Chars.is_word w = true.
Proof.
  intros Hcl. induction w as [|c w IH]; simpl; [reflexivity|].
  intros H. apply andb_prop in H as [Hc Hw].
  by rewrite (class_word cl c Hcl Hc), IH.
Qed.

Lemma run_word r :
  word_groups r = true ->
  forall st e, e ∈ run r st -> word_text st.2 -> word_text e.2.
Proof.
  induction r as [|cl|r1 IH1 r2 IH2|r1 IH1 r2 IH2|r1 IH1|cl|r1 IH1];
    intros Hr st e He Hst; simpl in Hr, He.
  - apply list_elem_of_singleton in He as ->. exact Hst.
  - destruct st as [[|c s] cap]; simpl in *; [by apply elem_of_nil in He|].
    destruct (in_class cl c); [|by apply elem_of_nil in He].
    apply list_elem_of_singleton in He as ->. exact Hst.
  - apply andb_prop in Hr as [Hr1 Hr2].
    apply list_elem_of_In, in_flat_map in He as (e1 & H1 & H2).
    apply list_elem_of_In in H1, H2. eauto.
  - apply andb_prop in Hr as [Hr1 Hr2].
    apply elem_of_app in He as [He|He]; eauto.
  - apply elem_of_app in He as [He|He]; [eauto|].
    apply list_elem_of_singleton in He as ->. exact Hst.
  - destruct st as [[|c s] cap]; simpl in *; [by apply elem_of_nil in He|].
    destruct (in_class cl c); [|by apply elem_of_nil in He].
    apply list_elem_of_fmap in He as (t & -> & _). exact Hst.
  - destruct r1 as [|cl1|r11 r12|r11 r12|r11|cl|r11]; try discriminate Hr.
    apply list_elem_of_fmap in He as (e1 & -> & He1). simpl.
    destruct st as [[|c s] cap]; simpl in *; [by apply elem_of_nil in He1|].
    destruct (in_class cl c) eqn:Hc; [|by apply elem_of_nil in He1].
    apply list_elem_of_fmap in He1 as (t & -> & Ht). simpl.
    destruct (star_suffix _ _ _ Ht) as (w & -> & Hw).
    change (String c (w ++ t)) with (String c w ++ t). rewrite consumed_app.
    split; [discriminate|]. simpl.
    by rewrite (class_word cl c Hr Hc), (all_in_word cl w Hr Hw).
Qed.

Lemma scan_word r s m :
  word_groups r = true -> scan r s = Some m -> word_text (group1 m).
Proof.
  intros Hr. induction s as [|c s IH]; simpl; unfold match_here.
  - destruct (run r ("", None)) as [|e l] eqn:E; simpl; [discriminate|].
    intros [= <-]. simpl. eapply (run_word r Hr ("", None) e); [|exact I].
    rewrite E. left.
  - destruct (run r (String c s, None)) as [|e l] eqn:E; simpl; [exact IH|].
    intros [= <-]. simpl. eapply (run_word r Hr (String c s, None) e); [|exact I].
    rewrite E. left.
Qed.

(** *** A character every match goes through *)

Lemma run_needs c r :
  needs c r = true -> forall st e, e ∈ run r st -> has_char c st.1 = true.
Proof.
  induction r as [|cl|r1 IH1 r2 IH2|r1 IH1 r2 IH2|r1 IH1|cl|r1 IH1];
    intros Hr st e He; simpl in Hr, He; try discriminate Hr.
  - destruct st as [[|d s] cap]; simpl in *; [by apply elem_of_nil in He|].
    destruct (in_class cl d) eqn:Hd; [|by apply elem_of_nil in He].
    destruct cl as [|[x| |] [|? ?]]; try discriminate Hr. simpl in Hr.
    unfold in_class in Hd. simpl in Hd. rewrite orb_false_r in Hd.
    apply Ascii.eqb_eq in Hd as ->. by rewrite Hr.
  - apply list_elem_of_In, in_flat_map in He as (e1 & H1 & H2).
    apply list_elem_of_In in H1, H2.
    apply orb_prop in Hr as [Hr|Hr]; [eauto|].
    destruct (run_suffix _ _ _ H1) as [w ->].
    rewrite has_char_app, (IH2 Hr _ _ H2). apply orb_true_r.
  - apply andb_prop in Hr as [Hr1 Hr2].
    apply elem_of_app in He as [He|He]; eauto.
  - destruct st as [[|d s] cap]; simpl in *; [by apply elem_of_nil in He|].
    destruct (in_class cl d) eqn:Hd; [|by apply elem_of_nil in He].
    destruct cl as [|[x| |] [|? ?]]; try discriminate Hr. simpl in Hr.
    unfold in_class in Hd. simpl in Hd. rewrite orb_false_r in Hd.
    apply Ascii.eqb_eq in Hd as ->. by rewrite Hr.
  - apply list_elem_of_fmap in He as (t & -> & Ht). eauto.
Qed.

Lemma scan_needs c r s :
  needs c r = true -> has_char c s = false -> scan r s = None.
Proof.
  intros Hr. induction s as [|d s IH]; simpl; unfold match_here.
  - destruct (run r ("", None)) as [|e l] eqn:E; [reflexivity|].
    intros _. assert (e ∈ run r ("", None)) as He by (rewrite E; left).
    by apply (run_needs c r Hr) in He.
  - intros H. apply orb_false_elim in H as [Hd Hs].
    destruct (run r (String d s, None)) as [|e l] eqn:E; [by apply IH|].
    assert (e ∈ run r (String d s, None)) as He by (rewrite E; left).
    apply (run_needs c r Hr) in He. simpl in He. by rewrite Hd, Hs in He.
Qed.

End ReMore.

(** ** What the patterns accept *)

Section Shapes.
Import Re ReFacts ReMore.

Lemma string_app_cons (c : ascii) (s t : string) : String c s ++ t = String c (s ++ t).
Proof. reflexivity. Qed.

Lemma string_app_nil (t : string) : "" ++ t = t.
Proof. reflexivity. Qed.

Lemma run_cat_class_hit cl r c s cap :
  in_class cl c = true -> run (Cat (Class cl) r) (String c s, cap) = run r (s, cap).
Proof. intros H. simpl. rewrite H. simpl. apply app_nil_r. Qed.

Lemma run_cat_class_miss cl r c s cap :
  in_class cl c = false -> run (Cat (Class cl) r) (String c s, cap) = [].
Proof. intros H. simpl. by rewrite H. Qed.

Lemma run_cat_opt r1 r2 st :
  run (Cat (Opt r1) r2) st = (run (Cat r1 r2) st ++ run r2 st)%list.
Proof. simpl. rewrite flat_map_app. simpl. by rewrite app_nil_r. Qed.

Lemma run_cat_alt r1 r2 r3 st :
  run (Cat (Alt r1 r2) r3) st = (run (Cat r1 r3) st ++ run (Cat r2 r3) st)%list.
Proof. simpl. by rewrite flat_map_app. Qed.

Lemma scan_miss r c s : run r (String c s, None) = [] -> scan r (String c s) = scan r s.
Proof. intros H. simpl. unfold match_here. by rewrite H. Qed.

Lemma first_group_plus_rest cl c w rest cap :
  in_class cl c = true -> all_in cl w = true -> stops cl rest = true ->
  head (run (Group (Plus cl)) (String c (w ++ rest), cap))
  = Some (rest, Some (String c w)).
Proof.
  intros Hc Hw Hrest.
  pose proof (first_plus_longest cl c w rest cap Hc Hw Hrest) as H.
  change (run (Group (Plus cl)) (String c (w ++ rest), cap))
    with (map (fun e : mstate => (e.1, Some (consumed (String c (w ++ rest)) e.1)))
            (run (Plus cl) (String c (w ++ rest), cap))).
  destruct (run (Plus cl) (String c (w ++ rest), cap)) as [|e l]; [discriminate H|].
  injection H as ->.
  change (Some (rest, Some (consumed (String c w ++ rest) rest))
          = Some (rest, Some (String c w))).
  by rewrite consumed_app.
Qed.

Lemma all_name_in (s : string) :
  all_chars name_char s = true -> all_in [IWord; IChar "."; IChar "-"] s = true.
Proof.
  induction s as [|c s IH]; simpl; [reflexivity|].
  intros H. apply andb_prop in H as [Hc Hs]. rewrite (IH Hs), andb_true_r.
  unfold name_char in Hc. unfold in_class. simpl.
  destruct (Chars.is_word c), (Ascii.eqb c "."), (Ascii.eqb c "-"); done.
Qed.

Lemma all_word_in (s : string) :
  all_chars Chars.is_word s = true -> all_in [IWord] s = true.
Proof.
  induction s as [|c s IH]; simpl; [reflexivity|].
  intros H. apply andb_prop in H as [Hc Hs]. rewrite (IH Hs), andb_true_r.
  unfold in_class. simpl. by rewrite Hc.
Qed.

Lemma word_is_no_colon (c : ascii) : Chars.is_word c = true -> Ascii.eqb c ":" = false.
Proof.
  intros H. destruct (Ascii.eqb_spec c ":") as [->|]; [|reflexivity].
  vm_compute in H. discriminate H.
Qed.

Lemma words_have_no_colon (s : string) :
  all_chars Chars.is_word s = true -> has_char ":" s = false.
Proof.
  induction s as [|c s IH]; simpl; [reflexivity|].
  intros H. apply andb_prop in H as [Hc Hs].
  by rewrite (word_is_no_colon c Hc), (IH Hs).
Qed.

Lemma digits_are_words (s : string) :
  all_digits s = true -> all_chars Chars.is_word s = true.
Proof.
  induction s as [|c s IH]; simpl; [reflexivity|].
  intros H. apply andb_prop in H as [Hc Hs].
  by rewrite (digit_is_word c Hc), (IH Hs).
Qed.

Lemma patterns_shape (pattern : string) :
  pattern ∈ video_id_patterns ->
  exists r, compile pattern = Some r /\ word_groups r = true /\ needs ":" r = true.
Proof.
  unfold video_id_patterns. intros H.
  repeat (apply elem_of_cons in H as [->|H];
          [eexists; split; [vm_compute; reflexivity|split; reflexivity]|]).
  by apply elem_of_nil in H.
Qed.

Lemma extract_with_none (patterns : list string) (url : string) :
  (forall pattern, pattern ∈ patterns -> search pattern url = None) ->
  extract_with patterns url = None.
Proof.
  induction patterns as [|p ps IH]; intros H; simpl; [reflexivity|].
  rewrite (H p) by left. apply IH. intros q Hq. apply H. by right.
Qed.

Lemma extract_with_skip (p : string) (ps : list string) (url : string) :
  search p url = None -> extract_with (p :: ps) url = extract_with ps url.
Proof. intros H. simpl. by rewrite H. Qed.

Lemma extract_with_hit (p : string) (ps : list string) (url : string) (m : Match) :
  search p url = Some m -> extract_with (p :: ps) url = group1 m.
Proof. intros H. simpl. by rewrite H. Qed.

Lemma extracted_word (url video_id : string) :
  _extract_video_id url = Some video_id ->
  video_id <> "" /\ all_chars Chars.is_word video_id = true.
Proof.
  intros H.
  pose proof (extract_with_first video_id_patterns url
                (fun pattern m => search_sets_group pattern url m)) as Hfirst.
  unfold _extract_video_id in H. rewrite H in Hfirst.
  destruct Hfirst as (i & pattern & m & Hi & Hs & Hg & _).
  apply list_elem_of_lookup_2 in Hi.
  destruct (patterns_shape pattern Hi) as (r & Hr & Hw & _).
  unfold search in Hs. rewrite Hr in Hs.
  apply (scan_word r url m Hw) in Hs. rewrite Hg in Hs. exact Hs.
Qed.

Lemma map_urls_keeps (urls : list string) :
  forall (acc : list (string * string)) (k : string),
    k ∈ acc.*1 -> k ∈ (map_urls urls acc).*1.
Proof.
  induction urls as [|x rest IH]; intros acc k Hk; simpl; [exact Hk|].
  destruct (_extract_video_id (strip x)) as [video_id|];
    [destruct (str_truthy video_id)|]; auto.
  apply IH. destruct (dict_set_keys (strip x) video_id acc) as [[_ ->]|[_ ->]];
    [exact Hk|]. apply elem_of_app. by left.
Qed.

Lemma map_urls_adds (urls : list string) :
  forall (acc : list (string * string)) (u video_id : string),
    u ∈ urls -> _extract_video_id (strip u) = Some video_id ->
    strip u ∈ (map_urls urls acc).*1.
Proof.
  induction urls as [|x rest IH]; intros acc u video_id Hu He;
    [by apply elem_of_nil in Hu|].
  apply elem_of_cons in Hu as [->|Hu].
  - simpl. rewrite He.
    assert (str_truthy video_id = true) as ->.
    { destruct (extracted_word _ _ He) as [Hne _]. by destruct video_id. }
    apply map_urls_keeps.
    destruct (dict_set_keys (strip x) video_id acc) as [[Hin ->]|[_ ->]];
      [exact Hin|]. apply elem_of_app. right. left.
  - simpl. destruct (_extract_video_id (strip x)) as [v|];
      [destruct (str_truthy v)|]; eauto.
Qed.

(** X14.  An ID that [_extract_video_id] returns is never empty and is made
    of word characters only (of digits, for the first two patterns):
    no slash, dot, query or fragment gets into it, and the test
    [if video_id:] of [download_videos] holds for every extracted ID. *)
Theorem extracted_id_is_a_word (url video_id : string) :
  _extract_video_id url = Some video_id ->
  video_id <> "" /\ all_chars Chars.is_word video_id = true /\
  str_truthy video_id = true.
Proof.
  intros H. destruct (extracted_word url video_id H) as [Hne Hw].
  repeat split; try assumption. by destruct video_id.
Qed.

(** X15.  The first loop of [download_videos] drops no URL it could use:
    every input URL that, trimmed, has an ID is a key of [url_to_id],
    with that ID. *)
Theorem every_known_url_is_resolved (urls : list string) (u video_id : string) :
  u ∈ urls -> _extract_video_id (strip u) = Some video_id ->
  (strip u, video_id) ∈ map_urls urls [].
Proof.
  intros Hu He.
  pose proof (map_urls_adds urls [] u video_id Hu He) as Hk.
  apply list_elem_of_fmap in Hk as ([k v] & Hkv & Hin). simpl in Hkv. subst k.
  destruct (map_urls_spec urls) as (_ & _ & Hitems).
  pose proof (proj1 (Forall_forall _ _) Hitems _ Hin) as [Hv _]. simpl in Hv.
  rewrite He in Hv. injection Hv as ->. exact Hin.
Qed.

(** X16.  A string without a colon is no TikTok URL for the collector: all
    three patterns begin with the scheme.  A URL given without
    [http://] or [https://], or a bare ID, is rejected. *)
Theorem url_without_colon_is_rejected (url : string) :
  has_char ":" url = false -> _extract_video_id url = None.
Proof.
  intros H. apply extract_with_none. intros pattern Hp.
  destruct (patterns_shape pattern Hp) as (r & Hr & _ & Hn).
  unfold search. rewrite Hr. by apply (scan_needs ":").
Qed.

(** *** The three shapes

    A run of a pattern over a subject with a known beginning is
    computed by rewriting, one character or one choice at a time. *)

Ltac norm_str :=
  rewrite ?string_app_assoc; repeat first [rewrite string_app_cons | rewrite string_app_nil].

Ltac go :=
  repeat first
    [ rewrite run_cat_assoc
    | rewrite run_cat_class_hit by reflexivity
    | rewrite run_cat_class_miss by reflexivity
    | rewrite run_cat_opt
    | rewrite run_cat_alt ].

(** No match at the positions of the known beginning. *)
Ltac misses := repeat (rewrite scan_miss by (go; reflexivity)).

Lemma name_in (c : ascii) :
  name_char c = true -> in_class [IWord; IChar "."; IChar "-"] c = true.
Proof.
  unfold name_char, in_class. simpl.
  destruct (Chars.is_word c), (Ascii.eqb c "."), (Ascii.eqb c "-"); done.
Qed.

Lemma stops_digit (rest : string) :
  starts_with Chars.is_digit rest = false -> stops [IDigit] rest = true.
Proof. destruct rest as [|c rest]; simpl; [done|]. unfold in_class. simpl. by intros ->. Qed.

Lemma stops_word (rest : string) :
  starts_with Chars.is_word rest = false -> stops [IWord] rest = true.
Proof. destruct rest as [|c rest]; simpl; [done|]. unfold in_class. simpl. by intros ->. Qed.

Lemma no_colon_from (c : ascii) (w rest : string) :
  Chars.is_word c = true -> all_chars Chars.is_word w = true ->
  has_char ":" rest = false -> has_char ":" (String c (w ++ rest)) = false.
Proof.
  intros Hc Hw Hrest. simpl.
  by rewrite (word_is_no_colon c Hc), has_char_app, (words_have_no_colon w Hw), Hrest.
Qed.

Lemma search_profile (secure www : bool) (c : ascii) (w : string) (d : ascii)
    (v rest : string) :
  name_char c = true -> all_chars name_char w = true ->
  Chars.is_digit d = true -> all_digits v = true ->
  starts_with Chars.is_digit rest = false ->
  search "https?://(?:www\.)?tiktok\.com/@[\w.-]+/video/(\d+)"
    (profile_url secure www (String c w) (String d v) ++ rest)
  = Some {| group1 := Some (String d v) |}.
Proof.
  intros Hc Hw Hd Hv Hrest. unfold search.
  set (r := compile _). vm_compute in r. subst r. cbv beta iota.
  apply scan_here. unfold match_here.
  match goal with |- match ?h with _ => _ end = _ =>
    assert (h = Some (rest, Some (String d v))) as ->; [|reflexivity] end.
  unfold profile_url, scheme.
  destruct secure, www; norm_str; go; rewrite ?app_nil_r, ?app_nil_l.
  all: apply (first_cat_plus _ _ c w _ None);
    [by apply name_in|by apply all_name_in|reflexivity|].
  all: go.
  all: apply first_group_plus_rest;
    [unfold in_class; simpl; by rewrite Hd|by apply all_digits_in|by apply stops_digit].
Qed.

Lemma search_mobile_1 (secure m : bool) (d : ascii) (v rest : string) :
  Chars.is_digit d = true -> all_digits v = true -> has_char ":" rest = false ->
  search "https?://(?:www\.)?tiktok\.com/@[\w.-]+/video/(\d+)"
    (mobile_url secure m (String d v) ++ rest) = None.
Proof.
  intros Hd Hv Hrest. unfold search.
  set (r := compile _). vm_compute in r. subst r. cbv beta iota.
  unfold mobile_url, scheme.
  destruct secure, m; norm_str; misses.
  all: apply (scan_needs ":"); [reflexivity|].
  all: apply no_colon_from;
    [by apply digit_is_word|by apply digits_are_words|exact Hrest].
Qed.

Lemma search_mobile_2 (secure m : bool) (d : ascii) (v rest : string) :
  Chars.is_digit d = true -> all_digits v = true ->
  starts_with Chars.is_digit rest = false ->
  search "https?://(?:m\.)?tiktok\.com/v/(\d+)"
    (mobile_url secure m (String d v) ++ rest)
  = Some {| group1 := Some (String d v) |}.
Proof.
  intros Hd Hv Hrest. unfold search.
  set (r := compile _). vm_compute in r. subst r. cbv beta iota.
  apply scan_here. unfold match_here.
  match goal with |- match ?h with _ => _ end = _ =>
    assert (h = Some (rest, Some (String d v))) as ->; [|reflexivity] end.
  unfold mobile_url, scheme.
  destruct secure, m; norm_str; go; rewrite ?app_nil_r, ?app_nil_l.
  all: apply first_group_plus_rest;
    [unfold in_class; simpl; by rewrite Hd|by apply all_digits_in|by apply stops_digit].
Qed.

Lemma search_short_1 (secure vt : bool) (c : ascii) (w rest : string) :
  Chars.is_word c = true -> all_chars Chars.is_word w = true ->
  has_char ":" rest = false ->
  search "https?://(?:www\.)?tiktok\.com/@[\w.-]+/video/(\d+)"
    (short_url secure vt (String c w) ++ rest) = None.
Proof.
  intros Hc Hw Hrest. unfold search.
  set (r := compile _). vm_compute in r. subst r. cbv beta iota.
  unfold short_url, scheme.
  destruct secure, vt; norm_str; misses.
  all: apply (scan_needs ":"); [reflexivity|].
  all: by apply no_colon_from.
Qed.

Lemma search_short_2 (secure vt : bool) (c : ascii) (w rest : string) :
  Chars.is_word c = true -> all_chars Chars.is_word w = true ->
  has_char ":" rest = false ->
  search "https?://(?:m\.)?tiktok\.com/v/(\d+)"
    (short_url secure vt (String c w) ++ rest) = None.
Proof.
  intros Hc Hw Hrest. unfold search.
  set (r := compile _). vm_compute in r. subst r. cbv beta iota.
  unfold short_url, scheme.
  destruct secure, vt; norm_str; misses.
  all: apply (scan_needs ":"); [reflexivity|].
  all: by apply no_colon_from.
Qed.

Lemma search_short_3 (secure vt : bool) (c : ascii) (w rest : string) :
  Chars.is_word c = true -> all_chars Chars.is_word w = true ->
  starts_with Chars.is_word rest = false ->
  search "https?://(?:vm|vt)\.tiktok\.com/(\w+)"
    (short_url secure vt (String c w) ++ rest)
  = Some {| group1 := Some (String c w) |}.
Proof.
  intros Hc Hw Hrest. unfold search.
  set (r := compile _). vm_compute in r. subst r. cbv beta iota.
  apply scan_here. unfold match_here.
  match goal with |- match ?h with _ => _ end = _ =>
    assert (h = Some (rest, Some (String c w))) as ->; [|reflexivity] end.
  unfold short_url, scheme.
  destruct secure, vt; norm_str; go; rewrite ?app_nil_r, ?app_nil_l.
  all: apply first_group_plus_rest;
    [unfold in_class; simpl; by rewrite Hc|by apply all_word_in|by apply stops_word].
Qed.

Lemma search_generic (pattern video_id : string) :
  pattern ∈ video_id_patterns -> has_char ":" video_id = false ->
  search pattern (generic_url video_id) = None.
Proof.
  unfold video_id_patterns. intros Hp Hid.
  unfold generic_url, url_or_generic.
  repeat (apply elem_of_cons in Hp as [->|Hp];
          [unfold search; set (r := compile _); vm_compute in r; subst r; cbv beta iota;
           norm_str; misses; by apply (scan_needs ":")|]).
  by apply elem_of_nil in Hp.
Qed.

(** X17.  A profile URL gives its video ID: with [http] or [https], with or
    without [www.], for every user name of word characters, dots and
    hyphens and every ID of digits, whatever follows the ID (a query,
    a slash) as long as it does not go on with a digit. *)
Theorem profile_url_gives_its_id (secure www : bool) (user video_id rest : string) :
  user <> "" -> all_chars name_char user = true ->
  video_id <> "" -> all_digits video_id = true ->
  starts_with Chars.is_digit rest = false ->
  _extract_video_id (profile_url secure www user video_id ++ rest) = Some video_id.
Proof.
  intros Hu Hname Hv Hdigits Hrest.
  destruct user as [|c w]; [congruence|]. destruct video_id as [|d v]; [congruence|].
  simpl in Hname, Hdigits.
  apply andb_prop in Hname as [Hc Hw]. apply andb_prop in Hdigits as [Hd Hds].
  unfold _extract_video_id, video_id_patterns.
  by rewrite (extract_with_hit _ _ _ _ (search_profile secure www c w d v rest Hc Hw Hd Hds Hrest)).
Qed.

(** X18.  A mobile URL ([tiktok.com/v/] with or without [m.]) gives its
    video ID, when what follows the ID does not go on with a digit and
    holds no colon (no second URL). *)
Theorem mobile_url_gives_its_id (secure m : bool) (video_id rest : string) :
  video_id <> "" -> all_digits video_id = true ->
  starts_with Chars.is_digit rest = false -> has_char ":" rest = false ->
  _extract_video_id (mobile_url secure m video_id ++ rest) = Some video_id.
Proof.
  intros Hv Hdigits Hrest Hcolon.
  destruct video_id as [|d v]; [congruence|].
  simpl in Hdigits. apply andb_prop in Hdigits as [Hd Hds].
  unfold _extract_video_id, video_id_patterns.
  rewrite (extract_with_skip _ _ _ (search_mobile_1 secure m d v rest Hd Hds Hcolon)).
  by rewrite (extract_with_hit _ _ _ _ (search_mobile_2 secure m d v rest Hd Hds Hrest)).
Qed.

(** X19.  A short link ([vm.tiktok.com] or [vt.tiktok.com]) gives its code,
    which need not be a number: the ID of such an item is the code of
    the link, not the numeric ID of the video. *)
Theorem short_url_gives_its_code (secure vt : bool) (code rest : string) :
  code <> "" -> all_chars Chars.is_word code = true ->
  starts_with Chars.is_word rest = false -> has_char ":" rest = false ->
  _extract_video_id (short_url secure vt code ++ rest) = Some code.
Proof.
  intros Hne Hword Hrest Hcolon.
  destruct code as [|c w]; [congruence|].
  simpl in Hword. apply andb_prop in Hword as [Hc Hw].
  unfold _extract_video_id, video_id_patterns.
  rewrite (extract_with_skip _ _ _ (search_short_1 secure vt c w rest Hc Hw Hcolon)).
  rewrite (extract_with_skip _ _ _ (search_short_2 secure vt c w rest Hc Hw Hcolon)).
  by rewrite (extract_with_hit _ _ _ _ (search_short_3 secure vt c w rest Hc Hw Hrest)).
Qed.

(** X20.  The URL [_get_video_info] makes up when it is called without one,
    [https://www.tiktok.com/video/<id>], has none of the three shapes:
    [_extract_video_id] finds no ID in it (for every ID without a
    colon, so for every ID the collector extracts). *)
Theorem generic_url_is_not_recognised (video_id : string) :
  has_char ":" video_id = false -> _extract_video_id (generic_url video_id) = None.
Proof.
  intros H. apply extract_with_none. intros pattern Hp. by apply search_generic.
Qed.

Lemma extracted_id_is_a_word_witness :
  "abcdefg" <> "" /\ all_chars Chars.is_word "abcdefg" = true /\
  str_truthy "abcdefg" = true.
Proof.
  apply (extracted_id_is_a_word "https://vm.tiktok.com/abcdefg/" "abcdefg").
  vm_compute. reflexivity.
Defined.

Lemma every_known_url_is_resolved_witness :
  (strip "  https://vm.tiktok.com/abcdefg/ ", "abcdefg")
  ∈ map_urls ["not a url"; "  https://vm.tiktok.com/abcdefg/ "] [].
Proof.
  apply (every_known_url_is_resolved
           ["not a url"; "  https://vm.tiktok.com/abcdefg/ "]
           "  https://vm.tiktok.com/abcdefg/ " "abcdefg").
  - apply list_elem_of_In. simpl. auto.
  - vm_compute. reflexivity.
Defined.

Lemma url_without_colon_is_rejected_witness :
  _extract_video_id "www.tiktok.com/@username/video/1234567890123456789" = None.
Proof.
  apply (url_without_colon_is_rejected
           "www.tiktok.com/@username/video/1234567890123456789").
  reflexivity.
Defined.

Lemma profile_url_gives_its_id_witness :
  _extract_video_id
    (profile_url true true "username" "1234567890123456789" ++ "?lang=en")
  = Some "1234567890123456789".
Proof.
  apply (profile_url_gives_its_id true true "username" "1234567890123456789" "?lang=en");
    first [discriminate | reflexivity].
Defined.

Lemma mobile_url_gives_its_id_witness :
  _extract_video_id (mobile_url false true "6718335390845095173" ++ ".html")
  = Some "6718335390845095173".
Proof.
  apply (mobile_url_gives_its_id false true "6718335390845095173" ".html");
    first [discriminate | reflexivity].
Defined.

Lemma short_url_gives_its_code_witness :
  _extract_video_id (short_url true false "abcdefg" ++ "/") = Some "abcdefg".
Proof.
  apply (short_url_gives_its_code true false "abcdefg" "/");
    first [discriminate | reflexivity].
Defined.

Lemma generic_url_is_not_recognised_witness :
  _extract_video_id (generic_url "1234567890123456789") = None.
Proof.
  apply (generic_url_is_not_recognised "1234567890123456789"). reflexivity.
Defined.

End Shapes.

(** ** Failures and the log *)

Section Reporting.
Context {W : Type}.
Variable respond : forall c : call, W -> outcome (answer c) * W.
Variable tiktok_config : TikTokConfig.

Local Arguments py_get : simpl never.
Local Arguments get_nested : simpl never.
Local Arguments path_join : simpl never.
Local Arguments url_or_generic : simpl never.

Lemma exn_eqb_refl (e : exn) : exn_eqb e e = true.
Proof. destruct e; simpl; apply String.eqb_refl. Qed.

Lemma exn_eqb_eq (e1 e2 : exn) : exn_eqb e1 e2 = true -> e1 = e2.
Proof.
  destruct e1, e2; simpl; try discriminate; intros H; apply String.eqb_eq in H;
    by subst.
Qed.

Lemma reports_ok (e : exn) (line : level * list piece) :
  reports e line = true -> (line.1 = Warning \/ line.1 = Error) /\ E_ e ∈ line.2.
Proof.
  destruct line as [lvl msg]. unfold reports. simpl. intros H.
  assert (existsb (fun p => match p with E_ e' => exn_eqb e' e | _ => false end) msg
          = true) as Hmsg by (destruct lvl; try discriminate H; exact H).
  split; [destruct lvl; try discriminate H; auto|].
  apply existsb_exists in Hmsg as (p & Hin & Hp). apply list_elem_of_In in Hin.
  destruct p; try discriminate Hp. apply exn_eqb_eq in Hp. by subst.
Qed.

Lemma all_reported_ok (t : list event) (lines : list (level * list piece)) :
  all_reported t lines = true -> reported t lines.
Proof.
  unfold all_reported, reported. intros H c e Hin.
  apply list_elem_of_In in Hin.
  pose proof (proj1 (forallb_forall _ _) H _ Hin) as He. simpl in He.
  apply existsb_exists in He as ([lvl msg] & Hline & Hrep).
  apply list_elem_of_In in Hline. apply reports_ok in Hrep as [Hlvl Hmsg].
  by exists lvl, msg.
Qed.

Lemma told_refl (s : state W) : told s s.
Proof.
  exists [], []. rewrite !app_nil_r. repeat split.
  intros c e H. by apply elem_of_nil in H.
Qed.

Lemma told_trans (s1 s2 s3 : state W) : told s1 s2 -> told s2 s3 -> told s1 s3.
Proof.
  intros (t1 & l1 & Ht1 & Hl1 & H1) (t2 & l2 & Ht2 & Hl2 & H2).
  exists (t1 ++ t2)%list, (l1 ++ l2)%list.
  split; [by rewrite Ht2, Ht1, app_assoc|]. split; [by rewrite Hl2, Hl1, app_assoc|].
  intros c e Hin. apply elem_of_app in Hin as [Hin|Hin].
  - destruct (H1 c e Hin) as (lvl & msg & Hline & H). exists lvl, msg.
    split; [apply elem_of_app; by left|exact H].
  - destruct (H2 c e Hin) as (lvl & msg & Hline & H). exists lvl, msg.
    split; [apply elem_of_app; by right|exact H].
Qed.

Lemma told_log (lvl : level) (msg : list piece) (s : state W) :
  told s (log lvl msg s).2.
Proof.
  exists [], [(lvl, msg)]. simpl. rewrite app_nil_r. repeat split.
  intros c e H. by apply elem_of_nil in H.
Qed.

Ltac answer_next :=
  match goal with
  | |- context [respond ?c ?w] =>
      let r := fresh "r" in
      let w' := fresh "w" in
      let E := fresh "E" in
      destruct (respond c w) as [r w'] eqn:E; destruct r; simpl
  end.

Ltac field_next :=
  match goal with
  | |- context [get_nested ?v ?k1 ?k2 ?d] => destruct (get_nested v k1 k2 d); simpl
  | |- context [py_get ?v ?k ?d] => destruct (py_get v k d); simpl
  end.

Ltac grown := first [symmetry; apply app_nil_r | rewrite <- ?app_assoc; reflexivity].

Ltac told_leaf :=
  unfold told; simpl; do 2 eexists;
  split; [grown|]; split; [grown|];
  apply all_reported_ok; unfold all_reported, reports; simpl;
  rewrite ?exn_eqb_refl;
  repeat match goal with |- context [exn_eqb ?a ?b] => destruct (exn_eqb a b) end;
  reflexivity.

Lemma cleanup_told (s : state W) : told s (cleanup respond s).2.
Proof.
  unfold cleanup, try_except, bind, get_api, ext, set_api, set_initialized, log, ret.
  destruct s as [a i hp w t lg]; simpl. destruct a as [h|]; simpl.
  - answer_next; told_leaf.
  - told_leaf.
Qed.

Lemma initialize_told (s : state W) :
  told s (_initialize_api respond tiktok_config s).2.
Proof.
  unfold _initialize_api, cleanup, try_except, bind, get_api, get_initialized, ext,
    set_api, set_initialized, log, ret, raise.
  destruct s as [a i hp w t lg]; simpl. destruct i; simpl.
  - told_leaf.
  - repeat answer_next; try (destruct a as [h0|]; simpl; try answer_next); told_leaf.
Qed.

Lemma get_video_info_told (video_id : string) (original_url : option string)
    (s : state W) :
  told s (_get_video_info respond video_id original_url s).2.
Proof.
  unfold _get_video_info, try_except, bind, get_api, ext, log, ret, raise, lift, alloc.
  destruct s as [a i hp w t lg]; simpl. destruct a as [h|]; simpl.
  - answer_next; [destruct (truthy a); simpl; repeat field_next|]; told_leaf.
  - told_leaf.
Qed.

Lemma download_video_told (r : ref) (m : VideoMetadata.t) (s : state W) :
  heap s !! r = Some m -> told s (_download_video respond r s).2.
Proof.
  intros Hm.
  unfold _download_video, _download_with_ytdlp, try_finally, try_except, bind, deref,
    ext, log, ret, store_local_path.
  destruct s as [a i hp w t lg]; simpl in *. rewrite Hm. simpl.
  repeat first
    [ answer_next
    | match goal with
      | |- context [if ?b then _ else _] => is_var b; destruct b; simpl
      end ];
    told_leaf.
Qed.

Lemma process_told (items : list (string * string)) :
  forall (acc : list ref) (s : state W), told s (process respond items acc s).2.
Proof.
  induction items as [|[url video_id] rest IH]; intros acc s; [apply told_refl|].
  rewrite process_cons.
  pose proof (get_video_info_told video_id (Some url) s) as H1.
  destruct (get_video_info_spec respond video_id (Some url) s)
    as (r1 & s1 & t1 & E1 & _ & _ & _ & Hr1).
  rewrite E1 in H1 |- *. simpl in H1.
  destruct r1 as [new|e]; [|exact H1].
  destruct Hr1 as (_ & _ & -> & m & Hh1 & _).
  assert (heap s1 !! length (heap s) = Some m) as Hnew.
  { rewrite Hh1. apply list_lookup_middle. reflexivity. }
  pose proof (download_video_told _ m s1 Hnew) as H2.
  destruct (download_video_spec respond _ m s1 Hnew) as (o & s2 & t2 & E2 & _).
  rewrite E2 in H2 |- *. simpl in H2.
  eapply told_trans; [exact H1|]. eapply told_trans; [exact H2|]. apply IH.
Qed.

Lemma download_videos_told (urls : list string) (s : state W) :
  told s (download_videos respond tiktok_config urls s).2.
Proof.
  rewrite download_videos_unfold.
  pose proof (initialize_told s) as H0.
  destruct (_initialize_api respond tiktok_config s) as [[[]|e0] s0]; simpl in H0.
  - destruct (map_urls urls []) as [|it items].
    + simpl. eapply told_trans; [exact H0|].
      eapply told_trans; [apply told_log|apply cleanup_told].
    + cbv beta iota zeta.
      match goal with |- context [process respond ?i ?a ?x] =>
        pose proof (process_told i a x) as H3;
        destruct (process respond i a x) as [[out|e] s3] end;
        simpl in H3 |- *.
      * eapply told_trans; [exact H0|]. eapply told_trans; [apply told_log|].
        eapply told_trans; [exact H3|].
        eapply told_trans; [apply told_log|apply cleanup_told].
      * eapply told_trans; [exact H0|]. eapply told_trans; [apply told_log|].
        eapply told_trans; [exact H3|].
        eapply told_trans; [apply told_log|apply cleanup_told].
  - simpl. eapply told_trans; [exact H0|].
    eapply told_trans; [apply told_log|apply cleanup_told].
Qed.

(** X21.  No failure of a collaborator is silent.  Every call that raised
    during a [download_videos] (to the client, the file manager, the
    download tool or the file system) is reported by a warning or an
    error line of the log, written during that call, with the text of
    the exception: the handlers that turn exceptions into [None], into
    an empty list or into nothing all log what they caught. *)
Theorem no_failure_is_silent (urls : list string) (s : state W) :
  exists out s' t lines,
    download_videos respond tiktok_config urls s = (Returns out, s') /\
    trace s' = (trace s ++ t)%list /\
    logged s' = (logged s ++ lines)%list /\
    reported t lines.
Proof.
  destruct (download_videos_spec respond tiktok_config urls s) as (out & s' & _ & E & _).
  pose proof (download_videos_told urls s) as H. rewrite E in H.
  destruct H as (t & lines & H). by exists out, s', t, lines.
Qed.

End Reporting.

(** * The contract, call by call

    The downloader's boundary, the teardown of the client and the keys
    of [url_to_id], stated on the calls the collector makes. *)

Section Boundary.
Context {W : Type}.
Variable respond : forall c : call, W -> outcome (answer c) * W.
Variable tiktok_config : TikTokConfig.

Local Arguments py_get : simpl never.
Local Arguments get_nested : simpl never.
Local Arguments path_join : simpl never.
Local Arguments url_or_generic : simpl never.

Ltac answer_next :=
  match goal with
  | |- context [respond ?c ?w] =>
      let r := fresh "r" in
      let w' := fresh "w" in
      let E := fresh "E" in
      destruct (respond c w) as [r w'] eqn:E; destruct r; simpl
  end.

(** C5.  [_download_video] on a metadata record never raises.  It
    returns a path exactly on success, and success is one run and no
    other: the file manager gave the path, a temporary directory was
    made, the download tool ran on the record's URL and returned, the
    output file was there, it was copied to the path, and the
    temporary directory was removed (whatever that removal did); the
    record then holds the path.  In every other case it returns
    [None]: a step has failed (a call that raised, the download tool
    included, or an output file that is not there), and the record is
    as it was. *)
Theorem download_video_never_raises (r : ref) (m : VideoMetadata.t) (s : state W) :
  heap s !! r = Some m ->
  exists o s' t,
    _download_video respond r s = (Returns o, s') /\
    trace s' = (trace s ++ t)%list /\
    match o with
    | Some p =>
        existsb step_failed t = false /\
        (exists temp_dir rep,
           t = [ (GetDownloadPath (VideoMetadata.id m), Text p);
                 (Mkdtemp, Text temp_dir);
                 (YdlDownload (ydl_opts (path_join temp_dir "video.mp4"))
                    [VideoMetadata.url m], Done);
                 (PathExists (path_join temp_dir "video.mp4"), Flag true);
                 (Copy2 (path_join temp_dir "video.mp4") p, Done);
                 (Rmtree temp_dir, rep) ]) /\
        heap s' = alter (VideoMetadata.set_local_path p) r (heap s)
    | None => existsb step_failed t = true /\ heap s' = heap s
    end.
Proof.
  intros Hm.
  unfold _download_video, _download_with_ytdlp, try_finally, try_except, bind, deref,
    ext, log, ret, store_local_path.
  destruct s as [a i hp w t lg]; simpl in *. rewrite Hm. simpl.
  repeat first
    [ answer_next
    | match goal with
      | |- context [if ?b then _ else _] => is_var b; destruct b; simpl
      end ];
    (do 3 eexists; split; [reflexivity|]; simpl;
     split; [rewrite <- ?app_assoc; reflexivity|];
     first [ split; reflexivity
           | split; [reflexivity|];
             split; [do 2 eexists; reflexivity|reflexivity] ]).
Qed.

(** [cleanup] in full: what it calls, what it leaves and what it logs. *)
Lemma cleanup_exact (s : state W) :
  exists s' closing,
    cleanup respond s = (Returns tt, s') /\
    trace s' = (trace s ++ closing)%list /\
    heap s' = heap s /\
    match api s with
    | Some h =>
        exists rep, closing = [(CloseSessions h, rep)] /\
          match rep with
          | Raised e =>
              api s' = Some h /\ initialized s' = initialized s /\
              logged s' =
              (logged s ++ [(Error, [S_ "Error during TikTok API cleanup: "; E_ e])])%list
          | _ =>
              api s' = None /\ initialized s' = false /\
              logged s' =
              (logged s ++ [(Debug, [S_ "TikTok API cleaned up successfully"])])%list
          end
    | None => closing = [] /\ s' = s
    end.
Proof.
  unfold cleanup, try_except, bind, get_api, ext, set_api, set_initialized, log, ret.
  destruct s as [a i hp w t lg]; simpl. destruct a as [h|]; simpl.
  - answer_next; do 2 eexists; (split; [reflexivity|]); simpl;
      (split; [reflexivity|]); (split; [reflexivity|]);
      eexists; (split; [reflexivity|]); simpl; auto.
  - do 2 eexists. split; [reflexivity|]. simpl. rewrite app_nil_r. auto.
Qed.

Lemma cleanup_torn_down (s : state W) :
  exists s' closing,
    cleanup respond s = (Returns tt, s') /\
    trace s' = (trace s ++ closing)%list /\
    logged s `prefix_of` logged s' /\
    torn_down (api s) closing (api s').
Proof.
  destruct (cleanup_exact s) as (s' & closing & E & Ht & _ & H).
  exists s', closing. do 2 (split; [assumption|]). unfold torn_down.
  destruct (api s) as [h|] eqn:Ha.
  - destruct H as (rep & -> & Hrep). split.
    + destruct rep; destruct Hrep as (_ & _ & ->); by eexists.
    + exists rep. split; [reflexivity|]. destruct rep; by destruct Hrep.
  - destruct H as [-> ->]. by rewrite Ha.
Qed.

(** The [try] block of [download_videos] with its [except] clause
    never raises, and keeps the collector consistent. *)
Lemma guarded_returns (urls : list string) (s : state W) :
  exists out s1 t1,
    download_videos_guarded respond tiktok_config urls s = (Returns out, s1) /\
    trace s1 = (trace s ++ t1)%list /\
    (consistent s -> consistent s1).
Proof.
  destruct (initialize_spec respond tiktok_config s)
    as (r0 & s0 & E0 & _ & (t0 & Ht0 & _) & Hr0).
  destruct r0 as [[]|e0].
  - destruct Hr0 as [Hi0 Ha0].
    destruct (map_urls_spec urls) as (_ & _ & Hitems).
    destruct (map_urls urls []) as [|it items] eqn:Em.
    + do 3 eexists. split.
      { unfold download_videos_guarded, try_except, bind. rewrite E0, Em. reflexivity. }
      simpl. split; [exact Ht0|]. intros Hc _. by apply Ha0.
    + assert (Forall (fun it : string * string => str_truthy it.1 = true) (it :: items))
        as Hkeys.
      { eapply Forall_impl; [exact Hitems|]. by intros ? [_ ?]. }
      destruct (process_spec respond (it :: items) []
                  (log Info [S_ "Extracted "; N_ (length (it :: items));
                             S_ " video IDs from URLs"] s0).2 Hkeys)
        as (r3 & s3 & t3 & E3 & Ha3 & Hi3 & _ & Ht3 & _).
      simpl in E3, Ha3, Hi3, Ht3.
      destruct r3 as [out|e].
      * do 3 eexists. split.
        { unfold download_videos_guarded, try_except, bind.
          rewrite E0, Em. simpl. rewrite E3. reflexivity. }
        simpl. split; [rewrite Ht3, Ht0, <- app_assoc; reflexivity|].
        intros Hc _. rewrite Ha3. by apply Ha0.
      * do 3 eexists. split.
        { unfold download_videos_guarded, try_except, bind.
          rewrite E0, Em. simpl. rewrite E3. reflexivity. }
        simpl. split; [rewrite Ht3, Ht0, <- app_assoc; reflexivity|].
        intros Hc _. rewrite Ha3. by apply Ha0.
  - destruct Hr0 as [Hi0 _]. do 3 eexists. split.
    { unfold download_videos_guarded, try_except, bind. rewrite E0. reflexivity. }
    simpl. split; [exact Ht0|]. intros _ Hi. simpl in Hi. congruence.
Qed.

Lemma reinitializes (s' : state W) (urls' : list string) :
  initialized s' = false ->
  exists out' s'' rep t',
    download_videos respond tiktok_config urls' s' = (Returns out', s'') /\
    trace s'' = (trace s' ++ (Mkdir "./data/tiktok_api", rep) :: t')%list.
Proof.
  intros Hi.
  destruct (download_videos_spec respond tiktok_config urls' s')
    as (out' & s'' & t' & E' & _ & Ht' & _ & Hmk & _).
  destruct (Hmk Hi) as (rep & t'' & ->). by exists out', s'', rep, t''.
Qed.

(** C4, amended.  On every exit path [download_videos] ends with
    [cleanup]: the guarded block never raises, [cleanup] runs on the
    state it leaves, and what the call returns is what the block
    returned.  When the collector holds a client at that point, the
    last call of [download_videos] is [close_sessions] on that
    client.  If it returns, the collector is left without a client
    ([api] is [None], [initialized] is [False]) and the next call
    starts by initializing again; if it raises, the error is logged
    and the collector keeps the client. *)
Theorem cleanup_runs_on_every_exit (urls : list string) (s : state W) :
  consistent s ->
  exists out s1 s' t closing,
    download_videos_guarded respond tiktok_config urls s = (Returns out, s1) /\
    cleanup respond s1 = (Returns tt, s') /\
    download_videos respond tiktok_config urls s = (Returns out, s') /\
    trace s' = (trace s ++ t)%list /\
    trace s' = (trace s1 ++ closing)%list /\
    match api s1 with
    | Some h =>
        exists rep, closing = [(CloseSessions h, rep)] /\
          match rep with
          | Raised e =>
              api s' = Some h /\ initialized s' = initialized s1 /\
              logged s' =
              (logged s1 ++ [(Error, [S_ "Error during TikTok API cleanup: "; E_ e])])%list
          | _ => api s' = None /\ initialized s' = false
          end
    | None => closing = [] /\ s' = s1 /\ initialized s' = false
    end /\
    ((api s' = None /\ initialized s' = false /\
      forall urls' : list string,
        exists out' s'' rep t',
          download_videos respond tiktok_config urls' s' = (Returns out', s'') /\
          trace s'' = (trace s' ++ (Mkdir "./data/tiktok_api", rep) :: t')%list)
     \/
     (exists h e, api s' = Some h /\
                  last (trace s') = Some (CloseSessions h, Raised e))).
Proof.
  intros Hc.
  destruct (guarded_returns urls s) as (out & s1 & t1 & E1 & Ht1 & Hc1).
  specialize (Hc1 Hc).
  destruct (cleanup_exact s1) as (s' & closing & Ec & Htc & _ & H).
  exists out, s1, s', (t1 ++ closing)%list, closing.
  split; [exact E1|]. split; [exact Ec|].
  split; [unfold download_videos, try_finally; by rewrite E1, Ec|].
  split; [by rewrite Htc, Ht1, app_assoc|]. split; [exact Htc|].
  destruct (api s1) as [h|] eqn:Ha1.
  - destruct H as (rep & -> & Hrep). split.
    + exists rep. split; [reflexivity|].
      destruct rep; try (destruct Hrep as (? & ? & _); by split). exact Hrep.
    + destruct rep.
      * right. exists h, e. split; [apply Hrep|]. rewrite Htc. apply last_snoc.
      * left. destruct Hrep as (Ha & Hi & _). do 2 (split; [assumption|]).
        intros urls'. by apply reinitializes.
      * left. destruct Hrep as (Ha & Hi & _). do 2 (split; [assumption|]).
        intros urls'. by apply reinitializes.
      * left. destruct Hrep as (Ha & Hi & _). do 2 (split; [assumption|]).
        intros urls'. by apply reinitializes.
      * left. destruct Hrep as (Ha & Hi & _). do 2 (split; [assumption|]).
        intros urls'. by apply reinitializes.
      * left. destruct Hrep as (Ha & Hi & _). do 2 (split; [assumption|]).
        intros urls'. by apply reinitializes.
  - destruct H as [-> ->].
    assert (initialized s1 = false) as Hi.
    { destruct (initialized s1) eqn:Hi; [|reflexivity]. exfalso. by apply Hc1. }
    split; [by repeat split|].
    left. do 2 (split; [assumption|]). intros urls'. by apply reinitializes.
Qed.

(** A line is among the lines logged. *)
Ltac in_log :=
  repeat (apply elem_of_app;
          first [ right; apply list_elem_of_singleton; reflexivity | left ]).

Ltac torn :=
  unfold torn_down; simpl; first [split; reflexivity | eexists; split; reflexivity].

Ltac failed_at choose :=
  solve [ do 3 eexists; split; [choose|];
          split; [rewrite <- ?app_assoc; reflexivity|torn] ].

(** A failed initialization, call by call. *)
Lemma initialize_failure_exact (s s1 : state W) (e : exn) :
  _initialize_api respond tiktok_config s = (Raises e, s1) ->
  (exists steps closing held,
     failed_init tiktok_config (api s) e steps held /\
     trace s1 = (trace s ++ steps ++ closing)%list /\
     torn_down held closing (api s1)) /\
  initialized s1 = false /\
  (Error, [S_ "Error initializing TikTok API: "; E_ e]) ∈ logged s1.
Proof.
  unfold _initialize_api, cleanup, try_except, bind, get_api, get_initialized, ext,
    set_api, set_initialized, log, ret, raise, failed_init.
  destruct s as [a i hp w t lg]; simpl. destruct i; simpl; [discriminate|].
  repeat answer_next; try (destruct a as [h0|]; simpl; try answer_next);
    intros H; try discriminate H; injection H as <- <-; simpl.
  all: split; [|split; [reflexivity|in_log]].
  all: first
    [ failed_at ltac:(left; split; reflexivity)
    | failed_at ltac:(right; left; split; reflexivity)
    | failed_at ltac:(right; right; eexists; split; reflexivity) ].
Qed.

(** C2, amended.  When the initialization fails, [_initialize_api]
    tears down the client the collector then holds (the new one, when
    it was creating the session that failed): it calls
    [close_sessions] on it and leaves the collector without a client,
    unless that call raised as well.  It logs the error and raises it
    to [download_videos], which catches it, logs it, runs [cleanup]
    and returns the empty list to its caller. *)
Theorem init_failure_gives_empty_result (urls : list string) (s s1 : state W)
    (e : exn) :
  _initialize_api respond tiktok_config s = (Raises e, s1) ->
  (exists steps closing held,
     failed_init tiktok_config (api s) e steps held /\
     trace s1 = (trace s ++ steps ++ closing)%list /\
     torn_down held closing (api s1)) /\
  initialized s1 = false /\
  (Error, [S_ "Error initializing TikTok API: "; E_ e]) ∈ logged s1 /\
  (api s1 = None \/
   exists h e', api s1 = Some h /\ last (trace s1) = Some (CloseSessions h, Raised e')) /\
  download_videos respond tiktok_config urls s
  = (Returns [],
     (cleanup respond (log Error [S_ "Error downloading videos: "; E_ e] s1).2).2) /\
  exists s' closing',
    download_videos respond tiktok_config urls s = (Returns [], s') /\
    trace s' = (trace s1 ++ closing')%list /\
    torn_down (api s1) closing' (api s') /\
    (Error, [S_ "Error downloading videos: "; E_ e]) ∈ logged s'.
Proof.
  intros H.
  destruct (initialize_failure_exact s s1 e H) as (Hsteps & Hi & Hlog).
  split; [exact Hsteps|]. split; [exact Hi|]. split; [exact Hlog|].
  split.
  { destruct (initialize_spec respond tiktok_config s) as (r & s0 & E & _ & _ & Hr).
    rewrite H in E. injection E as <- <-. apply Hr. }
  destruct (cleanup_torn_down (log Error [S_ "Error downloading videos: "; E_ e] s1).2)
    as (s' & closing' & Ec & Htc & Hlc & Htd).
  assert (download_videos respond tiktok_config urls s
          = (Returns [],
             (cleanup respond
                (log Error [S_ "Error downloading videos: "; E_ e] s1).2).2)) as Ed.
  { unfold download_videos, try_finally, download_videos_guarded, try_except, bind.
    rewrite H. unfold log, ret. simpl.
    match goal with
    | |- context [cleanup respond ?x] =>
        destruct (cleanup_spec respond x) as (s'' & Ec' & _); rewrite Ec'
    end.
    reflexivity. }
  split; [exact Ed|].
  exists s', closing'. rewrite Ed, Ec. simpl in Htc, Hlc, Htd.
  split; [reflexivity|]. split; [exact Htc|]. split; [exact Htd|].
  destruct Hlc as [more ->]. simpl. in_log.
Qed.

End Boundary.

(** ** The keys of [url_to_id] *)

Section Keys.
Context {W : Type}.
Variable respond : forall c : call, W -> outcome (answer c) * W.
Variable tiktok_config : TikTokConfig.

Lemma lstrip_spaces (a y : string) :
  all_chars Chars.is_space a = true -> lstrip (a ++ y) = lstrip y.
Proof.
  induction a as [|c a IH]; simpl; [reflexivity|].
  intros H. apply andb_prop in H as [Hc Ha]. rewrite Hc. by apply IH.
Qed.

Lemma rstrip_spaces_only (b : string) :
  all_chars Chars.is_space b = true -> rstrip b = "".
Proof.
  induction b as [|c b IH]; simpl; [reflexivity|].
  intros H. apply andb_prop in H as [Hc Hb]. by rewrite (IH Hb), Hc.
Qed.

Lemma rstrip_spaces (x b : string) :
  all_chars Chars.is_space b = true -> rstrip (x ++ b) = rstrip x.
Proof.
  intros Hb. induction x as [|c x IH].
  - rewrite string_app_nil. by rewrite rstrip_spaces_only.
  - rewrite string_app_cons. simpl. by rewrite IH.
Qed.

Lemma strip_padded (a b u : string) :
  all_chars Chars.is_space a = true -> all_chars Chars.is_space b = true ->
  strip (a ++ u ++ b) = strip u.
Proof.
  intros Ha Hb. unfold strip. rewrite (lstrip_spaces a _ Ha).
  induction u as [|c u IH].
  - rewrite string_app_nil. simpl.
    assert (lstrip b = "") as ->; [|reflexivity].
    clear Ha. induction b as [|d b IHb]; simpl in *; [reflexivity|].
    apply andb_prop in Hb as [Hd Hb]. rewrite Hd. by apply IHb.
  - rewrite string_app_cons. simpl. destruct (Chars.is_space c); [exact IH|].
    change (String c (u ++ b)) with (String c u ++ b). by apply rstrip_spaces.
Qed.

Lemma without_filter (x : string) (l : list string) :
  without x l = filter (fun y => y <> x) l.
Proof.
  induction l as [|y l IH]; simpl; [reflexivity|].
  destruct (String.eqb_spec y x) as [->|Hne].
  - rewrite filter_cons_False by (intros H; by apply H). exact IH.
  - rewrite filter_cons_True by exact Hne. by rewrite IH.
Qed.

Lemma map_urls_keys_exact (urls : list string) :
  forall acc : list (string * string),
    (map_urls urls acc).*1
    = (acc.*1 ++ filter (fun y => y ∉ acc.*1)
                   (first_occurrences (List.filter has_id (strip <$> urls))))%list.
Proof.
  induction urls as [|u rest IH]; intros acc; csimpl.
  - by rewrite app_nil_r.
  - unfold has_id at 1.
    destruct (_extract_video_id (strip u)) as [video_id|] eqn:He; [|apply IH].
    assert (str_truthy video_id = true) as ->.
    { destruct (extracted_word _ _ He) as [Hne _]. by destruct video_id. }
    rewrite IH. simpl. rewrite without_filter.
    destruct (dict_set_keys (strip u) video_id acc) as [[Hin ->]|[Hout ->]].
    + f_equal. rewrite filter_cons_False by (intros H; by apply H).
      rewrite list_filter_filter. apply list_filter_iff. intros y.
      split; [|by intros [? _]]. intros Hy. split; [exact Hy|]. by intros ->.
    + rewrite <- app_assoc. f_equal. rewrite filter_cons_True by exact Hout.
      simpl. f_equal. rewrite list_filter_filter. apply list_filter_iff. intros y.
      split.
      * intros Hy. split.
        -- intros H. apply Hy, elem_of_app. by left.
        -- intros ->. apply Hy, elem_of_app. right. left.
      * intros [H1 H2] H. apply elem_of_app in H as [H|H]; [by apply H1|].
        apply list_elem_of_singleton in H. by apply H2.
Qed.

Lemma filter_not_in_nil (l : list string) :
  filter (fun y : string => y ∉ @nil string) l = l.
Proof.
  induction l as [|x l IH]; [reflexivity|].
  rewrite filter_cons_True by apply not_elem_of_nil. by rewrite IH.
Qed.

Lemma resolved_urls_keys (urls : list string) :
  (map_urls urls []).*1 = resolved_urls urls.
Proof.
  rewrite map_urls_keys_exact. simpl. apply filter_not_in_nil.
Qed.

(** C9.  [url_to_id] is keyed by the trimmed URL: its keys are the
    input URLs, trimmed, that have an ID, each one once, at its first
    occurrence, however often it occurs in the input; the value under
    a key is the ID extracted from it; and trimming makes inputs that
    differ in surrounding whitespace only the same key.  A call
    requests metadata for keys only, for each at most once, and at
    most one record of the result has a given key as its source
    URL. *)
Theorem duplicates_processed_once (urls : list string) (s : state W) :
  (map_urls urls []).*1 = resolved_urls urls /\
  NoDup (resolved_urls urls) /\
  Forall (fun it : string * string => _extract_video_id it.1 = Some it.2)
    (map_urls urls []) /\
  (forall a b u : string,
     all_chars Chars.is_space a = true -> all_chars Chars.is_space b = true ->
     strip (a ++ u ++ b) = strip u) /\
  exists out s' t,
    download_videos respond tiktok_config urls s = (Returns out, s') /\
    trace s' = (trace s ++ t)%list /\
    fetched t `prefix_of` resolved_urls urls /\
    NoDup (fetched t) /\
    length (records s' out) = length out /\
    VideoMetadata.url <$> records s' out `sublist_of` Some <$> resolved_urls urls /\
    NoDup (VideoMetadata.url <$> records s' out).
Proof.
  destruct (map_urls_spec urls) as (_ & Hnodup & Hitems).
  rewrite <- resolved_urls_keys.
  split; [reflexivity|]. split; [exact Hnodup|].
  split; [eapply Forall_impl; [exact Hitems|]; by intros ? [? _]|].
  split; [exact strip_padded|].
  destruct (download_videos_spec respond tiktok_config urls s)
    as (out & s' & t & E & _ & Ht & Hf & _ & (picked & Hsub & Hall) & _ & _).
  exists out, s', t. do 3 (split; [assumption|]).
  destruct (records_downloaded s' out picked _ Hall) as (Hlen & Hurls & _ & _).
  split; [|split; [exact Hlen|]].
  - destruct Hf as [k Hk]. rewrite Hk in Hnodup. by apply NoDup_app in Hnodup as [? _].
  - rewrite Hurls. split; [by do 2 apply fmap_sublist|].
    apply (NoDup_fmap_2 _).
    apply (sublist_NoDup _ ((map_urls urls []).*1)); [exact Hnodup|].
    apply fmap_sublist, Hsub.
Qed.

End Keys.

(** ** What is returned when every fetch succeeds *)

Section Saved.
Context {W : Type}.
Variable respond : forall c : call, W -> outcome (answer c) * W.
Variable tiktok_config : TikTokConfig.

Local Arguments py_get : simpl never.
Local Arguments get_nested : simpl never.
Local Arguments path_join : simpl never.
Local Arguments url_or_generic : simpl never.
Local Arguments process : simpl never.

Ltac answer_next :=
  match goal with
  | |- context [respond ?c ?w] =>
      let r := fresh "r" in
      let w' := fresh "w" in
      let E := fresh "E" in
      destruct (respond c w) as [r w'] eqn:E; destruct r; simpl
  end.

Lemma delivered_client_only (t : list event) :
  forallb client_call t = true ->
  forall cur rest, delivered_from cur (t ++ rest) = delivered_from cur rest.
Proof.
  induction t as [|[c rep] t IH]; simpl; [reflexivity|].
  intros H cur rest. apply andb_prop in H as [Hc Ht].
  unfold client_call in Hc. simpl in Hc.
  destruct c; try discriminate Hc; by apply IH.
Qed.

Lemma delivered_nothing (t : list event) (cur : option string) :
  forallb client_call t = true -> delivered_from cur t = [].
Proof.
  intros H. pose proof (delivered_client_only t H cur []) as E.
  by rewrite app_nil_r in E.
Qed.

(** The calls of one download, as [delivered_from] reads them. *)
Lemma download_video_saved (r : ref) (m : VideoMetadata.t) (s : state W) :
  heap s !! r = Some m ->
  exists o s' dl,
    _download_video respond r s = (Returns o, s') /\
    api s' = api s /\
    trace s' = (trace s ++ dl)%list /\
    heap s' = match o with
              | Some p => alter (VideoMetadata.set_local_path p) r (heap s)
              | None => heap s
              end /\
    forall cur rest,
      delivered_from cur (dl ++ rest)
      = match o with
        | Some p =>
            (match cur with
             | Some url => if str_truthy p then [url] else []
             | None => []
             end ++ delivered_from None rest)%list
        | None => delivered_from cur rest
        end.
Proof.
  intros Hm.
  unfold _download_video, _download_with_ytdlp, try_finally, try_except, bind, deref,
    ext, log, ret, store_local_path.
  destruct s as [a i hp w t lg]; simpl in *. rewrite Hm. simpl.
  repeat first
    [ answer_next
    | match goal with
      | |- context [if ?b then _ else _] => is_var b; destruct b; simpl
      end ];
    (do 3 eexists; split; [reflexivity|]; simpl; split; [reflexivity|];
     split; [rewrite <- ?app_assoc; reflexivity|];
     split; [reflexivity|]; intros cur rest; reflexivity).
Qed.

(** With a client that answers every request, the second loop returns
    the records of the items whose video was saved, in their order. *)
Lemma process_saved (items : list (string * string)) :
  forall (acc : list ref) (s : state W) (h : handle),
    fetch_reliable respond -> api s = Some h ->
    Forall (fun it : string * string => str_truthy it.1 = true) items ->
    exists news s' t,
      process respond items acc s = (Returns (acc ++ news)%list, s') /\
      heap s `prefix_of` heap s' /\
      trace s' = (trace s ++ t)%list /\
      forall cur rest,
        forallb client_call rest = true ->
        VideoMetadata.url <$> records s' news
        = Some <$> delivered_from cur (t ++ rest).
Proof.
  induction items as [|[url video_id] rest_items IH]; intros acc s h Hrel Ha Hkeys.
  - exists [], s, []. rewrite !app_nil_r. repeat split; [done|].
    intros cur rest Hrest. simpl. by rewrite delivered_nothing.
  - destruct (Forall_cons_1 _ _ _ Hkeys) as [Hurl Hrest]. simpl in Hurl.
    assert (url_or_generic video_id (Some url) = url) as Hgen
      by (unfold url_or_generic; rewrite Hurl; reflexivity).
    rewrite process_cons.
    destruct (get_video_info_reliable respond video_id (Some url) s h Hrel Ha)
      as (s1 & m & v & E1 & Ha1 & Hh1 & Ht1).
    rewrite Hgen in Ht1. rewrite E1.
    assert (heap s1 !! length (heap s) = Some m) as Hnew.
    { rewrite Hh1. apply list_lookup_middle. reflexivity. }
    assert (VideoMetadata.url m = Some url) as Hm_url.
    { destruct (get_video_info_spec respond video_id (Some url) s)
        as (r1' & s1' & t1' & E1' & _ & _ & _ & Hr1').
      rewrite E1 in E1'. injection E1' as <- <-.
      destruct Hr1' as (_ & _ & _ & m' & Hh1' & _ & Hu' & _).
      rewrite Hh1 in Hh1'. apply app_inv_head in Hh1'. rewrite Hgen in Hu'. congruence. }
    destruct (download_video_saved _ m s1 Hnew)
      as (o & s2 & dl & E2 & Ha2 & Ht2 & Hh2 & Hdl).
    rewrite E2.
    assert (exists m2, heap s2 = (heap s ++ [m2])%list /\ VideoMetadata.url m2 = Some url)
      as (m2 & Hs2 & Hm2).
    { destruct o as [p|]; rewrite Hh2, Hh1; [|by exists m].
      exists (VideoMetadata.set_local_path p m).
      rewrite alter_app_r_alt, Nat.sub_diag by lia. by split. }
    destruct (IH (if opt_truthy o then (acc ++ [length (heap s)])%list else acc) s2 h Hrel)
      as (news & s3 & t3 & E3 & Hp3 & Ht3 & Hd3); [congruence|exact Hrest|].
    assert (heap s3 !! length (heap s) = Some m2) as H3.
    { eapply prefix_lookup_Some; [|exact Hp3]. rewrite Hs2.
      apply list_lookup_middle. reflexivity. }
    exists (if opt_truthy o then length (heap s) :: news else news), s3,
      ((VideoInfo h url, Value v) :: dl ++ t3)%list.
    split.
    { rewrite E3. destruct (opt_truthy o); [|reflexivity].
      by rewrite <- app_assoc. }
    split; [etrans; [|exact Hp3]; rewrite Hs2; by eexists|].
    split; [rewrite Ht3, Ht2, Ht1, <- !app_assoc; reflexivity|].
    intros cur rest Hcl. simpl. rewrite <- app_assoc, Hdl.
    destruct o as [p|]; simpl.
    + destruct (str_truthy p); simpl.
      * unfold records. csimpl. rewrite H3. csimpl. rewrite Hm2. f_equal.
        by apply Hd3.
      * by apply Hd3.
    + by apply Hd3.
Qed.

(** The order of the result when every fetch succeeds.  With a
    consistent collector, a client that starts and a client that answers every
    request with a well-shaped response, [download_videos] returns
    exactly the records of the URLs whose video was saved, in the order
    in which they were saved, which is the order of the input. *)
Lemma saved_videos_are_returned (urls : list string) (s : state W) :
  consistent s -> client_starts respond tiktok_config -> fetch_reliable respond ->
  exists out s' t,
    download_videos respond tiktok_config urls s = (Returns out, s') /\
    trace s' = (trace s ++ t)%list /\
    length (records s' out) = length out /\
    VideoMetadata.url <$> records s' out = Some <$> delivered t /\
    delivered t `sublist_of` (strip <$> urls).
Proof.
  intros Hc Hstarts Hrel.
  destruct (download_videos_spec respond tiktok_config urls s)
    as (out & s' & t & E & _ & Ht & _ & _ & (picked & Hsub & Hall) & _ & _).
  destruct (records_downloaded s' out picked _ Hall) as (Hlen & Hurls & _ & _).
  destruct (map_urls_spec urls) as (Hkeys & _ & Hitems).
  assert (VideoMetadata.url <$> records s' out = Some <$> delivered t) as Hd.
  { clear Hurls Hlen Hall Hsub picked.
    rewrite download_videos_unfold in E.
    destruct (initialize_starts respond tiktok_config s Hstarts Hc)
      as (s0 & t0 & E0 & [h Ha0] & _ & Ht0 & Hc0).
    rewrite E0 in E.
    destruct (map_urls urls []) as [|it items] eqn:Em.
    - injection E as <- <-.
      match type of Ht with context [cleanup respond ?x] =>
        destruct (cleanup_calls respond x) as (sc & tc & Ec & _ & Htc & Hcc) end.
      rewrite Ec in Ht. simpl in Ht, Htc. rewrite Htc, Ht0, <- app_assoc in Ht.
      apply app_inv_head in Ht. subst t. unfold delivered.
      rewrite delivered_nothing; [reflexivity|]. by rewrite forallb_app, Hc0, Hcc.
    - cbv beta iota zeta in E.
      match type of E with context [process respond ?i ?a ?x] =>
        destruct (process_saved i a x h Hrel) as (news & s3 & t3 & E3 & _ & Ht3 & Hd3) end.
      { exact Ha0. }
      { eapply Forall_impl; [exact Hitems|]. by intros ? [_ ?]. }
      rewrite E3 in E. simpl in E. injection E as <- <-.
      match type of Ht with context [cleanup respond ?x] =>
        destruct (cleanup_calls respond x) as (sc & tc & Ec & Hhc & Htc & Hcc) end.
      rewrite Ec in Ht |- *. simpl in Ht, Htc, Hhc, Ht3 |- *.
      rewrite Htc, Ht3, Ht0, <- !app_assoc in Ht.
      apply app_inv_head in Ht. subst t. unfold delivered.
      rewrite (delivered_client_only t0 Hc0), <- (Hd3 None tc Hcc).
      unfold records. by rewrite Hhc. }
  exists out, s', t. do 3 (split; [assumption|]). split; [exact Hd|].
  rewrite Hurls in Hd. apply (inj (fmap Some)) in Hd. rewrite <- Hd.
  etrans; [|exact Hkeys]. by apply fmap_sublist.
Qed.

End Saved.

(** ** More scripted runs *)

Section ContractRuns.
Import Script.

(** C8, at a failing input.  The batch is three URLs and the metadata
    request for the last one raises.  The videos of the first two were
    fetched, downloaded and copied (their records are on the heap with
    their [local_path]), so the result should be their two records in
    this order; [download_videos] returns the empty list. *)
Theorem fetch_failure_drops_saved_videos :
  let '(r, s') := batch (fetch_fails_for url3) [url1; url2; url3] in
  r = Returns [] /\
  fetched (trace s') = [url1; url2; url3] /\
  delivered (trace s') = [url1; url2] /\
  VideoMetadata.url <$> heap s' = [Some url1; Some url2] /\
  VideoMetadata.local_path <$> heap s'
  = [Some "downloads/1.mp4"; Some "downloads/2.mp4"].
Proof. vm_compute. repeat split. Qed.

Lemma init_failure_gives_empty_result_witness :
  exists s1 s' : state nat,
    _initialize_api (respond no_browser) no_config (__init__ 0)
    = (Raises (Foreign "browser did not start"), s1) /\
    trace s1
    = [ (Mkdir "./data/tiktok_api", Done); (NewTikTokApi, Handle 0);
        (CreateSessions 0 (session_args no_config),
         Raised (Foreign "browser did not start"));
        (CloseSessions 0, Done) ] /\
    download_videos (respond no_browser) no_config [url1] (__init__ 0)
    = (Returns [], s').
Proof.
  assert (_initialize_api (respond no_browser) no_config (__init__ 0)
          = (Raises (Foreign "browser did not start"),
             (run no_browser (_initialize_api (respond no_browser) no_config)).2)) as H
    by (vm_compute; reflexivity).
  destruct (init_failure_gives_empty_result (respond no_browser) no_config [url1]
              (__init__ 0) _ _ H)
    as (_ & _ & _ & _ & _ & s' & _ & E & _).
  exists (run no_browser (_initialize_api (respond no_browser) no_config)).2, s'.
  split; [exact H|]. split; [vm_compute; reflexivity|exact E].
Defined.

Lemma cleanup_runs_on_every_exit_witness :
  exists (out : list nat) (s1 s' : state nat),
    download_videos_guarded (respond fine) no_config [url1] (__init__ 0)
    = (Returns out, s1) /\
    cleanup (respond fine) s1 = (Returns tt, s') /\
    download_videos (respond fine) no_config [url1] (__init__ 0) = (Returns out, s').
Proof.
  destruct (cleanup_runs_on_every_exit (respond fine) no_config [url1] (__init__ 0))
    as (out & s1 & s' & _ & _ & E1 & Ec & E & _).
  - intros H. discriminate H.
  - exists out, s1, s'. split; [exact E1|]. split; [exact Ec|exact E].
Defined.

Lemma download_video_never_raises_witness :
  exists (o : option string) (s' : state nat) (t : list event),
    _download_video (respond fine) 0 with_record = (Returns o, s') /\
    trace s' = (trace with_record ++ t)%list.
Proof.
  destruct (download_video_never_raises (respond fine) 0 fetched_record with_record)
    as (o & s' & t & E & Ht & _).
  - reflexivity.
  - exists o, s', t. split; [exact E|exact Ht].
Defined.

End ContractRuns.
